(** * A REST backend for articles, products and their comments

    A shallow embedding of the Express application: the request wrapper
    [asyncHandler], the sixteen route handlers it wraps and the order in
    which they are registered, together with an executable model of the
    two collaborators they talk to, the Express response object and the
    Prisma client.

    The sources hold two states of the application.  The one embedded here
    is the one that imports [cors] and [CreateComment]; the other (app.js)
    has the same [asyncHandler], letter for letter, but calls [cors()]
    without importing it, so that it stops before it registers a route.

    Layout:
    - numbers: doubles, their rounding, [Number] and [parseInt] on text;
    - JavaScript values, truthiness, [String], [Number] and [parseInt];
    - exceptions, the response object, the event trace and the monad [M];
    - the persistence client: tables, data model, queries;
    - requests, sample data, the handlers and the router;
    - the properties of the specification (C1 to C10), then further
      properties of the code (X1 to X17), each exercised on the sample
      data at the end.
*)

From Stdlib Require Import ZArith Ascii Lia.
From stdpp Require Import base option list strings gmap sorting pretty.

Set Warnings "-register-all".

Open Scope Z_scope.

(* ===================================================================== *)
(** ** Numbers *)
(* ===================================================================== *)

(** A number is a double: NaN, an infinity, or a finite value.  The finite
    values are the integers [Num z] and the fractions [Frac n e], which
    stand for n / 2^e with n odd.  The two zeros are not told apart: the
    program never divides, and cannot tell them apart either.  Whatever
    makes a number (reading a text, subtracting, multiplying) rounds its
    exact result to the nearest double, ties to even. *)
Inductive number :=
| NaN
| Num (z : Z)
| Frac (n : Z) (e : positive)
| Infinity (negative : bool).

#[export] Instance number_eq_dec : EqDecision number.
Proof. solve_decision. Defined.

(** *** Rounding *)

(** [N / D] rounded to the nearest integer, ties to the even one. *)
Definition half_even (N D : Z) : Z :=
  let q := N / D in
  let r := N mod D in
  if (D <? 2 * r) || ((2 * r =? D) && Z.odd q) then q + 1 else q.

Fixpoint trailing_zeros (p : positive) : Z :=
  match p with
  | xO p' => 1 + trailing_zeros p'
  | _ => 0
  end.

(** The number [sg * q * 2^e], for [0 ≤ q]. *)
Definition dyadic (sg q e : Z) : number :=
  if 0 <=? e then Num (sg * q * 2 ^ e)
  else
    match q with
    | Zpos p =>
        let t := Z.min (- e) (trailing_zeros p) in
        if e + t =? 0 then Num (sg * (q / 2 ^ t))
        else Frac (sg * (q / 2 ^ t)) (Z.to_pos (- (e + t)))
    | _ => Num 0
    end.

(** The integer part of the binary logarithm of [a / d], for positive [a]
    and [d]. *)
Definition log2_ratio (a d : Z) : Z :=
  let l := Z.log2 a - Z.log2 d in
  if 0 <=? l then (if d * 2 ^ l <=? a then l else l - 1)
  else (if d <=? a * 2 ^ (- l) then l else l - 1).

(** The double nearest to [n / d], for a positive [d]: 53 significant
    bits, no exponent below -1074, and an infinity from 2^1024 on. *)
Definition round_ratio (n d : Z) : number :=
  let a := Z.abs n in
  if a =? 0 then Num 0
  else
    let e := Z.max (log2_ratio a d - 52) (-1074) in
    let q := if 0 <=? e then half_even a (d * 2 ^ e)
             else half_even (a * 2 ^ (- e)) d in
    if 2 ^ 1024 <=? q * 2 ^ e then Infinity (n <? 0)
    else dyadic (Z.sgn n) q e.

(** The double nearest to an integer; an integer up to 2^53 in magnitude
    is a double. *)
Definition to_double (z : Z) : number :=
  if Z.abs z <=? 2 ^ 53 then Num z else round_ratio z 1.

(** [c * 10^p] as a double. *)
Definition scaled (c p : Z) : number :=
  if 0 <=? p then round_ratio (c * 10 ^ p) 1 else round_ratio c (10 ^ (- p)).

(** A finite number as a ratio of integers. *)
Definition ratio_of (n : number) : Z * Z :=
  match n with
  | Num z => (z, 1)
  | Frac m e => (m, 2 ^ Zpos e)
  | _ => (0, 1)
  end.

Definition is_zero (n : number) : bool :=
  match n with Num 0 => true | _ => false end.

Definition negative_number (n : number) : bool :=
  match n with
  | Num z => z <? 0
  | Frac m _ => m <? 0
  | Infinity s => s
  | NaN => false
  end.

(** [a - b] and [a * b] on numbers. *)
Definition num_sub (a b : number) : number :=
  match a, b with
  | NaN, _ | _, NaN => NaN
  | Infinity s, Infinity t => if Bool.eqb s t then NaN else Infinity s
  | Infinity s, _ => Infinity s
  | _, Infinity t => Infinity (negb t)
  | Num x, Num y => to_double (x - y)
  | _, _ =>
      let '(n1, d1) := ratio_of a in
      let '(n2, d2) := ratio_of b in
      round_ratio (n1 * d2 - n2 * d1) (d1 * d2)
  end.

Definition num_mul (a b : number) : number :=
  match a, b with
  | NaN, _ | _, NaN => NaN
  | Infinity _, _ | _, Infinity _ =>
      if is_zero a || is_zero b then NaN
      else Infinity (xorb (negative_number a) (negative_number b))
  | Num x, Num y => to_double (x * y)
  | _, _ =>
      let '(n1, d1) := ratio_of a in
      let '(n2, d2) := ratio_of b in
      round_ratio (n1 * n2) (d1 * d2)
  end.

(** *** Numbers as text *)

(** The decimal digits of a natural number, the last one first. *)
Fixpoint digits_le (fuel : nat) (n : Z) : list Z :=
  match fuel with
  | O => []
  | S f => n mod 10 :: (if n <? 10 then [] else digits_le f (n / 10))
  end.

Definition digit_char (d : Z) : ascii := Ascii.ascii_of_nat (Z.to_nat (48 + d)).

(** The decimal digits of a natural number, as text. *)
Definition decimal (n : Z) : list ascii :=
  digit_char <$> reverse (digits_le (S (Z.to_nat (Z.log2 n))) n).

(** [a / d] is at least [10^e]. *)
Definition reaches (a d e : Z) : bool :=
  if 0 <=? e then d * 10 ^ e <=? a else d <=? a * 10 ^ (- e).

(** The integer part of the decimal logarithm of [a / d], for positive
    [a] and [d]. *)
Definition log10_ratio (a d : Z) : Z :=
  let g := (Z.log2 a - Z.log2 d) * 1233 / 4096 in
  if reaches a d (g + 1) then g + 1
  else if reaches a d g then g
  else g - 1.

(** The shortest decimal that reads back as the positive double [v], which
    is [a / d] and lies between [10^E] and [10^(E+1)]: it is looked for
    with [k] digits, then with more; the answer [(s, p)] stands for
    [s * 10^p].  Of two decimals of the same length the one nearer to [v]
    is taken, the even one when they are as near. *)
Fixpoint shortest_from (fuel : nat) (v : number) (a d E k : Z) : Z * Z :=
  match fuel with
  | O => (0, 0)
  | S f =>
      let p := E - k + 1 in
      let N := if 0 <=? p then a else a * 10 ^ (- p) in
      let D := if 0 <=? p then d * 10 ^ p else d in
      let lo := N / D in
      let r := N mod D in
      let lo_ok := bool_decide (scaled lo p = v) in
      let hi_ok := bool_decide (scaled (lo + 1) p = v) in
      let nearer_lo := (2 * r <? D) || ((2 * r =? D) && Z.even lo) in
      if lo_ok && (nearer_lo || negb hi_ok) then (lo, p)
      else if hi_ok then (lo + 1, p)
      else shortest_from f v a d E (k + 1)
  end.

Fixpoint strip_zeros (fuel : nat) (s p : Z) : Z * Z :=
  match fuel with
  | O => (s, p)
  | S f => if (s mod 10 =? 0) && (0 <? s) then strip_zeros f (s / 10) (p + 1)
           else (s, p)
  end.

(** The digits [s] and the decimal exponent [n] of a positive double:
    [0.s * 10^n] is the shortest decimal that reads back as it. *)
Definition shortest (v : number) : list ascii * Z :=
  let '(a, d) := ratio_of v in
  let '(s, p) := shortest_from 17 v a d (log10_ratio a d) 1 in
  let '(s, p) := strip_zeros 17 s p in
  (decimal s, Z.of_nat (length (decimal s)) + p).

Definition zeros (n : Z) : list ascii := replicate (Z.to_nat n) "0"%char.

(** [Number::toString] on a positive double, from its digits. *)
Definition notation (ds : list ascii) (n : Z) : list ascii :=
  let k := Z.of_nat (length ds) in
  if (k <=? n) && (n <=? 21) then ds ++ zeros (n - k)
  else if (0 <? n) && (n <=? 21) then
    take (Z.to_nat n) ds ++ "."%char :: drop (Z.to_nat n) ds
  else if (-6 <? n) && (n <=? 0) then
    "0"%char :: "."%char :: zeros (- n) ++ ds
  else
    let e := (if n - 1 <? 0 then "-"%char else "+"%char)
             :: decimal (Z.abs (n - 1)) in
    match ds with
    | [c] => c :: "e"%char :: e
    | c :: ds' => c :: "."%char :: ds' ++ "e"%char :: e
    | [] => []
    end.

(** [String(n)]: an integer below 2^53 in magnitude prints as its digits,
    any other finite number as the shortest decimal that reads back as it,
    in positional notation from 10^-6 to 10^21 and with an exponent
    elsewhere. *)
Definition number_to_string (n : number) : string :=
  match n with
  | NaN => "NaN"
  | Infinity s => if s then "-Infinity" else "Infinity"
  | Num z =>
      String.string_of_list_ascii
        ((if z <? 0 then ["-"%char] else []) ++
         (if Z.abs z <? 2 ^ 53 then decimal (Z.abs z)
          else let '(ds, e) := shortest (Num (Z.abs z)) in notation ds e))
  | Frac m e =>
      String.string_of_list_ascii
        ((if m <? 0 then ["-"%char] else []) ++
         let '(ds, e) := shortest (Frac (Z.abs m) e) in notation ds e)
  end.

(** *** Text as numbers *)

(** A text is the sequence of the bytes of its UTF-8 encoding. *)
Definition byte (c : ascii) : Z := Z.of_nat (Ascii.nat_of_ascii c).

(** The number of bytes of the white space character a text starts with,
    0 when it starts with none.  White space is what the language strips
    from a text it reads as a number: tab, line feed, vertical tab, form
    feed, carriage return, space, and beyond ASCII U+00A0, U+1680, U+2000
    to U+200A, U+2028, U+2029, U+202F, U+205F, U+3000 and U+FEFF. *)
Definition space_width (l : list ascii) : nat :=
  match l with
  | [] => 0%nat
  | c1 :: l1 =>
      let b1 := byte c1 in
      if ((9 <=? b1) && (b1 <=? 13)) || (b1 =? 32) then 1%nat
      else
        match l1 with
        | [] => 0%nat
        | c2 :: l2 =>
            let b2 := byte c2 in
            if (b1 =? 194) && (b2 =? 160) then 2%nat
            else
              match l2 with
              | [] => 0%nat
              | c3 :: _ =>
                  let b3 := byte c3 in
                  if (b1 =? 225) && (b2 =? 154) && (b3 =? 128) then 3%nat
                  else if (b1 =? 226) && (b2 =? 128)
                          && (((128 <=? b3) && (b3 <=? 138))
                              || (b3 =? 168) || (b3 =? 169) || (b3 =? 175))
                  then 3%nat
                  else if (b1 =? 226) && (b2 =? 129) && (b3 =? 159) then 3%nat
                  else if (b1 =? 227) && (b2 =? 128) && (b3 =? 128) then 3%nat
                  else if (b1 =? 239) && (b2 =? 187) && (b3 =? 191) then 3%nat
                  else 0%nat
              end
        end
  end.

Fixpoint skip_spaces_on (fuel : nat) (l : list ascii) : list ascii :=
  match fuel with
  | O => l
  | S f =>
      match space_width l with
      | O => l
      | w => skip_spaces_on f (drop w l)
      end
  end.

(** The text without the white space it starts with. *)
Definition skip_spaces (l : list ascii) : list ascii :=
  skip_spaces_on (length l) l.

(** The text without the white space it ends with. *)
Fixpoint trim_end (l : list ascii) : list ascii :=
  match l with
  | [] => []
  | c :: l' =>
      if bool_decide (skip_spaces l = []) then [] else c :: trim_end l'
  end.

Definition trim (l : list ascii) : list ascii := trim_end (skip_spaces l).

Definition digit (c : ascii) : option Z :=
  let n := byte c in
  if (48 <=? n) && (n <=? 57) then Some (n - 48) else None.

Definition hex_digit (c : ascii) : option Z :=
  let n := byte c in
  if (48 <=? n) && (n <=? 57) then Some (n - 48)
  else if (97 <=? n) && (n <=? 102) then Some (n - 87)
  else if (65 <=? n) && (n <=? 70) then Some (n - 55)
  else None.

(** The longest prefix of digits of [l] (in the given radix), read as a
    number after the digits [acc] already seen; [None] when [l] does not
    start with a digit. *)
Fixpoint read_digits (dig : ascii → option Z) (radix : Z) (acc : option Z)
    (l : list ascii) : option Z * list ascii :=
  match l with
  | c :: l' =>
      match dig c with
      | Some d => read_digits dig radix (Some (default 0 acc * radix + d)) l'
      | None => (acc, l)
      end
  | [] => (acc, [])
  end.

Definition split_sign (l : list ascii) : Z * list ascii :=
  match l with
  | "-"%char :: l' => (-1, l')
  | "+"%char :: l' => (1, l')
  | _ => (1, l)
  end.

(** All of [l] read as digits below [radix]; [None] when [l] is empty or
    holds something else. *)
Definition read_all (dig : ascii → option Z) (radix : Z) (l : list ascii)
    : option Z :=
  match read_digits (λ c, d ← dig c; if d <? radix then Some d else None)
          radix None l with
  | (Some z, []) => Some z
  | _ => None
  end.

(** The value of a radix literal: [0x], [0o] or [0b] and digits. *)
Definition radix_value (l : list ascii) : option Z :=
  match l with
  | "0"%char :: x :: l2 =>
      if bool_decide (x = "x"%char ∨ x = "X"%char) then read_all hex_digit 16 l2
      else if bool_decide (x = "o"%char ∨ x = "O"%char) then read_all digit 8 l2
      else if bool_decide (x = "b"%char ∨ x = "B"%char) then read_all digit 2 l2
      else None
  | _ => None
  end.

(** *** The texts that denote a number

    [StringNumericLiteral]: white space around nothing, around a radix
    literal ([0x], [0o], [0b] and digits), or around a signed decimal
    literal ([Infinity], or digits with an optional fraction and an optional
    exponent). *)

Definition is_digit (c : ascii) : bool := bool_decide (is_Some (digit c)).

Fixpoint skip_digits (l : list ascii) : list ascii :=
  match l with
  | c :: l' => if is_digit c then skip_digits l' else l
  | [] => []
  end.

(** [l] starts with a digit. *)
Definition some_digits (l : list ascii) : bool :=
  match l with
  | c :: _ => is_digit c
  | [] => false
  end.

(** Nothing, or an exponent: [e] or [E], a sign if any, digits. *)
Definition exponent_or_end (l : list ascii) : bool :=
  match l with
  | [] => true
  | c :: l1 =>
      bool_decide (c = "e"%char ∨ c = "E"%char)
      && some_digits (split_sign l1).2
      && bool_decide (skip_digits (split_sign l1).2 = [])
  end.

Definition radix_literal (l : list ascii) : bool :=
  bool_decide (is_Some (radix_value l)).

Definition decimal_literal (l : list ascii) : bool :=
  let l1 := (split_sign l).2 in
  if bool_decide (l1 = String.list_ascii_of_string "Infinity") then true
  else
    match skip_digits l1 with
    | "."%char :: l2 =>
        (some_digits l1 || some_digits l2) && exponent_or_end (skip_digits l2)
    | l2 => some_digits l1 && exponent_or_end l2
    end.

Definition is_numeric_literal (s : string) : bool :=
  match trim (String.list_ascii_of_string s) with
  | [] => true
  | l => radix_literal l || decimal_literal l
  end.

(** The exponent a decimal literal ends with, 0 when it ends with none. *)
Definition exponent_value (l : list ascii) : Z :=
  match l with
  | _ :: l1 =>
      let '(sg, l2) := split_sign l1 in
      sg * default 0 (read_digits digit 10 None l2).1
  | [] => 0
  end.

(** The value of a decimal literal: its digits, before and after the
    point, make an integer [m], and the literal stands for
    [m * 10^(x - f)], where [x] is its exponent and [f] the number of
    digits after the point. *)
Definition decimal_value (l : list ascii) : number :=
  let '(sg, l1) := split_sign l in
  if bool_decide (l1 = String.list_ascii_of_string "Infinity")
  then Infinity (sg <? 0)
  else
    let '(i, l2) := read_digits digit 10 None l1 in
    let '(m, l3) :=
      match l2 with
      | "."%char :: l2' => read_digits digit 10 i l2'
      | _ => (i, l2)
      end in
    let f :=
      match l2 with
      | "."%char :: l2' => Z.of_nat (length l2') - Z.of_nat (length l3)
      | _ => 0
      end in
    scaled (sg * default 0 m) (exponent_value l3 - f).

(** [Number(s)] on a string: surrounding white space is dropped; the empty
    string is 0, a radix literal is its integer, a decimal literal its
    value, each rounded to the nearest double; every other text is NaN. *)
Definition StringToNumber (s : string) : number :=
  match trim (String.list_ascii_of_string s) with
  | [] => Num 0
  | l =>
      match radix_value l with
      | Some z => to_double z
      | None => if decimal_literal l then decimal_value l else NaN
      end
  end.

(** What follows the prefix [0x] or [0X], if the text starts with it. *)
Definition hex_prefix (l : list ascii) : option (list ascii) :=
  match l with
  | "0"%char :: x :: l2 =>
      if bool_decide (x = "x"%char ∨ x = "X"%char) then Some l2 else None
  | _ => None
  end.

(** [parseInt(s)] on a string: leading white space and a sign are dropped,
    then the longest run of digits is read (hexadecimal after [0x]) and
    rounded to the nearest double; [NaN] when there is no digit. *)
Definition parseInt_string (s : string) : number :=
  let '(sg, l1) := split_sign (skip_spaces (String.list_ascii_of_string s)) in
  match hex_prefix l1 with
  | Some l2 =>
      match read_digits hex_digit 16 None l2 with
      | (Some z, _) => to_double (sg * z)
      | _ => NaN
      end
  | None =>
      match read_digits digit 10 None l1 with
      | (Some z, _) => to_double (sg * z)
      | _ => NaN
      end
  end.

(* ===================================================================== *)
(** ** JavaScript values *)
(* ===================================================================== *)

(** Objects are finite maps from property names to values.  [VDate] is the
    [Date] object the persistence client returns for a timestamp column,
    as milliseconds since the epoch. *)
Inductive value :=
| VUndefined
| VNull
| VBool (b : bool)
| VNum (n : number)
| VStr (s : string)
| VDate (t : Z)
| VArr (l : list value)
| VObj (o : gmap string value).

Abbreviation obj := (gmap string value).

(** [o.k] and [o[k]]: a missing property reads as [undefined]. *)
Definition get (o : obj) (k : string) : value := default VUndefined (o !! k).

(** Destructuring with a default, [const { k = d } = o]: the default applies
    exactly when the property is [undefined]. *)
Definition get_default (o : obj) (k : string) (d : value) : value :=
  match get o k with VUndefined => d | v => v end.

(** The object literal [{ k1: v1, ... }]. *)
Definition object (kvs : list (string * value)) : obj :=
  foldl (λ o kv, <[kv.1 := kv.2]> o) ∅ kvs.

(** Own enumerable properties copied by the spread [...v] in an object
    literal: those of an object, the indices of an array, nothing for the
    other values. *)
Definition spread (v : value) : obj :=
  match v with
  | VObj o => o
  | VArr l => list_to_map (imap (λ i x, (pretty i, x)) l)
  | _ => ∅
  end.

(** [v[k]] on an arbitrary value, for its own enumerable properties. *)
Definition prop (v : value) (k : string) : value := get (spread v) k.

Definition truthy (v : value) : bool :=
  match v with
  | VUndefined | VNull => false
  | VBool b => b
  | VNum NaN => false
  | VNum (Num z) => negb (z =? 0)
  | VNum (Frac _ _) | VNum (Infinity _) => true
  | VStr s => negb (String.eqb s "")
  | VDate _ | VArr _ | VObj _ => true
  end.

(** [a || b] *)
Definition or_else (a b : value) : value := if truthy a then a else b.

(** [v === "s"] for a string literal [s]. *)
Definition is_str (v : value) (s : string) : bool :=
  match v with VStr s' => String.eqb s' s | _ => false end.

Definition join (sep : string) (l : list string) : string :=
  match l with
  | [] => ""
  | s :: l' => foldl (λ acc x, acc +:+ sep +:+ x) s l'
  end.

(** [String(v)].  An array prints its elements separated by commas, with
    [null] and [undefined] elements printed as the empty string.  A [Date]
    prints as text starting with a weekday name; only that this text is
    not numeric matters below. *)
Fixpoint ToString (v : value) : string :=
  match v with
  | VUndefined => "undefined"
  | VNull => "null"
  | VBool true => "true"
  | VBool false => "false"
  | VNum n => number_to_string n
  | VStr s => s
  | VDate _ => "Date"
  | VArr l =>
      join "," (map (λ x, match x with
                          | VUndefined | VNull => ""
                          | _ => ToString x
                          end) l)
  | VObj _ => "[object Object]"
  end.

(** [Number(v)] *)
Definition Number_ (v : value) : number :=
  match v with
  | VUndefined => NaN
  | VNull => Num 0
  | VBool true => Num 1
  | VBool false => Num 0
  | VNum n => n
  | VStr s => StringToNumber s
  | VDate t => Num t
  | VArr _ => StringToNumber (ToString v)
  | VObj _ => NaN
  end.

(** [parseInt(v)]: the argument is turned into a string, and the string is
    parsed. *)
Definition parseInt (v : value) : number := parseInt_string (ToString v).

Definition as_number (v : value) : number :=
  match v with VNum n => n | _ => Number_ v end.

(* ===================================================================== *)
(** ** Exceptions, responses, the world *)
(* ===================================================================== *)

(** The values this program can see thrown: superstruct's [StructError],
    the two error classes of the Prisma client the wrapper tests with
    [instanceof], and any other [Error] with its [name] (a
    [ReferenceError], a [TypeError], ...). *)
Inductive exn :=
| StructError (message : string)
| PrismaClientValidationError (message : string)
| PrismaClientKnownRequestError (code : string) (message : string)
| Error (name : string) (message : string).

(** [e.name] *)
Definition name (e : exn) : string :=
  match e with
  | StructError _ => "StructError"
  | PrismaClientValidationError _ => "PrismaClientValidationError"
  | PrismaClientKnownRequestError _ _ => "PrismaClientKnownRequestError"
  | Error n _ => n
  end.

(** [e.message] *)
Definition message (e : exn) : string :=
  match e with
  | StructError m | PrismaClientValidationError m
  | PrismaClientKnownRequestError _ m | Error _ m => m
  end.

(** [e.code] *)
Definition code (e : exn) : value :=
  match e with
  | PrismaClientKnownRequestError c _ => VStr c
  | _ => VUndefined
  end.

(** [e instanceof Prisma.PrismaClientValidationError] and
    [e instanceof Prisma.PrismaClientKnownRequestError] *)
Definition instanceof_PrismaClientValidationError (e : exn) : bool :=
  match e with PrismaClientValidationError _ => true | _ => false end.

Definition instanceof_PrismaClientKnownRequestError (e : exn) : bool :=
  match e with PrismaClientKnownRequestError _ _ => true | _ => false end.

(** What a handler hands to the response object: [res.sendStatus(c)]
    supplies a status, [res.status(c).send(b)] a status and the payload
    [b] ([res.send(b)] is the case [c = 200]). *)
Inductive reply :=
| SendStatus (status : Z)
| StatusSend (status : Z) (payload : value).

Definition status_of (r : reply) : Z :=
  match r with SendStatus c | StatusSend c _ => c end.

(** What goes out as the body of a response: nothing, the payload the
    handler gave, or the reason phrase of the status. *)
Inductive sent_body :=
| NoBody
| Payload (v : value)
| ReasonPhrase (c : Z).

(** The body of a reply.  [res.status(c).send(b)] sends [b];
    [res.sendStatus(c)] sends the reason phrase of the status as text,
    which is "Not Found" for 404 (the phrases of the other statuses are
    not tabulated here); a response with status 204 or 304 goes out
    without a body, whatever was given to it. *)
Definition body_of (r : reply) : sent_body :=
  if (status_of r =? 204) || (status_of r =? 304) then NoBody
  else
    match r with
    | SendStatus c =>
        if c =? 404 then Payload (VStr "Not Found") else ReasonPhrase c
    | StatusSend _ b => Payload b
    end.

(** The four models of the store. *)
Inductive model := Article | Product | Comment | ProductComment.

#[export] Instance model_eq_dec : EqDecision model.
Proof. solve_decision. Defined.

Inductive operation :=
| Create | FindUnique | FindUniqueOrThrow | FindMany | Count | Update | Delete.

(** What can be observed of a request: the calls made on the persistence
    client, with their argument, and the responses sent, in order. *)
Inductive event :=
| Query (m : model) (op : operation) (args : value)
| Response (r : reply).

(** A table is a sequence of slots in insertion order; a deleted row leaves
    its slot empty, so a slot number identifies one record for ever. *)
Abbreviation table := (list (option obj)).

Record DB := mkDB {
  articles : table;
  products : table;
  comments : table;
  productComments : table;
  product_seq : Z               (* the sequence behind Product.id *)
}.

Definition rows_of (m : model) (d : DB) : table :=
  match m with
  | Article => articles d
  | Product => products d
  | Comment => comments d
  | ProductComment => productComments d
  end.

Definition with_rows (m : model) (t : table) (d : DB) : DB :=
  match m with
  | Article => mkDB t (products d) (comments d) (productComments d) (product_seq d)
  | Product => mkDB (articles d) t (comments d) (productComments d) (product_seq d)
  | Comment => mkDB (articles d) (products d) t (productComments d) (product_seq d)
  | ProductComment => mkDB (articles d) (products d) (comments d) t (product_seq d)
  end.

(** The state a request runs in: the store, the trace so far, and what the
    environment supplies while the request is served (the time [now()]
    reads and the identifier [uuid()] draws). *)
Record world := mkWorld {
  db : DB;
  trace : list event;
  now : Z;
  uuid : string
}.

Inductive outcome (A : Type) :=
| Returns (a : A)
| Throws (e : exn).
Arguments Returns {A} a.
Arguments Throws {A} e.

(** Computations that read and write the world and may throw. *)
Definition M (A : Type) : Type := world → outcome A * world.

#[export] Instance M_ret : MRet M := λ A a w, (Returns a, w).

#[export] Instance M_bind : MBind M := λ A B f m w,
  match m w with
  | (Returns a, w') => f a w'
  | (Throws e, w') => (Throws e, w')
  end.

Definition throw {A} (e : exn) : M A := λ w, (Throws e, w).

Definition emit (ev : event) : M unit := λ w,
  (Returns tt, mkWorld (db w) (trace w ++ [ev]) (now w) (uuid w)).

(** [try { c } catch (e) { h(e) }] *)
Definition try_catch {A} (c : M A) (h : exn → M A) : M A := λ w,
  match c w with
  | (Returns a, w') => (Returns a, w')
  | (Throws e, w') => h e w'
  end.

(** The responses of a trace, and its persistence calls. *)
Definition responses (tr : list event) : list reply :=
  omap (λ ev, match ev with Response r => Some r | _ => None end) tr.

Definition queries (tr : list event) : list (model * operation * value) :=
  omap (λ ev, match ev with Query m op a => Some (m, op, a) | _ => None end) tr.

(** *** The response object *)

Module res.
Definition send (b : value) : M unit := emit (Response (StatusSend 200 b)).
Definition status_send (c : Z) (b : value) : M unit :=
  emit (Response (StatusSend c b)).
Definition sendStatus (c : Z) : M unit := emit (Response (SendStatus c)).
End res.

(* ===================================================================== *)
(** ** The persistence client *)
(* ===================================================================== *)

(** An executable model of the part of the Prisma client this program
    uses: [create], [findUnique], [findUniqueOrThrow], [findMany], [count],
    [update] and [delete] on four models.  Every operation first checks
    its argument against the data model and refuses it with a
    [PrismaClientValidationError] before it touches the store; a record
    that is not there is [null] for [findUnique] and the failure P2025 for
    [findUniqueOrThrow], [update] and [delete]; a second record with an id
    in use is the failure P2002.  Relations between the tables are not
    followed, and the width of an integer column is not modelled: what is
    stated below about an id that a request gives is stated for the
    integers of 32 bits. *)

Inductive ftype := TString | TInt | TDateTime | TStringList.

Inductive fdefault :=
| NoDefault
| Autoincrement
| Uuid
| Now
| Const (v : value).

Record field := mkField { fname : string; ftyp : ftype; fdef : fdefault }.

(** Modelled from the spec: the data model file (prisma/schema.prisma) is
    not among the sources.  The columns are those of the specification's
    data model: an Article has id, title, content and createdAt; a Product
    has a numeric id, name, description, price, tags, favoriteCount
    (0 unless given) and createdAt; a Comment and a ProductComment have id,
    content, createdAt and the key of their owner.  Identifiers and
    createdAt are filled in by the store when the caller gives none. *)
Definition schema (m : model) : list field :=
  match m with
  | Article =>
      [ mkField "id" TString Uuid;
        mkField "title" TString NoDefault;
        mkField "content" TString NoDefault;
        mkField "createdAt" TDateTime Now ]
  | Product =>
      [ mkField "id" TInt Autoincrement;
        mkField "name" TString NoDefault;
        mkField "description" TString NoDefault;
        mkField "price" TInt NoDefault;
        mkField "tags" TStringList NoDefault;
        mkField "favoriteCount" TInt (Const (VNum (Num 0)));
        mkField "createdAt" TDateTime Now ]
  | Comment =>
      [ mkField "id" TString Uuid;
        mkField "content" TString NoDefault;
        mkField "createdAt" TDateTime Now;
        mkField "articleId" TString NoDefault ]
  | ProductComment =>
      [ mkField "id" TString Uuid;
        mkField "content" TString NoDefault;
        mkField "createdAt" TDateTime Now;
        mkField "productId" TInt NoDefault ]
  end.

Definition field_of (m : model) (k : string) : option field :=
  List.find (λ f, String.eqb (fname f) k) (schema m).

Definition is_undefined (v : value) : bool :=
  match v with VUndefined => true | _ => false end.

Definition is_text (v : value) : bool :=
  match v with VStr _ => true | _ => false end.

(** The client reads a property that is [undefined] as a property that is
    not there. *)
Definition defined (o : obj) : obj :=
  filter (λ kv, is_undefined kv.2 = false) o.

(** [kw] is a prefix of [s]; [kw] occurs in [s]. *)
Fixpoint starts_with (kw s : string) : bool :=
  match kw, s with
  | EmptyString, _ => true
  | String a kw', String b s' => Ascii.eqb a b && starts_with kw' s'
  | String _ _, EmptyString => false
  end.

(** Modelled from the spec: the datasource declaration is not among the
    sources; the [contains] filter is case-sensitive substring containment,
    as the specification states it. *)
Fixpoint contains (kw s : string) : bool :=
  starts_with kw s ||
  match s with
  | EmptyString => false
  | String _ s' => contains kw s'
  end.

Definition same_id (a b : value) : bool :=
  match a, b with
  | VStr x, VStr y => String.eqb x y
  | VNum (Num x), VNum (Num y) => x =? y
  | _, _ => false
  end.

Definition has_id (idv : value) (s : option obj) : bool :=
  match s with
  | Some r => same_id (get r "id") idv
  | None => false
  end.

(** The slot of the live row with this id. *)
Definition find_id (t : table) (idv : value) : option (nat * option obj) :=
  list_find (λ s, has_id idv s = true) t.

(** The live rows of a table, oldest slot first. *)
Definition live (t : table) : list obj := omap (λ s, s) t.

Inductive direction := Asc | Desc.

Definition sort_key (v : value) : Z :=
  match v with
  | VNum (Num z) => z
  | VDate t => t
  | _ => 0
  end.

(** [r1] may come before [r2] when sorting on column [k] in direction [d]. *)
Definition ordered (k : string) (d : direction) (r1 r2 : obj) : Prop :=
  match d with
  | Asc => sort_key (get r1 k) ≤ sort_key (get r2 k)
  | Desc => sort_key (get r2 k) ≤ sort_key (get r1 k)
  end.

#[export] Instance ordered_dec k d r1 r2 : Decision (ordered k d r1 r2).
Proof. destruct d; simpl; apply _. Defined.

Definition opposite (d : direction) : direction :=
  match d with Asc => Desc | Desc => Asc end.

(** The records from the cursor on; nothing when no record has the
    cursor's id.  The store pages from the cursor by the value of the
    column the records are ordered on: it keeps the records that the order
    does not put before the cursor's record, those that tie with it
    included.  Without an order, the records from the cursor's on are
    kept. *)
Definition from_cursor (o : option (string * direction)) (c : option value)
    (l : list obj) : list obj :=
  match c with
  | None => l
  | Some idv =>
      match list_find (λ r, same_id (get r "id") idv = true) l, o with
      | Some (_, rc), Some (k, d) => filter (λ r, ordered k d rc r) l
      | Some (i, _), None => drop i l
      | None, _ => []
      end
  end.

(** [cursor], [skip] and [take] applied to the sorted records; a negative
    [take] counts from the other end of the list. *)
Definition window (o : option (string * direction)) (c : option value)
    (sk : Z) (tk : option Z) (l : list obj) : list obj :=
  match tk with
  | None => drop (Z.to_nat sk) (from_cursor o c l)
  | Some n =>
      if 0 <=? n
      then take (Z.to_nat n) (drop (Z.to_nat sk) (from_cursor o c l))
      else reverse (take (Z.to_nat (- n))
                      (drop (Z.to_nat sk)
                         (from_cursor
                            ((λ kd, (kd.1, opposite kd.2)) <$> o) c
                            (reverse l))))
  end.

(** *** Filters: [{ column: { contains: kw } }], joined by [OR: [...]] *)

Definition valid_field_cond (m : model) (k : string) (c : value) : bool :=
  match field_of m k, c with
  | Some f, VObj fo =>
      match ftyp f, map_to_list (defined fo) with
      | TString, [(op, VStr _)] => String.eqb op "contains"
      | _, _ => false
      end
  | _, _ => false
  end.

Definition eval_field_cond (row : obj) (k : string) (c : value) : bool :=
  match get row k, prop c "contains" with
  | VStr s, VStr kw => contains kw s
  | _, _ => false
  end.

Definition valid_conds (m : model) (c : value) : bool :=
  match c with
  | VObj o =>
      forallb (λ kv, valid_field_cond m kv.1 kv.2) (map_to_list (defined o))
  | _ => false
  end.

Definition eval_conds (row : obj) (c : value) : bool :=
  match c with
  | VObj o =>
      forallb (λ kv, eval_field_cond row kv.1 kv.2) (map_to_list (defined o))
  | _ => false
  end.

Definition valid_where (m : model) (w : value) : bool :=
  match w with
  | VUndefined => true
  | VObj o =>
      forallb (λ kv,
                 if String.eqb kv.1 "OR" then
                   match kv.2 with
                   | VArr l => forallb (valid_conds m) l
                   | _ => false
                   end
                 else valid_field_cond m kv.1 kv.2)
              (map_to_list (defined o))
  | _ => false
  end.

Definition eval_where (w : value) (row : obj) : bool :=
  match w with
  | VObj o =>
      forallb (λ kv,
                 if String.eqb kv.1 "OR" then
                   match kv.2 with
                   | VArr l => existsb (eval_conds row) l
                   | _ => false
                   end
                 else eval_field_cond row kv.1 kv.2)
              (map_to_list (defined o))
  | _ => true
  end.

(** *** Arguments *)

(** The argument of a query is an object whose properties are among the
    ones the operation knows (a property that is [undefined] does not
    count). *)
Definition args_of (allowed : list string) (args : value) : option obj :=
  match args with
  | VObj a =>
      if forallb (λ kv, bool_decide (kv.1 ∈ allowed) || is_undefined kv.2)
                 (map_to_list a)
      then Some a else None
  | _ => None
  end.

(** [orderBy: { column: "asc" | "desc" }] on a numeric or a timestamp
    column, the only orders this program asks for. *)
Definition order_of (m : model) (v : value)
    : option (option (string * direction)) :=
  match v with
  | VUndefined => Some None
  | VObj o =>
      match map_to_list (defined o) with
      | [(k, VStr d)] =>
          match ftyp <$> field_of m k with
          | Some TInt | Some TDateTime =>
              if String.eqb d "desc" then Some (Some (k, Desc))
              else if String.eqb d "asc" then Some (Some (k, Asc))
              else None
          | _ => None
          end
      | _ => None
      end
  | _ => None
  end.

(** The integers of 64 bits. *)
Definition int64 (n : Z) : bool := (- 2 ^ 63 <=? n) && (n <? 2 ^ 63).

(** [skip] is an integer of 64 bits from 0 on, [take] an integer of 64
    bits (a negative one counts from the end); anything else (a fraction,
    an infinity, NaN, an integer beyond 64 bits, what is no number) is
    refused. *)
Definition skip_of (v : value) : option Z :=
  match v with
  | VUndefined => Some 0
  | VNum (Num n) => if (0 <=? n) && int64 n then Some n else None
  | _ => None
  end.

Definition take_of (v : value) : option (option Z) :=
  match v with
  | VUndefined => Some None
  | VNum (Num n) => if int64 n then Some (Some n) else None
  | _ => None
  end.

Definition is_true (v : value) : bool :=
  match v with VBool true => true | _ => false end.

Definition is_bool (v : value) : bool :=
  match v with VBool _ => true | _ => false end.

(** [select: { column: true, ... }] *)
Definition select_of (m : model) (v : value) : option (option obj) :=
  match v with
  | VUndefined => Some None
  | VObj o =>
      if forallb (λ kv, bool_decide (is_Some (field_of m kv.1)) && is_bool kv.2)
                 (map_to_list (defined o))
         && existsb (λ kv, is_true kv.2) (map_to_list o)
      then Some (Some o) else None
  | _ => None
  end.

Definition project (sel : option obj) (row : obj) : obj :=
  match sel with
  | None => row
  | Some so => filter (λ kv, is_true (get so kv.1) = true) row
  end.

(* ===================================================================== *)
(** ** Requests *)
(* ===================================================================== *)

(** What a handler reads of the request: the path parameters bound by the
    route, the parsed query string and the parsed JSON body. *)
Record request := mkReq { params : obj; query : obj; body : value }.

Inductive method := GET | POST | PATCH | DELETE.

Definition method_eqb (a b : method) : bool :=
  match a, b with
  | GET, GET | POST, POST | PATCH, PATCH | DELETE, DELETE => true
  | _, _ => false
  end.

(** An incoming HTTP request, with what the environment supplies while it
    is served. *)
Record http := mkHttp {
  h_method : method;
  h_path : list string;
  h_query : obj;
  h_body : value;
  h_now : Z;
  h_uuid : string
}.

(** A superstruct schema, seen through [assert]: [None] when the value
    conforms, the failure's message when it does not. *)
Definition Struct := value → option string.

(* ===================================================================== *)
(** ** Sample data *)
(* ===================================================================== *)

(** Concrete schemas, stores and requests on which the statements below are
    exercised. *)
Module Sample.

(** Modelled from the spec: structs.js is not among the sources.  A
    shape that requires the properties [required], allows the properties
    [allowed], all of them text, and nothing else: CreateArticle requires
    title and content, PatchArticle allows a subset of them,
    CreateComment requires content. *)
Definition shape (allowed required : list string) : Struct := λ v,
  match v with
  | VObj o =>
      if forallb (λ kv, bool_decide (kv.1 ∈ allowed) && is_text kv.2)
                 (map_to_list o)
         && forallb (λ k, bool_decide (is_Some (o !! k))) required
      then None
      else Some "Expected an object of the required shape"
  | _ => Some "Expected an object"
  end.

Definition CreateArticle : Struct := shape ["title"; "content"] ["title"; "content"].
Definition PatchArticle : Struct := shape ["title"; "content"] [].
Definition CreateComment : Struct := shape ["content"] ["content"].

(** A reader of timestamps that knows a single date. *)
Definition parseDate (s : string) : option Z :=
  if String.eqb s "1970-01-01T00:00:00.000Z" then Some 0 else None.

Definition empty_db : DB := mkDB [] [] [] [] 0.

Definition start : world := mkWorld empty_db [] 0 "".

Definition article (id title content : string) (t : Z) : obj :=
  object [("id", VStr id); ("title", VStr title);
          ("content", VStr content); ("createdAt", VDate t)].

Definition product (id : Z) (name description : string) (fav t : Z) : obj :=
  object [("id", VNum (Num id)); ("name", VStr name);
          ("description", VStr description); ("price", VNum (Num 100));
          ("tags", VArr []); ("favoriteCount", VNum (Num fav));
          ("createdAt", VDate t)].

Definition comment (id content owner : string) (t : Z) : obj :=
  object [("id", VStr id); ("content", VStr content);
          ("createdAt", VDate t); ("articleId", VStr owner)].

(** Two products; the older one is the more liked. *)
Definition shop : DB :=
  mkDB [] [Some (product 1 "lamp" "old" 9 10);
           Some (product 2 "desk" "new" 1 20)] [] [] 2.

(** Eleven articles, a1 the oldest. *)
Definition board : DB :=
  mkDB (imap (λ i n, Some (article ("a" +:+ pretty n) "t" "c" (Z.of_nat i)))
          (seq 1 11)) [] [] [] 0.

Definition request_to (v : method) (p : list string)
    (q : list (string * value)) (b : value) : http :=
  mkHttp v p (object q) b 100 "fresh".

End Sample.

Section App.

(** The reader of ISO-8601 timestamps the client applies to a string given
    for a timestamp column ([None]: the string is not a timestamp). *)
Variable parseDate : string → option Z.

(** A value given for a column of type [t], if it fits (scalar values and
    lists of strings; the update operators of the client are not used by
    this program). *)
Definition coerce (t : ftype) (v : value) : option value :=
  match t, v with
  | TString, VStr _ => Some v
  | TInt, VNum (Num _) => Some v
  | TDateTime, VDate _ => Some v
  | TDateTime, VStr s => VDate <$> parseDate s
  | TStringList, VArr l => if forallb is_text l then Some v else None
  | _, _ => None
  end.

Definition coerce_field (m : model) (k : string) (v : value) : option value :=
  f ← field_of m k; coerce (ftyp f) v.

(** The [data] of a create or an update, once every property is known to
    be a column given a value of its type. *)
Definition typed_data (m : model) (data : obj) : option obj :=
  let o := defined data in
  if forallb (λ kv, bool_decide (is_Some (coerce_field m kv.1 kv.2)))
             (map_to_list o)
  then Some (map_imap (coerce_field m) o)
  else None.

(** [where: { id: v }] *)
Definition where_id (m : model) (w : value) : option value :=
  match w with
  | VObj wo =>
      match map_to_list (defined wo) with
      | [(k, v)] => if String.eqb k "id" then coerce_field m "id" v else None
      | _ => None
      end
  | _ => None
  end.

Definition cursor_of (m : model) (v : value) : option (option value) :=
  match v with
  | VUndefined => Some None
  | _ => Some <$> where_id m v
  end.

Definition default_of (tnow : Z) (tuuid : string) (d : DB) (f : field)
    : option value :=
  match fdef f with
  | NoDefault => None
  | Autoincrement => Some (VNum (Num (product_seq d + 1)))
  | Uuid => Some (VStr tuuid)
  | Now => Some (VDate tnow)
  | Const v => Some v
  end.

Definition defaults (tnow : Z) (tuuid : string) (m : model) (d : DB) : obj :=
  list_to_map
    (omap (λ f, (λ v, (fname f, v)) <$> default_of tnow tuuid d f) (schema m)).

Definition complete (m : model) (row : obj) : bool :=
  forallb (λ f, bool_decide (is_Some (row !! fname f))) (schema m).

(** The sequence moves on when an id is drawn from it. *)
Definition bump (m : model) (typed : obj) (d : DB) : DB :=
  if existsb (λ f, match fdef f with
                   | Autoincrement => bool_decide (typed !! fname f = None)
                   | _ => false
                   end) (schema m)
  then mkDB (articles d) (products d) (comments d) (productComments d)
            (product_seq d + 1)
  else d.

Definition invalid (d : DB) : outcome value * DB :=
  (Throws (PrismaClientValidationError "Invalid invocation: argument validation failed"), d).

Definition not_found (d : DB) : outcome value * DB :=
  (Throws (PrismaClientKnownRequestError "P2025"
             "An operation failed because it depends on one or more records that were required but not found."), d).

Definition not_unique (d : DB) : outcome value * DB :=
  (Throws (PrismaClientKnownRequestError "P2002"
             "Unique constraint failed on the fields: (`id`)"), d).

Definition prisma_create (tnow : Z) (tuuid : string) (m : model)
    (args : value) (d : DB) : outcome value * DB :=
  match args_of ["data"; "select"] args with
  | Some a =>
      match get a "data", select_of m (get a "select") with
      | VObj data, Some sel =>
          match typed_data m data with
          | Some typed =>
              let row := typed ∪ defaults tnow tuuid m d in
              if complete m row then
                let d1 := bump m typed d in
                match find_id (rows_of m d) (get row "id") with
                | Some _ => not_unique d1
                | None =>
                    (Returns (VObj (project sel row)),
                     with_rows m (rows_of m d ++ [Some row]) d1)
                end
              else invalid d
          | None => invalid d
          end
      | _, _ => invalid d
      end
  | None => invalid d
  end.

(** [findUnique] (a missing record is [null]) and [findUniqueOrThrow]
    (a missing record is the failure P2025). *)
Definition prisma_findUnique (or_throw : bool) (m : model) (args : value)
    (d : DB) : outcome value * DB :=
  match args_of ["where"; "select"] args with
  | Some a =>
      match where_id m (get a "where"), select_of m (get a "select") with
      | Some idv, Some sel =>
          match find_id (rows_of m d) idv with
          | Some (_, Some row) => (Returns (VObj (project sel row)), d)
          | _ => if or_throw then not_found d else (Returns VNull, d)
          end
      | _, _ => invalid d
      end
  | None => invalid d
  end.

Definition taken_by_other (t : table) (i : nat) (idv : value) : bool :=
  bool_decide (is_Some (find_id (<[i := None]> t) idv)).

Definition prisma_update (m : model) (args : value) (d : DB)
    : outcome value * DB :=
  match args_of ["where"; "data"; "select"] args with
  | Some a =>
      match where_id m (get a "where"), get a "data",
            select_of m (get a "select") with
      | Some idv, VObj data, Some sel =>
          match typed_data m data with
          | Some typed =>
              match find_id (rows_of m d) idv with
              | Some (i, Some row) =>
                  let row' := typed ∪ row in
                  if taken_by_other (rows_of m d) i (get row' "id")
                  then not_unique d
                  else (Returns (VObj (project sel row')),
                        with_rows m (<[i := Some row']> (rows_of m d)) d)
              | _ => not_found d
              end
          | None => invalid d
          end
      | _, _, _ => invalid d
      end
  | None => invalid d
  end.

Definition prisma_delete (m : model) (args : value) (d : DB)
    : outcome value * DB :=
  match args_of ["where"; "select"] args with
  | Some a =>
      match where_id m (get a "where"), select_of m (get a "select") with
      | Some idv, Some sel =>
          match find_id (rows_of m d) idv with
          | Some (i, Some row) =>
              (Returns (VObj (project sel row)),
               with_rows m (<[i := None]> (rows_of m d)) d)
          | _ => not_found d
          end
      | _, _ => invalid d
      end
  | None => invalid d
  end.

(** The records a [findMany] sees after [where] and [orderBy]. *)
Definition sorted_by (o : option (string * direction)) (l : list obj)
    : list obj :=
  match o with
  | None => l
  | Some (k, dir) => merge_sort (ordered k dir) l
  end.

Definition matching (w : value) (t : table) : list obj :=
  filter (λ r, eval_where w r = true) (live t).

Definition prisma_findMany (m : model) (args : value) (d : DB)
    : outcome value * DB :=
  match args_of ["where"; "orderBy"; "skip"; "take"; "cursor"; "select"] args with
  | Some a =>
      match order_of m (get a "orderBy"), skip_of (get a "skip"),
            take_of (get a "take"), cursor_of m (get a "cursor"),
            select_of m (get a "select") with
      | Some o, Some sk, Some tk, Some c, Some sel =>
          if valid_where m (get a "where") then
            (Returns (VArr (VObj ∘ project sel <$>
               window o c sk tk
                 (sorted_by o (matching (get a "where") (rows_of m d))))), d)
          else invalid d
      | _, _, _, _, _ => invalid d
      end
  | None => invalid d
  end.

Definition prisma_count (m : model) (args : value) (d : DB)
    : outcome value * DB :=
  match args_of ["where"] args with
  | Some a =>
      if valid_where m (get a "where") then
        (Returns (VNum (Num (Z.of_nat
           (length (matching (get a "where") (rows_of m d)))))), d)
      else invalid d
  | None => invalid d
  end.

Definition prisma_run (tnow : Z) (tuuid : string) (m : model) (op : operation)
    (args : value) (d : DB) : outcome value * DB :=
  match op with
  | Create => prisma_create tnow tuuid m args d
  | FindUnique => prisma_findUnique false m args d
  | FindUniqueOrThrow => prisma_findUnique true m args d
  | FindMany => prisma_findMany m args d
  | Count => prisma_count m args d
  | Update => prisma_update m args d
  | Delete => prisma_delete m args d
  end.

(** [await prisma.<model>.<op>(args)]: the call is recorded, then run on the
    store. *)
Definition prisma (m : model) (op : operation) (args : value) : M value :=
  λ w,
    let '(r, d) := prisma_run (now w) (uuid w) m op args (db w) in
    (r, mkWorld d (trace w ++ [Query m op args]) (now w) (uuid w)).

(* ===================================================================== *)
(** ** The application *)
(* ===================================================================== *)

(** The three schemas of structs.js, which is not among the sources, are
    parameters of the development. *)
Variables CreateArticle PatchArticle CreateComment : Struct.

(** superstruct's [assert(value, struct)] *)
Definition assert (v : value) (S : Struct) : M unit :=
  match S v with
  | None => mret tt
  | Some msg => throw (StructError msg)
  end.

(** Reading an identifier that no scope declares. *)
Definition undeclared (x : string) : M value :=
  throw (Error "ReferenceError" (x +:+ " is not defined")).

(** [await o.f()] on a plain data object: data carries no functions. *)
Definition call_method (x f : string) (o : value) : M value :=
  throw (Error "TypeError" (x +:+ "." +:+ f +:+ " is not a function")).

(** [Object.keys(v)] *)
Definition Object_keys (v : value) : M (list string) :=
  match v with
  | VUndefined | VNull =>
      throw (Error "TypeError" "Cannot convert undefined or null to object")
  | _ => mret (map_to_list (spread v)).*1
  end.

(** [o[k] = v] *)
Definition assign (o : value) (k : string) (v : value) : value :=
  match o with VObj r => VObj (<[k := v]> r) | _ => o end.

Definition msg (s : string) : value := VObj (object [("message", VStr s)]).

Definition asyncHandler (handler : request → M unit) : request → M unit :=
  λ req,
    try_catch (handler req) (λ e,
      if String.eqb (name e) "StructError"
         || instanceof_PrismaClientValidationError e
      then res.status_send 400 (msg (message e))
      else if instanceof_PrismaClientKnownRequestError e
              && is_str (code e) "P2025"
      then res.sendStatus 404
      else res.status_send 500 (msg (message e))).

(** POST /article *)
Definition post_article (req : request) : M unit :=
  _ ← assert (body req) CreateArticle;
  article ← prisma Article Create (VObj (object [("data", body req)]));
  res.status_send 201 article.

(** GET /article/:id *)
Definition get_article_id (req : request) : M unit :=
  let id := get (params req) "id" in
  article ← prisma Article FindUniqueOrThrow (VObj (object [
    ("select", VObj (object [
       ("id", VBool true); ("title", VBool true);
       ("content", VBool true); ("createdAt", VBool true)]));
    ("where", VObj (object [("id", id)]))]));
  res.send article.

(** PATCH /article/:id *)
Definition patch_article_id (req : request) : M unit :=
  _ ← assert (body req) PatchArticle;
  let id := get (params req) "id" in
  article ← prisma Article Update (VObj (object [
    ("where", VObj (object [("id", id)]));
    ("data", body req)]));
  res.send article.

(** DELETE /article/:id *)
Definition delete_article_id (req : request) : M unit :=
  let id := get (params req) "id" in
  _ ← prisma Article Delete (VObj (object [
    ("where", VObj (object [("id", id)]))]));
  res.sendStatus 204.

(** The page arithmetic both page-mode listings share:
    [Number(page) || 1], [Number(pageSize) || 10] and
    [(pageNum - 1) * pageSizeNum]. *)
Definition pageNum (page : value) : value :=
  or_else (VNum (Number_ page)) (VNum (Num 1)).

Definition pageSizeNum (pageSize : value) : value :=
  or_else (VNum (Number_ pageSize)) (VNum (Num 10)).

Definition skipInt (pageNum pageSizeNum : value) : value :=
  VNum (num_mul (num_sub (as_number pageNum) (Num 1)) (as_number pageSizeNum)).

(** GET /products: the [switch (order)] and the [searchQuery]. *)
Definition products_orderBy (order : value) : value :=
  if is_str order "fovorite" then VObj (object [("favoriteCount", VStr "desc")])
  else if is_str order "recent" then VObj (object [("createdAt", VStr "desc")])
  else VObj (object [("createdAt", VStr "desc")]).

Definition products_searchQuery (keyword : value) : value :=
  VObj (object [
    ("OR", VArr [
       VObj (object [("name", VObj (object [("contains", keyword)]))]);
       VObj (object [("description", VObj (object [("contains", keyword)]))])])]).

(** GET /products *)
Definition get_products (req : request) : M unit :=
  let page := get (query req) "page" in
  let pageSize := get (query req) "pageSize" in
  let order := get_default (query req) "order" (VStr "recent") in
  let keyword := get_default (query req) "keyword" (VStr "") in
  let orderBy := products_orderBy order in
  let searchQuery := products_searchQuery keyword in
  let pageNum := pageNum page in
  let pageSizeNum := pageSizeNum pageSize in
  let skipInt := skipInt pageNum pageSizeNum in
  products ← prisma Product FindMany (VObj (object [
    ("where", searchQuery);
    ("orderBy", orderBy);
    ("skip", VNum (parseInt skipInt));
    ("take", VNum (parseInt pageSizeNum));
    ("select", VObj (object [
       ("id", VBool true); ("name", VBool true); ("description", VBool true);
       ("price", VBool true); ("tags", VBool true);
       ("favoriteCount", VBool true); ("createdAt", VBool true)]))]));
  totalCount ← prisma Product Count (VObj (object [("where", searchQuery)]));
  res.send (VObj (object [("totalCount", totalCount); ("products", products)])).

(** POST /article/:id/comment *)
Definition post_article_id_comment (req : request) : M unit :=
  _ ← assert (body req) CreateComment;
  let articleId := get (params req) "articleId" in
  comment ← prisma Comment Create (VObj (object [
    ("data", VObj (<["articleId" := articleId]> (spread (body req))))]));
  res.status_send 201 comment.

(** POST /product/:id/comment *)
Definition post_product_id_comment (req : request) : M unit :=
  let id := get (params req) "id" in
  comment ← prisma ProductComment Create (VObj (object [
    ("data", VObj (<["productId" := id]> (spread (body req))))]));
  res.status_send 201 comment.

(** PATCH /comment/:id *)
Definition patch_comment_id (req : request) : M unit :=
  _ ← assert (body req) CreateComment;
  let id := get (params req) "id" in
  updateComment ← prisma Comment Update (VObj (object [
    ("where", VObj (object [("id", id)]));
    ("data", body req)]));
  res.status_send 200 updateComment.

(** DELETE /comment/:id *)
Definition delete_comment_id (req : request) : M unit :=
  let id := get (params req) "id" in
  _ ← prisma Comment Delete (VObj (object [
    ("where", VObj (object [("id", id)]))]));
  res.sendStatus 204.

(** The argument both comment listings give to [findMany]. *)
Definition cursor_page (cursor : value) (parsedLimit : number) : value :=
  VObj (object [
    ("select", VObj (object [
       ("id", VBool true); ("content", VBool true); ("createdAt", VBool true)]));
    ("take", VNum parsedLimit);
    ("skip", VNum (Num (if truthy cursor then 1 else 0)));
    ("cursor", if truthy cursor then VObj (object [("id", cursor)])
               else VUndefined);
    ("orderBy", VObj (object [("createdAt", VStr "desc")]))]).

(** GET /comment *)
Definition get_comment (req : request) : M unit :=
  let cursor := get (query req) "cursor" in
  let limit := get_default (query req) "limit" (VNum (Num 5)) in
  let parsedLimit := parseInt limit in
  comments ← prisma Comment FindMany (cursor_page cursor parsedLimit);
  res.send comments.

(** GET /productcomment *)
Definition get_productcomment (req : request) : M unit :=
  let cursor := get (query req) "cursor" in
  let limit := get_default (query req) "limit" (VNum (Num 5)) in
  let parsedLimit := parseInt limit in
  comments ← prisma ProductComment FindMany (cursor_page cursor parsedLimit);
  productComment ← undeclared "productComment";
  res.send productComment.

(** GET /article: the [switch (order)] and the [searchQuery]. *)
Definition article_orderBy (order : value) : value :=
  if is_str order "oldest" then VObj (object [("createdAt", VStr "asc")])
  else if is_str order "recent" then VObj (object [("createdAt", VStr "desc")])
  else VObj (object [("createdAt", VStr "desc")]).

Definition article_searchQuery (keyword : value) : value :=
  if truthy keyword then
    VObj (object [
      ("OR", VArr [
         VObj (object [("content", VObj (object [("contains", keyword)]))]);
         VObj (object [("title", VObj (object [("contains", keyword)]))])])])
  else VObj (object []).

(** GET /article *)
Definition get_article (req : request) : M unit :=
  let page := get (query req) "page" in
  let pageSize := get (query req) "pageSize" in
  let order := get_default (query req) "order" (VStr "recent") in
  let keyword := get_default (query req) "keyword" (VStr "") in
  let orderBy := article_orderBy order in
  let searchQuery := article_searchQuery keyword in
  let pageNum := pageNum page in
  let pageSizeNum := pageSizeNum pageSize in
  let skipInt := skipInt pageNum pageSizeNum in
  articles ← prisma Article FindMany (VObj (object [
    ("where", searchQuery);
    ("orderBy", orderBy);
    ("skip", VNum (parseInt skipInt));
    ("take", VNum (parseInt pageSizeNum))]));
  res.send articles.

(** GET /products/:id *)
Definition get_products_id (req : request) : M unit :=
  let id := get (params req) "id" in
  product ← prisma Product FindUnique (VObj (object [
    ("where", VObj (object [("id", VNum (Number_ id))]))]));
  if truthy product then res.send product
  else res.status_send 404 (msg "Cannot find given id.").

(** POST /products *)
Definition post_products (req : request) : M unit :=
  newProduct ← prisma Product Create (VObj (object [("data", body req)]));
  res.status_send 201 newProduct.

(** PATCH /products/:id *)
Definition patch_products_id (req : request) : M unit :=
  let id := get (params req) "id" in
  product ← prisma Product FindUnique id;
  if truthy product then
    keys ← Object_keys (body req);
    let product := foldl (λ p key, assign p key (prop (body req) key))
                         product keys in
    _ ← call_method "product" "save" product;
    res.send product
  else res.status_send 404 (msg "Cannot find given id. ").

(** DELETE /products/:id *)
Definition delete_products_id (req : request) : M unit :=
  let id := VNum (Number_ (get (params req) "id")) in
  product ← prisma Product Delete id;
  if truthy product then res.sendStatus 204
  else res.status_send 404 (msg "Cannot find given id. ").

(** *** Routing *)

(** A path pattern: literal segments and named parameters ([:id]). *)
Inductive segment := Lit (s : string) | Param (x : string).

Record route := mkRoute {
  rmethod : method;
  rpath : list segment;
  rhandler : request → M unit
}.

(** The parameters a pattern binds on a path, if it matches. *)
Fixpoint match_path (pat : list segment) (p : list string) : option obj :=
  match pat, p with
  | [], [] => Some ∅
  | Lit s :: pat', x :: p' =>
      if String.eqb s x then match_path pat' p' else None
  | Param n :: pat', x :: p' => (λ ps, <[n := VStr x]> ps) <$> match_path pat' p'
  | _, _ => None
  end.

(** The routes, in the order the application registers them. *)
Definition app : list route := [
  mkRoute POST [Lit "article"] (asyncHandler post_article);
  mkRoute GET [Lit "article"; Param "id"] (asyncHandler get_article_id);
  mkRoute PATCH [Lit "article"; Param "id"] (asyncHandler patch_article_id);
  mkRoute DELETE [Lit "article"; Param "id"] (asyncHandler delete_article_id);
  mkRoute GET [Lit "products"] (asyncHandler get_products);
  mkRoute POST [Lit "article"; Param "id"; Lit "comment"]
    (asyncHandler post_article_id_comment);
  mkRoute POST [Lit "product"; Param "id"; Lit "comment"]
    (asyncHandler post_product_id_comment);
  mkRoute PATCH [Lit "comment"; Param "id"] (asyncHandler patch_comment_id);
  mkRoute DELETE [Lit "comment"; Param "id"] (asyncHandler delete_comment_id);
  mkRoute GET [Lit "comment"] (asyncHandler get_comment);
  mkRoute GET [Lit "productcomment"] (asyncHandler get_productcomment);
  mkRoute GET [Lit "article"] (asyncHandler get_article);
  mkRoute GET [Lit "products"; Param "id"] (asyncHandler get_products_id);
  mkRoute POST [Lit "products"] (asyncHandler post_products);
  mkRoute PATCH [Lit "products"; Param "id"] (asyncHandler patch_products_id);
  mkRoute DELETE [Lit "products"; Param "id"] (asyncHandler delete_products_id)
].

(** The first route that matches wins. *)
Fixpoint dispatch (rs : list route) (v : method) (p : list string)
    : option ((request → M unit) * obj) :=
  match rs with
  | [] => None
  | r :: rs' =>
      if method_eqb (rmethod r) v then
        match match_path (rpath r) p with
        | Some ps => Some (rhandler r, ps)
        | None => dispatch rs' v p
        end
      else dispatch rs' v p
  end.

(** Serving one request; a path no route matches is answered by the
    framework with its own 404. *)
Definition serve (h : http) (w : world) : world :=
  let w0 := mkWorld (db w) (trace w) (h_now h) (h_uuid h) in
  match dispatch app (h_method h) (h_path h) with
  | Some (handler, ps) => (handler (mkReq ps (h_query h) (h_body h)) w0).2
  | None => (res.status_send 404 (VStr "Cannot route") w0).2
  end.

(** Serving requests one after the other. *)
Definition run (hs : list http) (w : world) : world :=
  foldl (λ w h, serve h w) w hs.

(* ===================================================================== *)
(** ** Objects written as literals *)
(* ===================================================================== *)

Lemma get_insert (o : obj) k v k' :
  get (<[k:=v]> o) k' = if String.eqb k k' then v else get o k'.
Proof.
  unfold get. destruct (String.eqb_spec k k') as [->|Hne].
  - by rewrite lookup_insert_eq.
  - by rewrite lookup_insert_ne.
Qed.

Lemma get_empty k : get ∅ k = VUndefined.
Proof. reflexivity. Qed.

Lemma object_snoc l k v : object (l ++ [(k, v)]) = <[k:=v]> (object l).
Proof. unfold object. by rewrite foldl_app. Qed.

(** Reading a property of a literal: the last value written for it. *)
Fixpoint literal_get (l : list (string * value)) (k : string) (acc : value)
    : value :=
  match l with
  | [] => acc
  | (k', v) :: l' => literal_get l' k (if String.eqb k' k then v else acc)
  end.

Lemma get_foldl_insert l (o : obj) k :
  get (foldl (λ o kv, <[kv.1 := kv.2]> o) o l) k = literal_get l k (get o k).
Proof.
  revert o. induction l as [|[k' v] l IH]; intros o; [done|].
  cbn [foldl literal_get fst snd]. by rewrite IH, get_insert.
Qed.

Lemma get_object l k : get (object l) k = literal_get l k VUndefined.
Proof. apply get_foldl_insert. Qed.

Ltac read_literal :=
  rewrite ?get_object, ?get_insert, ?get_empty;
  cbn [literal_get String.eqb Ascii.eqb Bool.eqb].

(** Every property of a literal is one of those written. *)
Lemma object_lookup l k v : object l !! k = Some v → (k, v) ∈ l.
Proof.
  induction l as [|[k' v'] l IH] using rev_ind; [done|].
  rewrite object_snoc, lookup_insert_Some.
  intros [[<- <-]|[_ H]]; apply elem_of_app; [right|left; auto].
  by apply list_elem_of_singleton.
Qed.

Lemma forallb_object (P : string * value → bool) l :
  forallb P l = true → forallb P (map_to_list (object l)) = true.
Proof.
  rewrite !forallb_forall. intros H [k v] Hin.
  apply H, list_elem_of_In, object_lookup, elem_of_map_to_list.
  by apply list_elem_of_In.
Qed.

Lemma forallb_defined (P : string * value → bool) (o : obj) :
  forallb P (map_to_list o) = true →
  forallb P (map_to_list (defined o)) = true.
Proof.
  rewrite !forallb_forall. intros H [k v] Hin. apply H.
  apply list_elem_of_In, elem_of_map_to_list in Hin.
  apply list_elem_of_In, elem_of_map_to_list.
  unfold defined in Hin. by apply map_lookup_filter_Some in Hin as [? _].
Qed.

Lemma args_of_object allowed l :
  forallb (λ kv, bool_decide (kv.1 ∈ allowed)) l = true →
  args_of allowed (VObj (object l)) = Some (object l).
Proof.
  intros H. unfold args_of.
  rewrite (forallb_object (λ kv, bool_decide (kv.1 ∈ allowed) || is_undefined kv.2));
    [done|].
  rewrite forallb_forall in *. intros kv Hin. by rewrite (H kv Hin).
Qed.

(** The one property of a literal with a single property. *)
Lemma defined_single k v :
  is_undefined v = false →
  map_to_list (defined (object [(k, v)])) = [(k, v)].
Proof.
  intros H. unfold object, defined. cbn [foldl fst snd].
  rewrite insert_empty, map_filter_singleton_True by done.
  apply map_to_list_singleton.
Qed.

Lemma where_id_object m v :
  is_undefined v = false →
  where_id m (VObj (object [("id", v)])) = coerce_field m "id" v.
Proof. intros H. unfold where_id. by rewrite defined_single. Qed.

Lemma select_of_object m l :
  l ≠ [] →
  forallb (λ kv, bool_decide (is_Some (field_of m kv.1)) && is_true kv.2) l = true →
  select_of m (VObj (object l)) = Some (Some (object l)).
Proof.
  intros Hl H. unfold select_of.
  assert (Ha : forallb (λ kv, bool_decide (is_Some (field_of m kv.1)) && is_true kv.2)
                 (map_to_list (object l)) = true) by by apply forallb_object.
  rewrite (forallb_defined (λ kv, bool_decide (is_Some (field_of m kv.1)) && is_bool kv.2)).
  - assert (He : existsb (λ kv, is_true kv.2) (map_to_list (object l)) = true);
      [|by rewrite He].
    destruct (map_to_list (object l)) as [|kv rest] eqn:E.
    + apply map_to_list_empty_iff in E.
      destruct l as [|[k v] l] using rev_ind; [done|].
      rewrite object_snoc in E. by apply insert_non_empty in E.
    + simpl in *. apply andb_true_iff in Ha as [Ha _].
      apply andb_true_iff in Ha as [_ ->]. done.
  - rewrite forallb_forall in *. intros kv Hin. specialize (Ha kv Hin).
    apply andb_true_iff in Ha as [-> Ht]. by destruct (kv.2) as [| |[]| | | | |].
Qed.

(* ===================================================================== *)
(** ** The request wrapper *)
(* ===================================================================== *)

(** The world after one more response. *)
Definition replied (r : reply) (w : world) : world :=
  mkWorld (db w) (trace w ++ [Response r]) (now w) (uuid w).

Lemma responses_app (t1 t2 : list event) :
  responses (t1 ++ t2) = responses t1 ++ responses t2.
Proof. unfold responses. apply omap_app. Qed.

Lemma queries_app (t1 t2 : list event) :
  queries (t1 ++ t2) = queries t1 ++ queries t2.
Proof. unfold queries. apply omap_app. Qed.

(** A handler that returns is left alone by the wrapper. *)
Lemma asyncHandler_returns handler req w w' :
  handler req w = (Returns tt, w') →
  asyncHandler handler req w = (Returns tt, w').
Proof. intros H. unfold asyncHandler, try_catch. by rewrite H. Qed.

(** What the wrapper answers to a failure. *)
Definition error_reply (e : exn) : reply :=
  if String.eqb (name e) "StructError"
     || instanceof_PrismaClientValidationError e
  then StatusSend 400 (msg (message e))
  else if instanceof_PrismaClientKnownRequestError e && is_str (code e) "P2025"
  then SendStatus 404
  else StatusSend 500 (msg (message e)).

Lemma asyncHandler_throws handler req w e w' :
  handler req w = (Throws e, w') →
  asyncHandler handler req w = (Returns tt, replied (error_reply e) w').
Proof.
  intros H. unfold asyncHandler, try_catch, error_reply. rewrite H.
  by repeat case_match.
Qed.

(** The body [{ message: s }], written out. *)
Lemma msg_singleton s : msg s = VObj {[ "message" := VStr s ]}.
Proof. reflexivity. Qed.

(** C1, as the code has it: a failure raised by a wrapped handler is
    answered once, and the wrapper itself returns.  A schema-validation
    failure and a validation failure of the persistence client are
    answered 400 with the body [{ message }], where [message] is the
    failure's message.  The persistence failure P2025 (record not found)
    is answered with [res.sendStatus(404)]: status 404, and as body the
    reason phrase "Not Found", not an empty body.  Every other failure is
    answered 500 with the body [{ message }].  Nothing else is added to
    the trace. *)
Theorem asyncHandler_maps_failures handler req w e w' :
  handler req w = (Throws e, w') →
  ∃ r,
    asyncHandler handler req w = (Returns tt, replied r w')
    ∧ responses (trace (replied r w')) = responses (trace w') ++ [r]
    ∧ queries (trace (replied r w')) = queries (trace w')
    ∧ (name e = "StructError" ∨ instanceof_PrismaClientValidationError e = true →
       r = StatusSend 400 (VObj {[ "message" := VStr (message e) ]})
       ∧ status_of r = 400
       ∧ body_of r = Payload (VObj {[ "message" := VStr (message e) ]}))
    ∧ (∀ m, e = PrismaClientKnownRequestError "P2025" m →
       r = SendStatus 404
       ∧ status_of r = 404
       ∧ body_of r = Payload (VStr "Not Found"))
    ∧ (name e ≠ "StructError" →
       instanceof_PrismaClientValidationError e = false →
       (∀ m, e ≠ PrismaClientKnownRequestError "P2025" m) →
       r = StatusSend 500 (VObj {[ "message" := VStr (message e) ]})
       ∧ status_of r = 500
       ∧ body_of r = Payload (VObj {[ "message" := VStr (message e) ]})).
Proof.
  intros H. exists (error_reply e). split; [by apply asyncHandler_throws|].
  split; [unfold replied; simpl; by rewrite responses_app|].
  split; [unfold replied; simpl; by rewrite queries_app, app_nil_r|].
  unfold error_reply. rewrite !msg_singleton.
  destruct e as [m|m|c m|n m]; simpl; (split; [|split]).
  - done.
  - intros ? [=].
  - intros Hn. by destruct Hn.
  - done.
  - intros ? [=].
  - intros _ [=].
  - intros [[=]|[=]].
  - intros m' [= -> ->]. done.
  - intros _ _ Hc. destruct (String.eqb_spec c "P2025") as [->|]; [|done].
    by destruct (Hc m).
  - intros [->|[=]]. done.
  - intros ? [=].
  - intros Hn _ _. by destruct (String.eqb_spec n "StructError").
Qed.

(* ===================================================================== *)
(** ** Validation comes first *)
(* ===================================================================== *)

(** The handlers that check their body, each with the schema it checks. *)
Definition validating_handlers : list (Struct * (request → M unit)) := [
  (CreateArticle, post_article);
  (PatchArticle, patch_article_id);
  (CreateComment, post_article_id_comment);
  (CreateComment, patch_comment_id)
].

Lemma assert_fails v S m w :
  S v = Some m → assert v S w = (Throws (StructError m), w).
Proof. intros H. unfold assert. by rewrite H. Qed.

Lemma assert_passes v S w :
  S v = None → assert v S w = (Returns tt, w).
Proof. intros H. unfold assert. by rewrite H. Qed.

(** C10: in each handler that validates its body (article create, article
    update, comment create, comment update) a body the schema rejects is
    answered with 400 and the failure's message before the persistence
    client is called at all: the store is the one the request found, and
    the trace gained that single response and no query. *)
Theorem validation_failure_leaves_store S handler req w m :
  (S, handler) ∈ validating_handlers →
  S (body req) = Some m →
  ∃ w',
    asyncHandler handler req w = (Returns tt, w')
    ∧ db w' = db w
    ∧ trace w' = trace w ++ [Response (StatusSend 400 (msg m))].
Proof.
  intros Hin HS. exists (replied (StatusSend 400 (msg m)) w).
  split; [|done].
  apply (asyncHandler_throws handler req w (StructError m) w).
  unfold validating_handlers in Hin.
  repeat (apply elem_of_cons in Hin as [[= -> ->]|Hin]);
    [| | | |by apply elem_of_nil in Hin].
  all: unfold post_article, patch_article_id, post_article_id_comment,
         patch_comment_id, mbind, M_bind; by rewrite (assert_fails _ _ m).
Qed.

(* ===================================================================== *)
(** ** Queries on literal arguments *)
(* ===================================================================== *)

(** [where: { id: v }], with or without a [select]. *)
Lemma findUnique_select or_throw m S sel v idv d :
  select_of m S = Some sel →
  is_undefined v = false →
  coerce_field m "id" v = Some idv →
  prisma_findUnique or_throw m (VObj (object [
    ("select", S); ("where", VObj (object [("id", v)]))])) d =
  match find_id (rows_of m d) idv with
  | Some (_, Some row) => (Returns (VObj (project sel row)), d)
  | _ => if or_throw then not_found d else (Returns VNull, d)
  end.
Proof.
  intros HS Hv Hid. unfold prisma_findUnique.
  rewrite args_of_object by reflexivity. read_literal.
  by rewrite where_id_object, Hid, HS.
Qed.

Lemma findUnique_where or_throw m v idv d :
  is_undefined v = false →
  coerce_field m "id" v = Some idv →
  prisma_findUnique or_throw m (VObj (object [
    ("where", VObj (object [("id", v)]))])) d =
  match find_id (rows_of m d) idv with
  | Some (_, Some row) => (Returns (VObj row), d)
  | _ => if or_throw then not_found d else (Returns VNull, d)
  end.
Proof.
  intros Hv Hid. unfold prisma_findUnique.
  rewrite args_of_object by reflexivity. read_literal.
  by rewrite where_id_object, Hid.
Qed.

Lemma delete_where m v idv d :
  is_undefined v = false →
  coerce_field m "id" v = Some idv →
  prisma_delete m (VObj (object [("where", VObj (object [("id", v)]))])) d =
  match find_id (rows_of m d) idv with
  | Some (i, Some row) =>
      (Returns (VObj row), with_rows m (<[i := None]> (rows_of m d)) d)
  | _ => not_found d
  end.
Proof.
  intros Hv Hid. unfold prisma_delete.
  rewrite args_of_object by reflexivity. read_literal.
  by rewrite where_id_object, Hid.
Qed.

Lemma update_where m v idv b d :
  is_undefined v = false →
  coerce_field m "id" v = Some idv →
  prisma_update m (VObj (object [
    ("where", VObj (object [("id", v)])); ("data", b)])) d =
  match b with
  | VObj data =>
      match typed_data m data with
      | Some typed =>
          match find_id (rows_of m d) idv with
          | Some (i, Some row) =>
              if taken_by_other (rows_of m d) i (get (typed ∪ row) "id")
              then not_unique d
              else (Returns (VObj (typed ∪ row)),
                    with_rows m (<[i := Some (typed ∪ row)]> (rows_of m d)) d)
          | _ => not_found d
          end
      | None => invalid d
      end
  | _ => invalid d
  end.
Proof.
  intros Hv Hid. unfold prisma_update.
  rewrite args_of_object by reflexivity. read_literal.
  rewrite where_id_object, Hid by done.
  by destruct b.
Qed.

Lemma create_data tnow tuuid m b d :
  prisma_create tnow tuuid m (VObj (object [("data", b)])) d =
  match b with
  | VObj data =>
      match typed_data m data with
      | Some typed =>
          if complete m (typed ∪ defaults tnow tuuid m d) then
            match find_id (rows_of m d)
                    (get (typed ∪ defaults tnow tuuid m d) "id") with
            | Some _ => not_unique (bump m typed d)
            | None =>
                (Returns (VObj (typed ∪ defaults tnow tuuid m d)),
                 with_rows m
                   (rows_of m d ++ [Some (typed ∪ defaults tnow tuuid m d)])
                   (bump m typed d))
            end
          else invalid d
      | None => invalid d
      end
  | _ => invalid d
  end.
Proof.
  unfold prisma_create.
  rewrite args_of_object by reflexivity. read_literal.
  by destruct b.
Qed.

(** A query whose argument is not an object is refused. *)
Lemma prisma_run_bare tnow tuuid m op args d :
  (∀ o, args ≠ VObj o) →
  prisma_run tnow tuuid m op args d = invalid d.
Proof.
  intros H. destruct args; try (by destruct op); by destruct (H o).
Qed.
(* ===================================================================== *)
(** ** Running a request *)
(* ===================================================================== *)

Ltac run_handler :=
  unfold asyncHandler, try_catch, post_article, get_article_id,
    patch_article_id, delete_article_id, get_products,
    post_article_id_comment, post_product_id_comment, patch_comment_id,
    delete_comment_id, get_comment, get_productcomment, get_article,
    get_products_id, post_products, patch_products_id, delete_products_id,
    mbind, M_bind, prisma, prisma_run;
  cbn [params query body db trace now uuid];
  rewrite ?get_insert, ?get_empty;
  cbn [String.eqb Ascii.eqb Bool.eqb].

Ltac finish_run :=
  unfold not_found, invalid, res.sendStatus, res.send, res.status_send, emit;
  cbn -[object spread cursor_page];
  rewrite <- ?app_assoc; try reflexivity.

Ltac routed :=
  cbn [dispatch app rmethod rpath rhandler method_eqb match_path String.eqb
       Ascii.eqb Bool.eqb fmap option_fmap option_map];
  reflexivity.

Lemma responses_query m op a : responses [Query m op a] = [].
Proof. reflexivity. Qed.

Lemma responses_response r : responses [Response r] = [r].
Proof. reflexivity. Qed.

Ltac trace_simpl :=
  rewrite ?responses_app, ?responses_query, ?responses_response, ?app_nil_r.

Lemma serve_route v p q b t u w handler ps :
  dispatch app v p = Some (handler, ps) →
  serve (mkHttp v p q b t u) w =
  (handler (mkReq ps q b) (mkWorld (db w) (trace w) t u)).2.
Proof. intros H. unfold serve. cbn [h_method h_path]. by rewrite H. Qed.

(** The request adds exactly the response [r] to the trace. *)
Definition answered (h : http) (w : world) (r : reply) : Prop :=
  responses (trace (serve h w)) = responses (trace w) ++ [r].

Lemma answered_by v p q b t u handler ps w r a m op :
  dispatch app v p = Some (handler, ps) →
  handler (mkReq ps q b) (mkWorld (db w) (trace w) t u) =
  (Returns tt,
   mkWorld (db w) (trace w ++ [Query m op a; Response r]) t u) →
  answered (mkHttp v p q b t u) w r
  ∧ db (serve (mkHttp v p q b t u) w) = db w.
Proof.
  intros Hd Hh. unfold answered. rewrite (serve_route _ _ _ _ _ _ _ _ _ Hd), Hh.
  simpl. split; [|done]. by rewrite responses_app.
Qed.

(* ===================================================================== *)
(** ** Records that are not there *)
(* ===================================================================== *)

(** The by-id routes of articles and comments, with the table they address
    and the schema they check, if any. *)
Definition by_id_routes : list (method * string * model * option Struct) := [
  (GET, "article", Article, None);
  (PATCH, "article", Article, Some PatchArticle);
  (DELETE, "article", Article, None);
  (PATCH, "comment", Comment, Some CreateComment);
  (DELETE, "comment", Comment, None)
].

(** The body of an update passes its schema and is data of the model. *)
Definition updates (m : model) (S : option Struct) (b : value) : Prop :=
  match S with
  | None => True
  | Some s => s b = None ∧ ∃ data, b = VObj data ∧ is_Some (typed_data m data)
  end.

Lemma get_article_id_missing x q b w :
  find_id (articles (db w)) (VStr x) = None →
  ∃ a, asyncHandler get_article_id (mkReq (<["id" := VStr x]> ∅) q b) w =
  (Returns tt,
   mkWorld (db w)
     (trace w ++ [Query Article FindUniqueOrThrow a; Response (SendStatus 404)])
     (now w) (uuid w)).
Proof.
  intros H. eexists. run_handler.
  erewrite (findUnique_select true Article _ _ (VStr x) (VStr x));
    [|by apply select_of_object|done..].
  cbn [rows_of]. rewrite H. finish_run.
Qed.

Lemma delete_by_id_missing m handler x q b w :
  (m, handler) ∈ [(Article, delete_article_id); (Comment, delete_comment_id)] →
  find_id (rows_of m (db w)) (VStr x) = None →
  ∃ a, asyncHandler handler (mkReq (<["id" := VStr x]> ∅) q b) w =
  (Returns tt,
   mkWorld (db w)
     (trace w ++ [Query m Delete a; Response (SendStatus 404)])
     (now w) (uuid w)).
Proof.
  intros Hin H. eexists.
  repeat (apply elem_of_cons in Hin as [[= -> ->]|Hin]);
    [| |by apply elem_of_nil in Hin].
  all: run_handler; rewrite (delete_where _ (VStr x) (VStr x)) by done;
    rewrite H; finish_run.
Qed.

Lemma patch_by_id_missing m S handler x q data w :
  (m, S, handler) ∈ [(Article, PatchArticle, patch_article_id);
                     (Comment, CreateComment, patch_comment_id)] →
  S (VObj data) = None →
  is_Some (typed_data m data) →
  find_id (rows_of m (db w)) (VStr x) = None →
  ∃ a, asyncHandler handler (mkReq (<["id" := VStr x]> ∅) q (VObj data)) w =
  (Returns tt,
   mkWorld (db w)
     (trace w ++ [Query m Update a; Response (SendStatus 404)])
     (now w) (uuid w)).
Proof.
  intros Hin HS [typed Ht] H. eexists.
  repeat (apply elem_of_cons in Hin as [[= -> -> ->]|Hin]);
    [| |by apply elem_of_nil in Hin].
  all: run_handler; rewrite (assert_passes _ _ _ HS);
    rewrite (update_where _ (VStr x) (VStr x)) by done;
    rewrite Ht, H; finish_run.
Qed.

Lemma get_products_id_missing x z q b w :
  StringToNumber x = Num z →
  find_id (products (db w)) (VNum (Num z)) = None →
  ∃ a, asyncHandler get_products_id (mkReq (<["id" := VStr x]> ∅) q b) w =
  (Returns tt,
   mkWorld (db w)
     (trace w ++ [Query Product FindUnique a;
                  Response (StatusSend 404 (msg "Cannot find given id."))])
     (now w) (uuid w)).
Proof.
  intros Hn H. eexists. run_handler. cbn [Number_]. rewrite Hn.
  rewrite (findUnique_where _ _ (VNum (Num z)) (VNum (Num z))) by done.
  cbn [rows_of]. rewrite H. finish_run.
Qed.

Lemma with_body_of (P Q : Prop) (e : sent_body) r :
  body_of r = e → P ∧ Q → P ∧ body_of r = e ∧ Q.
Proof. tauto. Qed.

(** C2, as the code has it: for an id (a segment of the path, which is
    not empty) that names no record, get-one, update (of a body that
    passes its schema and is data of the model) and delete on articles,
    and update and delete on comments, are answered with
    [res.sendStatus(404)], status 404 and the reason phrase "Not Found"
    as body, and leave the store as it was; get-one on products, for an
    id that reads as an integer of 32 bits and names no product, answers
    404 with the body [{ message: "Cannot find given id." }]. *)
Theorem missing_id_is_404 x q b t u w :
  x ≠ "" →
  (∀ v r m S,
     (v, r, m, S) ∈ by_id_routes →
     find_id (rows_of m (db w)) (VStr x) = None →
     updates m S b →
     answered (mkHttp v [r; x] q b t u) w (SendStatus 404)
     ∧ body_of (SendStatus 404) = Payload (VStr "Not Found")
     ∧ db (serve (mkHttp v [r; x] q b t u) w) = db w)
  ∧ (∀ z,
     StringToNumber x = Num z →
     - 2 ^ 31 ≤ z < 2 ^ 31 →
     find_id (products (db w)) (VNum (Num z)) = None →
     answered (mkHttp GET ["products"; x] q b t u) w
       (StatusSend 404 (VObj {[ "message" := VStr "Cannot find given id." ]}))
     ∧ body_of
         (StatusSend 404 (VObj {[ "message" := VStr "Cannot find given id." ]}))
       = Payload (VObj {[ "message" := VStr "Cannot find given id." ]})
     ∧ db (serve (mkHttp GET ["products"; x] q b t u) w) = db w).
Proof.
  intros _. split.
  - intros v r m S Hin Hf Hu. unfold by_id_routes in Hin.
    apply with_body_of; [reflexivity|].
    repeat (apply elem_of_cons in Hin as [[= -> -> -> ->]|Hin]);
      [| | | | |by apply elem_of_nil in Hin].
    + destruct (get_article_id_missing x q b (mkWorld (db w) (trace w) t u) Hf)
        as [a Ha].
      eapply answered_by; [routed|exact Ha].
    + destruct Hu as (HS & data & -> & Ht).
      destruct (patch_by_id_missing Article PatchArticle patch_article_id
                  x q data (mkWorld (db w) (trace w) t u)) as [a Ha];
        [set_solver|done..|].
      eapply answered_by; [routed|exact Ha].
    + destruct (delete_by_id_missing Article delete_article_id
                  x q b (mkWorld (db w) (trace w) t u)) as [a Ha];
        [set_solver|done|].
      eapply answered_by; [routed|exact Ha].
    + destruct Hu as (HS & data & -> & Ht).
      destruct (patch_by_id_missing Comment CreateComment patch_comment_id
                  x q data (mkWorld (db w) (trace w) t u)) as [a Ha];
        [set_solver|done..|].
      eapply answered_by; [routed|exact Ha].
    + destruct (delete_by_id_missing Comment delete_comment_id
                  x q b (mkWorld (db w) (trace w) t u)) as [a Ha];
        [set_solver|done|].
      eapply answered_by; [routed|exact Ha].
  - intros z Hn _ Hf. apply with_body_of; [reflexivity|].
    destruct (get_products_id_missing x z q b (mkWorld (db w) (trace w) t u)
                Hn Hf) as [a Ha].
    rewrite msg_singleton in Ha.
    eapply answered_by; [routed|exact Ha].
Qed.

(** Update and delete on products hand the store a bare id instead of
    [{ where: { id } }]: the store refuses the call, whatever the id, and
    the request is answered 400. *)
Lemma products_patch_delete_refused v x q b t u w :
  v ∈ [PATCH; DELETE] →
  answered (mkHttp v ["products"; x] q b t u) w
    (StatusSend 400 (msg "Invalid invocation: argument validation failed"))
  ∧ db (serve (mkHttp v ["products"; x] q b t u) w) = db w.
Proof.
  intros Hin.
  repeat (apply elem_of_cons in Hin as [->|Hin]); [| |by apply elem_of_nil in Hin].
  - eapply (answered_by _ _ _ _ _ _ (asyncHandler patch_products_id)
              (<["id" := VStr x]> ∅)); [routed|].
    unfold asyncHandler, try_catch, patch_products_id, mbind, M_bind, prisma.
    cbn [params query body db trace now uuid]. rewrite get_insert.
    cbn [String.eqb Ascii.eqb Bool.eqb].
    rewrite prisma_run_bare by done. finish_run.
  - eapply (answered_by _ _ _ _ _ _ (asyncHandler delete_products_id)
              (<["id" := VStr x]> ∅)); [routed|].
    unfold asyncHandler, try_catch, delete_products_id, mbind, M_bind, prisma.
    cbn [params query body db trace now uuid].
    rewrite prisma_run_bare by done. finish_run.
Qed.
(* ===================================================================== *)
(** ** The comment routes *)
(* ===================================================================== *)

(** A listing query returns a list, or is refused as invalid; either way
    the store is untouched. *)
Lemma prisma_findMany_outcome m args d :
  (∃ l, prisma_findMany m args d = (Returns (VArr l), d))
  ∨ prisma_findMany m args d = invalid d.
Proof. unfold prisma_findMany. repeat case_match; eauto. Qed.

(** C4 at GET /productcomment: the handler sends the identifier
    [productComment], which nothing declares, instead of the [comments] it
    has just fetched.  Whatever the query string and the store, the request
    is answered with an error: 500 "productComment is not defined" when the
    listing query itself went through, 400 when the store refused it; a
    list of comments is never sent. *)
Theorem get_productcomment_never_lists q b t u w :
  ∃ r,
    answered (mkHttp GET ["productcomment"] q b t u) w r
    ∧ db (serve (mkHttp GET ["productcomment"] q b t u) w) = db w
    ∧ (r = StatusSend 500 (msg "productComment is not defined")
       ∨ r = StatusSend 400 (msg "Invalid invocation: argument validation failed")).
Proof.
  unfold answered.
  rewrite (serve_route _ _ _ _ _ _ _ (asyncHandler get_productcomment) ∅)
    by routed.
  unfold asyncHandler, try_catch, get_productcomment, mbind, M_bind, prisma,
    prisma_run, undeclared, throw.
  cbn [db trace now uuid query].
  change ("productComment" +:+ " is not defined")
    with "productComment is not defined".
  destruct (prisma_findMany_outcome ProductComment
              (cursor_page (get q "cursor")
                 (parseInt (get_default q "limit" (VNum (Num 5))))) (db w))
    as [[l ->]| ->].
  - eexists. split; [|split; [|left; reflexivity]].
    + cbn -[object cursor_page responses]. by trace_simpl.
    + reflexivity.
  - eexists. split; [|split; [|right; reflexivity]].
    + cbn -[object cursor_page responses]. by trace_simpl.
    + reflexivity.
Qed.

(** *** Data of a create or an update *)

Lemma defined_lookup (o : obj) k :
  defined o !! k =
  match o !! k with
  | Some VUndefined => None
  | r => r
  end.
Proof.
  unfold defined. rewrite map_lookup_filter.
  destruct (o !! k) as [v|]; [|done]. simpl.
  destruct v; simpl; by rewrite ?option_guard_True, ?option_guard_False.
Qed.

Lemma typed_data_lookup m data typed k :
  typed_data m data = Some typed →
  typed !! k = defined data !! k ≫= coerce_field m k.
Proof.
  unfold typed_data. case_match; [|done]. intros [= <-].
  apply map_lookup_imap.
Qed.

(** A column the data does not give is not in the typed data either. *)
Lemma typed_data_absent m data typed k :
  typed_data m data = Some typed →
  get data k = VUndefined →
  typed !! k = None.
Proof.
  intros Ht Hk. rewrite (typed_data_lookup _ _ _ _ Ht), defined_lookup.
  unfold get in Hk. destruct (data !! k) as [v|]; [|done].
  simpl in Hk. by subst v.
Qed.

(** A comment cannot be created without the key of its article. *)
Lemma create_comment_without_owner tnow tuuid data d :
  get data "articleId" = VUndefined →
  prisma_create tnow tuuid Comment (VObj (object [("data", VObj data)])) d
  = invalid d.
Proof.
  intros H. rewrite create_data.
  destruct (typed_data Comment data) as [typed|] eqn:Ht; [|done].
  assert (Hr : (typed ∪ defaults tnow tuuid Comment d) !! "articleId" = None).
  { rewrite lookup_union_r by (by eapply typed_data_absent). reflexivity. }
  unfold complete. cbn [schema forallb fname]. rewrite Hr.
  rewrite (bool_decide_eq_false_2 (is_Some None)) by (by intros [? ?]).
  by rewrite !andb_false_r.
Qed.

(** C7 at POST /article/:id/comment: the handler reads the path parameter
    [articleId], but the route binds [id]; the owner key it hands to the
    store is therefore [undefined] for every request, whatever the id in
    the path.  The store refuses the record: the request is answered 400
    and no comment is created. *)
Theorem article_comment_owner_is_undefined x q b t u w :
  CreateComment b = None →
  ∃ data,
    data !! "articleId" = Some VUndefined
    ∧ trace (serve (mkHttp POST ["article"; x; "comment"] q b t u) w) =
      trace w ++ [
        Query Comment Create (VObj (object [("data", VObj data)]));
        Response (StatusSend 400
          (msg "Invalid invocation: argument validation failed"))]
    ∧ db (serve (mkHttp POST ["article"; x; "comment"] q b t u) w) = db w.
Proof.
  intros HS. exists (<["articleId" := VUndefined]> (spread b)).
  split; [apply lookup_insert_eq|].
  rewrite (serve_route _ _ _ _ _ _ _ (asyncHandler post_article_id_comment)
             (<["id" := VStr x]> ∅)) by routed.
  unfold asyncHandler, try_catch, post_article_id_comment, mbind, M_bind,
    prisma, prisma_run.
  cbn [params body]. rewrite (assert_passes _ _ _ HS).
  cbn [db trace now uuid]. rewrite get_insert, get_empty.
  cbn [String.eqb Ascii.eqb Bool.eqb].
  rewrite create_comment_without_owner
    by (unfold get; by rewrite lookup_insert_eq).
  unfold invalid. cbn -[object spread]. by rewrite <- app_assoc.
Qed.

(** The sibling route, POST /product/:id/comment, reads [id] and hands the
    id of the path to the store. *)
Lemma product_comment_owner_is_path_id x q b t u w :
  ∃ data rest,
    data !! "productId" = Some (VStr x)
    ∧ trace (serve (mkHttp POST ["product"; x; "comment"] q b t u) w) =
      trace w ++
      Query ProductComment Create (VObj (object [("data", VObj data)])) :: rest.
Proof.
  exists (<["productId" := VStr x]> (spread b)).
  rewrite (serve_route _ _ _ _ _ _ _ (asyncHandler post_product_id_comment)
             (<["id" := VStr x]> ∅)) by routed.
  unfold asyncHandler, try_catch, post_product_id_comment, mbind, M_bind,
    prisma.
  cbn [params body db trace now uuid]. rewrite get_insert.
  cbn [String.eqb Ascii.eqb Bool.eqb].
  destruct (prisma_run _ _ _ _ _ _) as [[v|e] d].
  - exists [Response (StatusSend 201 v)]. split; [apply lookup_insert_eq|].
    cbn -[object spread]. by rewrite <- app_assoc.
  - exists [Response (error_reply e)]. split; [apply lookup_insert_eq|].
    unfold error_reply, res.status_send, res.sendStatus, emit.
    repeat case_match; cbn -[object spread]; by rewrite <- app_assoc.
Qed.

(* ===================================================================== *)
(** ** Numbers in the query string *)
(* ===================================================================== *)

(** The texts that denote no number. *)
Definition non_numeric (v : value) : Prop :=
  ∃ s, v = VStr s ∧ is_numeric_literal s = false.

(** [Number] reads them as NaN. *)
Lemma non_numeric_NaN v : non_numeric v → Number_ v = NaN.
Proof.
  intros (s & -> & H). cbn [Number_].
  unfold is_numeric_literal, radix_literal in H. unfold StringToNumber.
  destruct (trim _) as [|c l]; [done|].
  apply orb_false_iff in H as [Hr Hd].
  destruct (radix_value (c :: l)) as [z|].
  - by rewrite bool_decide_eq_true_2 in Hr by by eexists.
  - by rewrite Hd.
Qed.

(** *** A safe integer, printed and parsed *)

(** The integers no rounding touches. *)
Definition safe (z : Z) : Prop := 0 ≤ z < 2 ^ 53.

Lemma to_double_safe z : Z.abs z ≤ 2 ^ 53 → to_double z = Num z.
Proof.
  intros H. unfold to_double. by destruct (Z.leb_spec (Z.abs z) (2 ^ 53)); [|lia].
Qed.

Lemma digit_digit_char d : 0 ≤ d ≤ 9 → digit (digit_char d) = Some d.
Proof.
  intros H.
  assert (d = 0 ∨ d = 1 ∨ d = 2 ∨ d = 3 ∨ d = 4 ∨ d = 5 ∨ d = 6 ∨ d = 7
          ∨ d = 8 ∨ d = 9) as Hd by lia.
  repeat (destruct Hd as [->|Hd]; [reflexivity|]). by subst.
Qed.

Lemma read_digits_digit_chars ds acc :
  Forall (λ d, 0 ≤ d ≤ 9) ds →
  read_digits digit 10 acc (digit_char <$> ds) =
  (match ds with
   | [] => acc
   | _ => Some (foldl (λ a d, a * 10 + d) (default 0 acc) ds)
   end, []).
Proof.
  intros H. revert acc. induction H as [|d ds Hd _ IH]; intros acc; [done|].
  cbn [fmap list_fmap read_digits foldl]. rewrite (digit_digit_char d Hd), IH.
  by destruct ds.
Qed.

Lemma digits_le_digits fuel n :
  0 ≤ n → Forall (λ d, 0 ≤ d ≤ 9) (digits_le fuel n).
Proof.
  revert n. induction fuel as [|f IH]; intros n Hn; [constructor|].
  cbn [digits_le]. constructor.
  - pose proof (Z.mod_pos_bound n 10). lia.
  - destruct (n <? 10); [constructor|]. apply IH. by apply Z.div_pos.
Qed.

Lemma digits_le_value fuel n :
  0 ≤ n < 2 ^ Z.of_nat fuel →
  foldl (λ a d, a * 10 + d) 0 (reverse (digits_le fuel n)) = n.
Proof.
  revert n. induction fuel as [|f IH]; intros n Hn.
  - change (2 ^ Z.of_nat 0) with 1 in Hn. cbn. lia.
  - cbn [digits_le]. rewrite reverse_cons, foldl_app. cbn [foldl].
    destruct (Z.ltb_spec n 10).
    + cbn. rewrite Z.mod_small by lia. lia.
    + rewrite IH.
      * pose proof (Z.div_mod n 10). lia.
      * rewrite Nat2Z.inj_succ, Z.pow_succ_r in Hn by lia.
        split; [by apply Z.div_pos; lia|].
        apply Z.div_lt_upper_bound; lia.
Qed.

Lemma log2_fuel n : 0 ≤ n → n < 2 ^ Z.of_nat (S (Z.to_nat (Z.log2 n))).
Proof.
  intros Hn. rewrite Nat2Z.inj_succ, Z2Nat.id by apply Z.log2_nonneg.
  destruct (Z.eq_dec n 0) as [->|]; [done|].
  apply Z.log2_spec. lia.
Qed.

(** The digits of a natural number read back as the number. *)
Lemma read_digits_decimal n :
  0 ≤ n → read_digits digit 10 None (decimal n) = (Some n, []).
Proof.
  intros Hn. unfold decimal.
  rewrite read_digits_digit_chars
    by by apply Forall_reverse, digits_le_digits.
  cbn [default]. rewrite digits_le_value by (split; [done|by apply log2_fuel]).
  destruct (reverse _) eqn:E; [|done].
  apply (f_equal length) in E. rewrite length_reverse in E. by destruct n.
Qed.

Lemma decimal_head n :
  0 ≤ n → ∃ c l, decimal n = c :: l ∧ is_Some (digit c)
                 ∧ Forall (λ x, is_Some (digit x)) l.
Proof.
  intros Hn. unfold decimal.
  pose proof (digits_le_digits (S (Z.to_nat (Z.log2 n))) n Hn) as H.
  apply Forall_reverse in H.
  destruct (reverse _) as [|d ds] eqn:E.
  { apply (f_equal length) in E. by rewrite length_reverse in E. }
  apply Forall_cons in H as [Hd Hds].
  exists (digit_char d), (digit_char <$> ds). split; [done|].
  split; [rewrite digit_digit_char by done; by eexists|].
  apply Forall_fmap. eapply Forall_impl; [exact Hds|].
  intros x Hx. cbn. rewrite digit_digit_char by done. by eexists.
Qed.

(** A text that starts with a digit starts with no white space, no sign
    and no [0x]. *)
Lemma digit_bounds c : is_Some (digit c) → 48 ≤ byte c ≤ 57.
Proof.
  unfold digit. intros [d H].
  destruct (Z.leb_spec 48 (byte c)), (Z.leb_spec (byte c) 57); simpl in H;
    (done || lia).
Qed.

Lemma skip_spaces_digit c l : is_Some (digit c) → skip_spaces (c :: l) = c :: l.
Proof.
  intros H. apply digit_bounds in H.
  unfold skip_spaces. cbn [length skip_spaces_on].
  assert (space_width (c :: l) = 0%nat) as ->; [|done].
  unfold space_width.
  repeat match goal with
         | |- context [?a <=? ?b] => destruct (Z.leb_spec a b); try lia
         | |- context [?a =? ?b] => destruct (Z.eqb_spec a b); try lia
         end; cbn [andb orb]; by repeat case_match.
Qed.

Lemma split_sign_digit c l : is_Some (digit c) → split_sign (c :: l) = (1, c :: l).
Proof.
  destruct c as [[] [] [] [] [] [] [] []]; try reflexivity;
    intros [d H]; discriminate H.
Qed.

Lemma hex_prefix_digits c l :
  Forall (λ x, is_Some (digit x)) l → hex_prefix (c :: l) = None.
Proof.
  intros H. unfold hex_prefix.
  destruct l as [|x l]; [by repeat case_match|].
  apply Forall_cons in H as [[d Hx] _].
  rewrite bool_decide_eq_false_2; [by repeat case_match|].
  intros [-> | ->]; discriminate Hx.
Qed.

(** [parseInt] of a safe integer is that integer: its text is its digits,
    and they are read back. *)
Lemma parseInt_safe z : safe z → parseInt (VNum (Num z)) = Num z.
Proof.
  intros [H0 H1]. unfold parseInt, parseInt_string. cbn [ToString number_to_string].
  destruct (Z.ltb_spec z 0); [lia|]. cbn [app].
  rewrite Z.abs_eq by done.
  destruct (Z.ltb_spec z (2 ^ 53)); [|lia].
  rewrite String.list_ascii_of_string_of_list_ascii.
  destruct (decimal_head z H0) as (c & l & E & Hc & Hl).
  pose proof (read_digits_decimal z H0) as Hr. rewrite E in Hr |- *.
  rewrite app_nil_l.
  rewrite skip_spaces_digit, split_sign_digit, hex_prefix_digits, Hr by done.
  rewrite Z.mul_1_l. apply to_double_safe. lia.
Qed.

(** *** The page arithmetic on safe integers *)

Lemma num_sub_safe x y :
  Z.abs (x - y) ≤ 2 ^ 53 → num_sub (Num x) (Num y) = Num (x - y).
Proof. intros H. cbn [num_sub]. by apply to_double_safe. Qed.

Lemma num_mul_safe x y :
  Z.abs (x * y) ≤ 2 ^ 53 → num_mul (Num x) (Num y) = Num (x * y).
Proof. intros H. cbn [num_mul]. by apply to_double_safe. Qed.
(* ===================================================================== *)
(** ** Filters and orders written as literals *)
(* ===================================================================== *)

Lemma defined_empty : map_to_list (defined (object [])) = [].
Proof.
  unfold defined, object. simpl. by rewrite map_filter_empty, map_to_list_empty.
Qed.

Lemma order_of_object m k d :
  order_of m (VObj (object [(k, VStr d)])) =
  match ftyp <$> field_of m k with
  | Some TInt | Some TDateTime =>
      if String.eqb d "desc" then Some (Some (k, Desc))
      else if String.eqb d "asc" then Some (Some (k, Asc))
      else None
  | _ => None
  end.
Proof. unfold order_of. by rewrite defined_single. Qed.

Lemma valid_contains m c kw :
  valid_field_cond m c (VObj (object [("contains", VStr kw)])) =
  match ftyp <$> field_of m c with Some TString => true | _ => false end.
Proof.
  unfold valid_field_cond. rewrite defined_single by done.
  destruct (field_of m c) as [f|]; [|done]. simpl. by destruct (ftyp f).
Qed.

Lemma valid_conds_single m c v :
  is_undefined v = false →
  valid_conds m (VObj (object [(c, v)])) = valid_field_cond m c v.
Proof.
  intros H. unfold valid_conds. rewrite defined_single by done.
  simpl. by rewrite andb_true_r.
Qed.

Lemma valid_where_or m l :
  valid_where m (VObj (object [("OR", VArr l)])) = forallb (valid_conds m) l.
Proof.
  unfold valid_where. rewrite defined_single by done.
  simpl. by rewrite andb_true_r.
Qed.

Lemma eval_conds_single row c v :
  is_undefined v = false →
  eval_conds row (VObj (object [(c, v)])) = eval_field_cond row c v.
Proof.
  intros H. unfold eval_conds. rewrite defined_single by done.
  simpl. by rewrite andb_true_r.
Qed.

Lemma eval_where_or row l :
  eval_where (VObj (object [("OR", VArr l)])) row = existsb (eval_conds row) l.
Proof.
  unfold eval_where. rewrite defined_single by done.
  simpl. by rewrite andb_true_r.
Qed.

(* ===================================================================== *)
(** ** Listing: order *)
(* ===================================================================== *)

(** Every order keyword but ["fovorite"] gives newest first. *)
Lemma products_orderBy_default order :
  is_str order "fovorite" = false →
  products_orderBy order = VObj (object [("createdAt", VStr "desc")]).
Proof. intros H. unfold products_orderBy. rewrite H. by case_match. Qed.

Lemma article_orderBy_default order :
  is_str order "oldest" = false →
  article_orderBy order = VObj (object [("createdAt", VStr "desc")]).
Proof. intros H. unfold article_orderBy. rewrite H. by case_match. Qed.

(** C3 at GET /products?order=favorite: the [switch] spells its case
    ["fovorite"], so the keyword ["favorite"] falls to the default and the
    products come newest first.  On the sample shop, whose older product
    (the lamp) is the more liked one, the desk is listed before the lamp. *)
Theorem favorite_order_is_by_date :
  products_orderBy (VStr "favorite") = VObj (object [("createdAt", VStr "desc")])
  ∧ products_orderBy (VStr "fovorite") = VObj (object [("favoriteCount", VStr "desc")])
  ∧ responses (trace (serve
      (Sample.request_to GET ["products"] [("order", VStr "favorite")] VUndefined)
      (mkWorld Sample.shop [] 0 ""))) =
    [StatusSend 200 (VObj (object [
       ("totalCount", VNum (Num 2));
       ("products", VArr [VObj (Sample.product 2 "desk" "new" 1 20);
                          VObj (Sample.product 1 "lamp" "old" 9 10)])]))]
  ∧ sort_key (get (Sample.product 2 "desk" "new" 1 20) "favoriteCount")
    < sort_key (get (Sample.product 1 "lamp" "old" 9 10) "favoriteCount").
Proof. repeat split; vm_compute; reflexivity. Qed.

(* ===================================================================== *)
(** ** Listing: pages *)
(* ===================================================================== *)

(** The window of page [p] (counted from 1) with [s] records a page. *)
Definition page_window {A} (p s : Z) (l : list A) : list A :=
  take (Z.to_nat s) (drop (Z.to_nat ((p - 1) * s)) l).

(** The page a request asks for: page [p], when what is given for the
    page reads as the integer [p], from 1 on; page 1, when it reads as 0
    or as no number at all, as it does when no page is given. *)
Definition page_asked (page : value) (p : Z) : Prop :=
  (Number_ page = NaN ∨ Number_ page = Num 0) ∧ p = 1
  ∨ Number_ page = Num p ∧ 1 ≤ p.

(** The page size a request asks for, likewise: 10 when what is given
    reads as 0 or as no number at all. *)
Definition size_asked (pageSize : value) (s : Z) : Prop :=
  (Number_ pageSize = NaN ∨ Number_ pageSize = Num 0) ∧ s = 10
  ∨ Number_ pageSize = Num s ∧ 1 ≤ s.

(** A window whose two bounds are safe integers: no rounding touches
    them, and they are within the integers of the store. *)
Definition safe_window (p s : Z) : Prop :=
  (p - 1) * s < 2 ^ 53 ∧ s < 2 ^ 53.

Lemma page_asked_absent p : page_asked VUndefined p ↔ p = 1.
Proof.
  split; [|intros ->; left; by split; [left|]].
  by intros [[_ ->]|[[=] _]].
Qed.

Lemma size_asked_absent s : size_asked VUndefined s ↔ s = 10.
Proof.
  split; [|intros ->; left; by split; [left|]].
  by intros [[_ ->]|[[=] _]].
Qed.

Lemma pageNum_asked page p :
  page_asked page p → pageNum page = VNum (Num p) ∧ 1 ≤ p.
Proof.
  unfold pageNum, or_else.
  intros [[[-> | ->] ->]|[-> H]]; [done..|].
  split; [|done]. cbn [truthy]. by destruct (Z.eqb_spec p 0); [lia|].
Qed.

Lemma pageSizeNum_asked pageSize s :
  size_asked pageSize s → pageSizeNum pageSize = VNum (Num s) ∧ 1 ≤ s.
Proof.
  unfold pageSizeNum, or_else.
  intros [[[-> | ->] ->]|[-> H]]; [done..|].
  split; [|done]. cbn [truthy]. by destruct (Z.eqb_spec s 0); [lia|].
Qed.

Lemma skipInt_safe p s :
  1 ≤ p → 1 ≤ s → safe_window p s →
  parseInt (skipInt (VNum (Num p)) (VNum (Num s))) = Num ((p - 1) * s).
Proof.
  intros Hp Hs [Hw _]. unfold skipInt. cbn [as_number].
  rewrite num_sub_safe by nia. rewrite num_mul_safe by nia.
  apply parseInt_safe. split; nia.
Qed.

Lemma int64_safe n : safe n → int64 n = true.
Proof.
  intros [H0 H1]. unfold int64.
  destruct (Z.leb_spec (- 2 ^ 63) n), (Z.ltb_spec n (2 ^ 63)); (done || lia).
Qed.

(** The query of a page-mode listing, without and with a [select]. *)
Lemma findMany_page m W O o sk tk d :
  order_of m O = Some o →
  valid_where m W = true →
  safe sk → safe tk →
  prisma_findMany m (VObj (object [
    ("where", W); ("orderBy", O);
    ("skip", VNum (Num sk)); ("take", VNum (Num tk))])) d =
  (Returns (VArr (VObj <$>
     window o None sk (Some tk) (sorted_by o (matching W (rows_of m d))))), d).
Proof.
  intros Ho Hw Hsk Htk. unfold prisma_findMany.
  rewrite args_of_object by reflexivity. read_literal.
  rewrite Ho, Hw. cbn [skip_of take_of cursor_of select_of].
  rewrite !int64_safe by done.
  destruct Hsk as [Hsk _]. by destruct (Z.leb_spec 0 sk); [|lia].
Qed.

(** The columns GET /products selects. *)
Definition products_select : obj :=
  object [
    ("id", VBool true); ("name", VBool true); ("description", VBool true);
    ("price", VBool true); ("tags", VBool true);
    ("favoriteCount", VBool true); ("createdAt", VBool true)].

Lemma findMany_page_select W O o sk tk d :
  order_of Product O = Some o →
  valid_where Product W = true →
  safe sk → safe tk →
  prisma_findMany Product (VObj (object [
    ("where", W); ("orderBy", O);
    ("skip", VNum (Num sk)); ("take", VNum (Num tk));
    ("select", VObj products_select)])) d =
  (Returns (VArr (VObj ∘ project (Some products_select) <$>
     window o None sk (Some tk) (sorted_by o (matching W (products d))))), d).
Proof.
  intros Ho Hw Hsk Htk. unfold prisma_findMany, products_select.
  rewrite args_of_object by reflexivity. read_literal.
  rewrite select_of_object by done.
  rewrite Ho, Hw. cbn [skip_of take_of cursor_of].
  rewrite !int64_safe by done.
  destruct Hsk as [Hsk _]. by destruct (Z.leb_spec 0 sk); [|lia].
Qed.

Lemma count_where m W d :
  valid_where m W = true →
  prisma_count m (VObj (object [("where", W)])) d =
  (Returns (VNum (Num (Z.of_nat (length (matching W (rows_of m d)))))), d).
Proof.
  intros Hw. unfold prisma_count.
  rewrite args_of_object by reflexivity. read_literal. by rewrite Hw.
Qed.

Lemma window_page o p s (l : list obj) :
  0 ≤ s → window o None ((p - 1) * s) (Some s) l = page_window p s l.
Proof.
  intros Hs. unfold window, page_window, from_cursor.
  by destruct (Z.leb_spec 0 s); [|lia].
Qed.

(** The direction [orderBy] stands for, on either listing. *)
Lemma order_of_article order :
  order_of Article (article_orderBy order) =
  Some (Some ("createdAt", if is_str order "oldest" then Asc else Desc)).
Proof.
  unfold article_orderBy.
  destruct (is_str order "oldest"), (is_str order "recent");
    by rewrite order_of_object.
Qed.

Lemma order_of_products order :
  order_of Product (products_orderBy order) =
  Some (Some (if is_str order "fovorite" then ("favoriteCount", Desc)
              else ("createdAt", Desc))).
Proof.
  unfold products_orderBy.
  destruct (is_str order "fovorite"), (is_str order "recent");
    by rewrite order_of_object.
Qed.

(** A textual keyword makes a valid filter, on either listing. *)
Lemma valid_where_article k :
  valid_where Article (article_searchQuery (VStr k)) = true.
Proof.
  unfold article_searchQuery. destruct (truthy (VStr k)).
  - rewrite valid_where_or. cbn [forallb].
    by rewrite !valid_conds_single, !valid_contains.
  - unfold valid_where. by rewrite defined_empty.
Qed.

Lemma valid_where_products k :
  valid_where Product (products_searchQuery (VStr k)) = true.
Proof.
  unfold products_searchQuery. rewrite valid_where_or. cbn [forallb].
  by rewrite !valid_conds_single, !valid_contains.
Qed.

(** The records a listing ranges over: those its filter keeps, in its
    order. *)
Definition article_listing (q : obj) (d : DB) : list obj :=
  sorted_by
    (Some ("createdAt",
           if is_str (get_default q "order" (VStr "recent")) "oldest"
           then Asc else Desc))
    (matching (article_searchQuery (get_default q "keyword" (VStr "")))
       (articles d)).

Definition products_listing (q : obj) (d : DB) : list obj :=
  sorted_by
    (Some (if is_str (get_default q "order" (VStr "recent")) "fovorite"
           then ("favoriteCount", Desc) else ("createdAt", Desc)))
    (matching (products_searchQuery (get_default q "keyword" (VStr "")))
       (products d)).

(** The keyword of the query string is text, or is not given. *)
Definition textual_keyword (q : obj) : Prop :=
  ∃ k, get_default q "keyword" (VStr "") = VStr k.

(** GET /article, asked for page [p] with [s] records a page. *)
Lemma get_article_run ps q b w p s :
  textual_keyword q →
  page_asked (get q "page") p →
  size_asked (get q "pageSize") s →
  safe_window p s →
  ∃ a,
    asyncHandler get_article (mkReq ps q b) w =
    (Returns tt,
     mkWorld (db w)
       (trace w ++ [
          Query Article FindMany a;
          Response (StatusSend 200 (VArr (VObj <$>
            page_window p s (article_listing q (db w)))))])
       (now w) (uuid w)).
Proof.
  intros [k Hk] Hp Hs Hw. eexists.
  apply pageNum_asked in Hp as [Ep Hp].
  apply pageSizeNum_asked in Hs as [Es Hs].
  unfold asyncHandler, try_catch, get_article, mbind, M_bind, prisma,
    prisma_run. cbn [query].
  rewrite Hk, Ep, Es, skipInt_safe by done.
  rewrite parseInt_safe by (destruct Hw; split; lia).
  rewrite (findMany_page Article _ _ _ _ _ _ (order_of_article _)
             (valid_where_article k))
    by (destruct Hw; split; nia).
  rewrite window_page by lia.
  unfold res.send, emit, article_listing. rewrite Hk.
  cbn [db trace now uuid fst snd]. by rewrite <- app_assoc.
Qed.

(** GET /products, likewise; the count is that of the filtered records. *)
Lemma get_products_run ps q b w p s :
  textual_keyword q →
  page_asked (get q "page") p →
  size_asked (get q "pageSize") s →
  safe_window p s →
  ∃ a a',
    asyncHandler get_products (mkReq ps q b) w =
    (Returns tt,
     mkWorld (db w)
       (trace w ++ [
          Query Product FindMany a;
          Query Product Count a';
          Response (StatusSend 200 (VObj (object [
            ("totalCount", VNum (Num (Z.of_nat (length
               (matching
                  (products_searchQuery (get_default q "keyword" (VStr "")))
                  (products (db w)))))));
            ("products", VArr (VObj ∘ project (Some products_select) <$>
               page_window p s (products_listing q (db w))))])))])
       (now w) (uuid w)).
Proof.
  intros [k Hk] Hp Hs Hw. do 2 eexists.
  apply pageNum_asked in Hp as [Ep Hp].
  apply pageSizeNum_asked in Hs as [Es Hs].
  unfold asyncHandler, try_catch, get_products, mbind, M_bind, prisma,
    prisma_run. cbn [query].
  rewrite Hk, Ep, Es, skipInt_safe by done.
  rewrite parseInt_safe by (destruct Hw; split; lia).
  fold products_select.
  rewrite (findMany_page_select _ _ _ _ _ _ (order_of_products _)
             (valid_where_products k))
    by (destruct Hw; split; nia).
  rewrite window_page by lia. cbn [db trace now uuid].
  rewrite (count_where Product _ _ (valid_where_products k)).
  unfold res.send, emit, products_listing. rewrite Hk.
  cbn [db trace now uuid fst snd rows_of]. by rewrite <- !app_assoc.
Qed.

(** C5, as the code has it: a page-mode listing of articles or products,
    asked for page [p] with [s] records a page, answers 200 with the
    records of the filtered, sorted set after the first [(p - 1) * s],
    [s] of them at most.  The page is what [Number] reads in the [page]
    of the query string, when that is an integer from 1 on, and 1 when it
    is 0 or no number, as when no page is given; the page size likewise,
    with 10 for 1: a page size of 0 lists ten records, not none.  This
    holds while [(p - 1) * s] and [s] are safe integers (below 2^53) and
    the keyword is text or absent.  For page 2 of size 5 the window is the
    records 6 to 10. *)
Theorem page_window_of_listing ps q b w p s :
  textual_keyword q →
  page_asked (get q "page") p →
  size_asked (get q "pageSize") s →
  safe_window p s →
  (∃ a,
     asyncHandler get_article (mkReq ps q b) w =
     (Returns tt,
      mkWorld (db w)
        (trace w ++ [
           Query Article FindMany a;
           Response (StatusSend 200 (VArr (VObj <$>
             take (Z.to_nat s) (drop (Z.to_nat ((p - 1) * s))
               (article_listing q (db w))))))])
        (now w) (uuid w)))
  ∧ (∃ a a' n,
     asyncHandler get_products (mkReq ps q b) w =
     (Returns tt,
      mkWorld (db w)
        (trace w ++ [
           Query Product FindMany a;
           Query Product Count a';
           Response (StatusSend 200 (VObj (object [
             ("totalCount", VNum (Num n));
             ("products", VArr (VObj ∘ project (Some products_select) <$>
                take (Z.to_nat s) (drop (Z.to_nat ((p - 1) * s))
                  (products_listing q (db w)))))])))])
        (now w) (uuid w)))
  ∧ (get q "page" = VUndefined ∨ Number_ (get q "page") = Num 0 → p = 1)
  ∧ (get q "pageSize" = VUndefined ∨ Number_ (get q "pageSize") = Num 0 →
     s = 10)
  ∧ (p = 2 → s = 5 →
     ∀ l : list obj,
       take (Z.to_nat s) (drop (Z.to_nat ((p - 1) * s)) l) = take 5 (drop 5 l)).
Proof.
  intros Hk Hp Hs Hw.
  split; [|split; [|split; [|split]]].
  - destruct (get_article_run ps q b w p s Hk Hp Hs Hw) as [a Ha].
    exists a. exact Ha.
  - destruct (get_products_run ps q b w p s Hk Hp Hs Hw) as (a & a' & Ha).
    exists a, a'. eexists. exact Ha.
  - unfold page_asked in Hp.
    intros [E|E]; rewrite E in Hp; destruct Hp as [[_ ->]|[Hp Hp1]];
      try done; cbn [Number_] in Hp; simplify_eq; lia.
  - unfold size_asked in Hs.
    intros [E|E]; rewrite E in Hs; destruct Hs as [[_ ->]|[Hs Hs1]];
      try done; cbn [Number_] in Hs; simplify_eq; lia.
  - by intros -> ->.
Qed.

(* ===================================================================== *)
(** ** Listing: the keyword *)
(* ===================================================================== *)

(** [kw] occurs in [s], with its letters as they are. *)
Definition occurs_in (kw s : string) : Prop :=
  ∃ pre post, s = pre +:+ kw +:+ post.

Lemma starts_with_spec kw s :
  starts_with kw s = true ↔ ∃ post, s = kw +:+ post.
Proof.
  revert s. induction kw as [|a kw IH]; intros s; simpl.
  - split; [eauto|done].
  - destruct s as [|c s].
    + split; [done|]. intros [post [=]].
    + rewrite andb_true_iff, IH, Ascii.eqb_eq. split.
      * intros [-> [post ->]]. by exists post.
      * intros [post [= -> ->]]. eauto.
Qed.

Lemma contains_spec kw s : contains kw s = true ↔ occurs_in kw s.
Proof.
  unfold occurs_in. induction s as [|c s IH].
  - simpl. rewrite orb_false_r, starts_with_spec. split.
    + intros [post H]. by exists "", post.
    + intros ([|??] & post & H); [eauto|done].
  - cbn [contains]. rewrite orb_true_iff, starts_with_spec, IH. split.
    + intros [[post H]|(pre & post & H)].
      * by exists "", post.
      * exists (String c pre), post. simpl. by rewrite H.
    + intros ([|c' pre] & post & H).
      * left. by exists post.
      * right. injection H as -> H. eauto.
Qed.

Lemma contains_empty s : contains "" s = true.
Proof. by destruct s. Qed.

(** The [contains] test on the value of a column. *)
Definition text_has (kw : string) (v : value) : bool :=
  match v with VStr s => contains kw s | _ => false end.

Lemma eval_contains row c kw :
  eval_field_cond row c (VObj (object [("contains", VStr kw)])) =
  text_has kw (get row c).
Proof. reflexivity. Qed.

(** What the two filters test on a record. *)
Lemma eval_products_searchQuery kw row :
  eval_where (products_searchQuery (VStr kw)) row =
  text_has kw (get row "name") || text_has kw (get row "description").
Proof.
  unfold products_searchQuery. rewrite eval_where_or. cbn [existsb].
  by rewrite !eval_conds_single, !eval_contains, orb_false_r.
Qed.

Lemma eval_article_searchQuery kw row :
  eval_where (article_searchQuery (VStr kw)) row =
  if String.eqb kw "" then true
  else text_has kw (get row "content") || text_has kw (get row "title").
Proof.
  unfold article_searchQuery. cbn [truthy].
  destruct (String.eqb kw ""); cbn [negb].
  - unfold eval_where. by rewrite defined_empty.
  - rewrite eval_where_or. cbn [existsb].
    by rewrite !eval_conds_single, !eval_contains, orb_false_r.
Qed.

(** The text columns each listing searches. *)
Definition searched_columns : list ((value → value) * string * string) := [
  (products_searchQuery, "name", "description");
  (article_searchQuery, "title", "content")
].

(** C6: on either listing, a record whose two searched columns hold text
    passes the keyword filter exactly when the keyword occurs, letter for
    letter, in one of the two columns (name or description of a product,
    title or content of an article); the empty keyword, and so a request
    without keyword, passes every record. *)
Theorem keyword_filter_is_substring searchQuery c1 c2 kw row s1 s2 :
  (searchQuery, c1, c2) ∈ searched_columns →
  get row c1 = VStr s1 →
  get row c2 = VStr s2 →
  (eval_where (searchQuery (VStr kw)) row = true
   ↔ occurs_in kw s1 ∨ occurs_in kw s2)
  ∧ eval_where (searchQuery (VStr "")) row = true
  ∧ eval_where (searchQuery (get_default ∅ "keyword" (VStr ""))) row = true.
Proof.
  intros Hin H1 H2. unfold searched_columns in Hin.
  repeat (apply elem_of_cons in Hin as [[= -> -> ->]|Hin]);
    [| |by apply elem_of_nil in Hin].
  - change (get_default ∅ "keyword" (VStr "")) with (VStr "").
    rewrite !eval_products_searchQuery, H1, H2. cbn [text_has].
    rewrite !contains_empty, orb_true_iff, !contains_spec. done.
  - change (get_default ∅ "keyword" (VStr "")) with (VStr "").
    rewrite !eval_article_searchQuery, H1, H2. cbn [text_has String.eqb].
    split; [|done].
    destruct (String.eqb_spec kw "") as [->|Hne].
    + split; [|done]. intros _. left. by exists "", s1.
    + rewrite orb_true_iff, !contains_spec. tauto.
Qed.


(* ===================================================================== *)
(** ** Listing: what the order gives *)
(* ===================================================================== *)

#[export] Instance ordered_total k d : Total (ordered k d).
Proof. intros r1 r2. destruct d; unfold ordered; lia. Qed.

#[export] Instance ordered_trans k d : Transitive (ordered k d).
Proof. intros r1 r2 r3. destruct d; unfold ordered; lia. Qed.

Lemma sorted_by_sorted k d l :
  StronglySorted (ordered k d) (sorted_by (Some (k, d)) l).
Proof. apply StronglySorted_merge_sort; apply _. Qed.

Lemma sorted_by_perm o l : sorted_by o l ≡ₚ l.
Proof.
  destruct o as [[k d]|]; [|done]. apply merge_sort_Permutation.
Qed.

Lemma StronglySorted_take {A} (R : relation A) n l :
  StronglySorted R l → StronglySorted R (take n l).
Proof.
  intros H. rewrite <- (take_drop n l) in H.
  by apply StronglySorted_app_1_l in H.
Qed.

Lemma StronglySorted_drop {A} (R : relation A) n l :
  StronglySorted R l → StronglySorted R (drop n l).
Proof.
  intros H. rewrite <- (take_drop n l) in H.
  by apply StronglySorted_app_1_r in H.
Qed.

(** Every page of a listing is in the order of the listing: newest first
    for articles unless the order is "oldest", newest first for products
    unless the order is "fovorite". *)
Lemma article_page_newest_first q d p s :
  is_str (get_default q "order" (VStr "recent")) "oldest" = false →
  StronglySorted (ordered "createdAt" Desc)
    (page_window p s (article_listing q d)).
Proof.
  intros H. unfold page_window, article_listing. rewrite H.
  apply StronglySorted_take, StronglySorted_drop, sorted_by_sorted.
Qed.

Lemma products_page_newest_first q d p s :
  is_str (get_default q "order" (VStr "recent")) "fovorite" = false →
  StronglySorted (ordered "createdAt" Desc)
    (page_window p s (products_listing q d)).
Proof.
  intros H. unfold page_window, products_listing. rewrite H.
  apply StronglySorted_take, StronglySorted_drop, sorted_by_sorted.
Qed.

(** The records of a listing are those its filter keeps. *)
Lemma article_listing_perm q d :
  article_listing q d ≡ₚ
  matching (article_searchQuery (get_default q "keyword" (VStr "")))
    (articles d).
Proof. apply sorted_by_perm. Qed.

Lemma products_listing_perm q d :
  products_listing q d ≡ₚ
  matching (products_searchQuery (get_default q "keyword" (VStr "")))
    (products d).
Proof. apply sorted_by_perm. Qed.
(* ===================================================================== *)
(** ** Inputs that are not numbers *)
(* ===================================================================== *)

(** A [take] that is not a number is refused by the store. *)
Lemma findMany_cursor_page_NaN m cursor d :
  prisma_findMany m (cursor_page cursor NaN) d = invalid d.
Proof.
  unfold prisma_findMany, cursor_page.
  rewrite args_of_object by reflexivity. read_literal.
  cbn [take_of]. by repeat case_match.
Qed.

(** GET /comment starts with the listing query, whose [take] is the parsed
    limit. *)
Lemma get_comment_query ps q b w :
  ∃ rest,
    trace (asyncHandler get_comment (mkReq ps q b) w).2 =
    trace w ++
    Query Comment FindMany
      (cursor_page (get q "cursor")
         (parseInt (get_default q "limit" (VNum (Num 5))))) :: rest.
Proof.
  unfold asyncHandler, try_catch, get_comment, mbind, M_bind, prisma.
  cbn [query db trace now uuid].
  destruct (prisma_run _ _ _ _ _ _) as [[v|e] d].
  - exists [Response (StatusSend 200 v)]. cbn -[cursor_page].
    by rewrite <- app_assoc.
  - exists [Response (error_reply e)].
    unfold error_reply, res.status_send, res.sendStatus, emit.
    repeat case_match; cbn -[object cursor_page]; by rewrite <- app_assoc.
Qed.

(** [Number(x) || d] on a text that denotes no number. *)
Lemma non_numeric_defaults v :
  non_numeric v → pageNum v = VNum (Num 1) ∧ pageSizeNum v = VNum (Num 10).
Proof.
  intros H. apply non_numeric_NaN in H.
  unfold pageNum, pageSizeNum, or_else. by rewrite H.
Qed.

(** C9, as the code has it.  On the page-mode listings what is given for
    the page or for the page size, when it is a text that denotes no
    number, counts as page 1 and as size 10, whatever else the request
    holds; and when the keyword is text or absent and the other input is
    absent, no number either, 0, or an integer from 1 on (the window
    staying among the safe integers), the request is answered 200 with the
    window these values give.  The cursor-mode limit is another matter: it
    is 5 only when no limit is given; a limit that does not start with a
    number is parsed to NaN and handed to the store as it is, which
    refuses the query, so that the request is answered 400. *)
Theorem non_numeric_page_inputs ps q b w :
  (∀ v, non_numeric v →
     pageNum v = VNum (Num 1) ∧ pageSizeNum v = VNum (Num 10))
  ∧ (∀ p s,
       textual_keyword q →
       non_numeric (get q "page") ∧ p = 1 ∨ page_asked (get q "page") p →
       non_numeric (get q "pageSize") ∧ s = 10
       ∨ size_asked (get q "pageSize") s →
       safe_window p s →
       (∃ a,
          asyncHandler get_article (mkReq ps q b) w =
          (Returns tt,
           mkWorld (db w)
             (trace w ++ [
                Query Article FindMany a;
                Response (StatusSend 200 (VArr (VObj <$>
                  page_window p s (article_listing q (db w)))))])
             (now w) (uuid w)))
       ∧ (∃ a a' n,
          asyncHandler get_products (mkReq ps q b) w =
          (Returns tt,
           mkWorld (db w)
             (trace w ++ [
                Query Product FindMany a;
                Query Product Count a';
                Response (StatusSend 200 (VObj (object [
                  ("totalCount", VNum (Num n));
                  ("products", VArr (VObj ∘ project (Some products_select) <$>
                     page_window p s (products_listing q (db w))))])))])
             (now w) (uuid w))))
  ∧ (get q "limit" = VUndefined →
     parseInt (get_default q "limit" (VNum (Num 5))) = Num 5)
  ∧ (∀ s, get q "limit" = VStr s → parseInt_string s = NaN →
     asyncHandler get_comment (mkReq ps q b) w =
     (Returns tt,
      mkWorld (db w)
        (trace w ++ [
           Query Comment FindMany (cursor_page (get q "cursor") NaN);
           Response (StatusSend 400
             (msg "Invalid invocation: argument validation failed"))])
        (now w) (uuid w))).
Proof.
  split; [apply non_numeric_defaults|]. split; [|split].
  - intros p s Hk Hp Hs Hw.
    assert (page_asked (get q "page") p) as Hp'.
    { destruct Hp as [[Hp ->]|Hp]; [|done].
      left. split; [|done]. left. by apply non_numeric_NaN. }
    assert (size_asked (get q "pageSize") s) as Hs'.
    { destruct Hs as [[Hs ->]|Hs]; [|done].
      left. split; [|done]. left. by apply non_numeric_NaN. }
    split; [by apply get_article_run|].
    destruct (get_products_run ps q b w p s Hk Hp' Hs' Hw) as (a & a' & Ha).
    exists a, a'. eexists. exact Ha.
  - intros H. unfold get_default. rewrite H. reflexivity.
  - intros s Hl Hn.
    unfold asyncHandler, try_catch, get_comment, mbind, M_bind, prisma,
      prisma_run. cbn [query db trace now uuid].
    unfold get_default. rewrite Hl. unfold parseInt. cbn [ToString].
    rewrite Hn. rewrite findMany_cursor_page_NaN. finish_run.
Qed.

(* ===================================================================== *)
(** ** Listing by cursor *)
(* ===================================================================== *)

(** All comments, newest first. *)
Definition comments_newest_first (d : DB) : list obj :=
  sorted_by (Some ("createdAt", Desc)) (live (comments d)).

(** The columns the comment listings select. *)
Definition comment_select : obj :=
  object [("id", VBool true); ("content", VBool true);
          ("createdAt", VBool true)].

Lemma matching_all t : matching VUndefined t = live t.
Proof.
  unfold matching. induction (live t) as [|r l IH]; [done|].
  rewrite filter_cons_True by done. by rewrite IH.
Qed.

(** The order of the comment listings. *)
Definition newest_first : option (string * direction) :=
  Some ("createdAt", Desc).

(** The cursor query, for a limit that is a safe integer. *)
Lemma findMany_cursor_page cursor n d :
  safe n →
  (∀ c, cursor = VStr c → c ≠ "") →
  cursor = VUndefined ∨ (∃ c, cursor = VStr c) →
  prisma_findMany Comment (cursor_page cursor (Num n)) d =
  (Returns (VArr (VObj ∘ project (Some comment_select) <$>
     take (Z.to_nat n)
       (match cursor with
        | VStr c =>
            drop 1 (from_cursor newest_first (Some (VStr c))
                      (comments_newest_first d))
        | _ => comments_newest_first d
        end))), d).
Proof.
  intros Hn Hc Hcur. unfold prisma_findMany, cursor_page.
  rewrite args_of_object by reflexivity. read_literal.
  rewrite order_of_object, select_of_object by done.
  cbn [field_of schema List.find fname String.eqb Ascii.eqb Bool.eqb ftyp
       fmap option_fmap option_map take_of].
  rewrite int64_safe by done.
  unfold valid_where, window, comments_newest_first. rewrite matching_all.
  destruct Hn as [Hn _]. destruct (Z.leb_spec 0 n); [|lia].
  destruct Hcur as [->|[c ->]].
  - reflexivity.
  - cbn [truthy]. destruct (String.eqb_spec c "") as [->|_]; [by destruct (Hc "")|].
    cbn [negb skip_of Z.leb Z.compare cursor_of andb int64].
    rewrite where_id_object by done. reflexivity.
Qed.

(** The creation time a record is ordered by. *)
Definition created (r : obj) : Z := sort_key (get r "createdAt").

Lemma filter_none {A} (P : A → Prop) `{∀ x, Decision (P x)} (l : list A) :
  Forall (λ x, ¬ P x) l → filter P l = [].
Proof.
  induction 1 as [|x l Hx _ IH]; [done|]. by rewrite filter_cons_False.
Qed.

Lemma filter_all {A} (P : A → Prop) `{∀ x, Decision (P x)} (l : list A) :
  Forall P l → filter P l = l.
Proof.
  induction 1 as [|x l Hx _ IH]; [done|].
  by rewrite filter_cons_True, IH.
Qed.

(** What a cursor leaves: when the records have creation times of their
    own and the record with the cursor's id is [rc], after the records
    [pre] and before the records [post], what follows the cursor once it
    is skipped is [post]. *)
Lemma after_cursor c pre rc post :
  StronglySorted (ordered "createdAt" Desc) (pre ++ rc :: post) →
  NoDup (created <$> pre ++ rc :: post) →
  same_id (get rc "id") (VStr c) = true →
  Forall (λ r, same_id (get r "id") (VStr c) = false) pre →
  drop 1 (from_cursor newest_first (Some (VStr c)) (pre ++ rc :: post)) = post.
Proof.
  intros Hsort Hdup Hrc Hpre. unfold from_cursor, newest_first.
  assert (list_find (λ r, same_id (get r "id") (VStr c) = true)
            (pre ++ rc :: post) = Some (length pre, rc)) as ->.
  { apply list_find_Some. split; [|split; [done|]].
    - by rewrite list_lookup_middle.
    - intros j y Hj Hlt. rewrite lookup_app_l in Hj by done.
      rewrite Forall_lookup in Hpre. by rewrite (Hpre j y Hj). }
  rewrite filter_app, filter_cons_True by (unfold ordered; lia).
  rewrite filter_none, (filter_all _ post); [done| |].
  - apply StronglySorted_app_1_r, StronglySorted_cons in Hsort as [Hpost _].
    exact Hpost.
  - apply Forall_forall. intros r Hr.
    assert (ordered "createdAt" Desc r rc) as Hle.
    { apply (StronglySorted_app_1_elem_of _ _ _ _ _ Hsort Hr),
        list_elem_of_here. }
    unfold ordered in *. fold (created r) (created rc) in *.
    assert (created r ≠ created rc); [|lia].
    rewrite fmap_app, fmap_cons in Hdup.
    apply NoDup_app in Hdup as (_ & Hd & _). intros E.
    apply (Hd (created r)); [by apply list_elem_of_fmap_2|].
    rewrite E. apply list_elem_of_here.
Qed.

(** The limit GET /comment works with is the number [n]: 5 when no limit
    is given, and what [parseInt] reads in the limit, when that is a safe
    integer. *)
Definition limit_is (q : obj) (n : Z) : Prop :=
  get q "limit" = VUndefined ∧ n = 5
  ∨ parseInt (get q "limit") = Num n ∧ get q "limit" ≠ VUndefined ∧ safe n.

Lemma limit_is_parsed q n :
  limit_is q n →
  parseInt (get_default q "limit" (VNum (Num 5))) = Num n ∧ safe n.
Proof.
  unfold get_default. intros [[-> ->]|(Hp & Hu & Hn)].
  - split; [reflexivity|]. by split.
  - split; [|done]. by destruct (get q "limit").
Qed.

(** GET /comment with a cursor and a numeric limit (5 when none is given):
    the [limit] comments that follow the cursor's comment, newest first,
    the cursor's comment left out; without a cursor, the first [limit]
    comments. *)
Lemma get_comment_run ps q b w n :
  limit_is q n →
  (∀ c, get q "cursor" = VStr c → c ≠ "") →
  get q "cursor" = VUndefined ∨ (∃ c, get q "cursor" = VStr c) →
  ∃ a,
    asyncHandler get_comment (mkReq ps q b) w =
    (Returns tt,
     mkWorld (db w)
       (trace w ++ [
          Query Comment FindMany a;
          Response (StatusSend 200 (VArr (VObj ∘ project (Some comment_select) <$>
            take (Z.to_nat n)
              (match get q "cursor" with
               | VStr c =>
                   drop 1 (from_cursor newest_first (Some (VStr c))
                             (comments_newest_first (db w)))
               | _ => comments_newest_first (db w)
               end))))])
       (now w) (uuid w)).
Proof.
  intros Hl Hc Hcur. eexists.
  unfold asyncHandler, try_catch, get_comment, mbind, M_bind, prisma,
    prisma_run. cbn [query db trace now uuid].
  destruct (limit_is_parsed q n Hl) as [-> Hn].
  rewrite findMany_cursor_page by done. finish_run.
Qed.
(* ===================================================================== *)
(** ** Identifiers and creation times *)
(* ===================================================================== *)

(** [r'] has the id and the creation time of [r]. *)
Definition same_identity (r r' : obj) : Prop :=
  get r' "id" = get r "id" ∧ get r' "createdAt" = get r "createdAt".

(** From [t] to [t'] every slot keeps its record, up to columns other than
    id and createdAt, or loses it for good. *)
Definition table_stable (t t' : table) : Prop :=
  ∀ k,
    match t !! k with
    | Some (Some r) =>
        t' !! k = Some None
        ∨ ∃ r', t' !! k = Some (Some r') ∧ same_identity r r'
    | Some None => t' !! k = Some None
    | None => True
    end.

Definition db_stable (d d' : DB) : Prop :=
  ∀ m, table_stable (rows_of m d) (rows_of m d').

(** A schema that admits no body with an id or a createdAt of its own. *)
Definition keeps_identity (S : Struct) : Prop :=
  ∀ v, S v = None →
    prop v "id" = VUndefined ∧ prop v "createdAt" = VUndefined.

(** A computation whose runs leave identifiers and creation times alone. *)
Definition stable {A} (c : M A) : Prop :=
  ∀ w r w', c w = (r, w') → db_stable (db w) (db w').

Lemma table_stable_refl t : table_stable t t.
Proof.
  intros k. destruct (t !! k) as [[r|]|] eqn:E; [|done..].
  right. by exists r.
Qed.

Lemma table_stable_trans t1 t2 t3 :
  table_stable t1 t2 → table_stable t2 t3 → table_stable t1 t3.
Proof.
  intros H12 H23 k. specialize (H12 k). specialize (H23 k).
  destruct (t1 !! k) as [[r|]|]; [| |done].
  - destruct H12 as [H12|(r' & H12 & [Hi Hc])]; rewrite H12 in H23.
    + by left.
    + destruct H23 as [H23|(r'' & H23 & [Hi' Hc'])]; [by left|].
      right. exists r''. split; [done|]. split; congruence.
  - by rewrite H12 in H23.
Qed.

Lemma db_stable_refl d : db_stable d d.
Proof. intros m. apply table_stable_refl. Qed.

Lemma db_stable_trans d1 d2 d3 :
  db_stable d1 d2 → db_stable d2 d3 → db_stable d1 d3.
Proof. intros H1 H2 m. eapply table_stable_trans; [apply H1|apply H2]. Qed.

(** Appending a record, emptying a slot, and rewriting a record in place
    without touching its id or creation time. *)
Lemma table_stable_app t s : table_stable t (t ++ [s]).
Proof.
  intros k. destruct (t !! k) as [[r|]|] eqn:E; [| |done].
  - right. exists r. split; [|done].
    by rewrite lookup_app_l by by eapply lookup_lt_Some.
  - by rewrite lookup_app_l by by eapply lookup_lt_Some.
Qed.

Lemma table_stable_delete t i : table_stable t (<[i := None]> t).
Proof.
  intros k. destruct (t !! k) as [[r|]|] eqn:E; [| |done].
  - destruct (decide (i = k)) as [->|Hne].
    + left. apply list_lookup_insert_eq. by eapply lookup_lt_Some.
    + right. exists r. by rewrite list_lookup_insert_ne.
  - destruct (decide (i = k)) as [->|Hne].
    + apply list_lookup_insert_eq. by eapply lookup_lt_Some.
    + by rewrite list_lookup_insert_ne.
Qed.

Lemma table_stable_update t i row row' :
  t !! i = Some (Some row) →
  same_identity row row' →
  table_stable t (<[i := Some row']> t).
Proof.
  intros Hi Hs k. destruct (t !! k) as [[r|]|] eqn:E; [| |done].
  - right. destruct (decide (i = k)) as [->|Hne].
    + exists row'. rewrite list_lookup_insert_eq by by eapply lookup_lt_Some.
      split; [done|]. congruence.
    + exists r. by rewrite list_lookup_insert_ne.
  - destruct (decide (i = k)) as [->|Hne]; [congruence|].
    by rewrite list_lookup_insert_ne.
Qed.

Lemma rows_of_with_rows m m' t d :
  rows_of m' (with_rows m t d) = if decide (m = m') then t else rows_of m' d.
Proof. by destruct m, m'. Qed.

Lemma rows_of_bump m' m typed d : rows_of m' (bump m typed d) = rows_of m' d.
Proof. unfold bump. case_match; [|done]. by destruct m'. Qed.

Lemma db_stable_with_rows m t d d0 :
  (∀ m', rows_of m' d0 = rows_of m' d) →
  table_stable (rows_of m d) t →
  db_stable d (with_rows m t d0).
Proof.
  intros Hd Ht m'. rewrite rows_of_with_rows.
  destruct (decide (m = m')) as [<-|]; [done|].
  rewrite Hd. apply table_stable_refl.
Qed.

Lemma db_stable_bump m typed d : db_stable d (bump m typed d).
Proof. intros m'. rewrite rows_of_bump. apply table_stable_refl. Qed.

Lemma find_id_lookup t idv i s :
  find_id t idv = Some (i, s) → t !! i = Some s.
Proof. unfold find_id. intros H. by apply list_find_Some in H as [? _]. Qed.

(** The data of an update names neither the id nor the creation time. *)
Definition spares_identity (args : value) : Prop :=
  ∀ data, prop args "data" = VObj data →
    get data "id" = VUndefined ∧ get data "createdAt" = VUndefined.

Lemma same_identity_union typed row :
  typed !! "id" = None → typed !! "createdAt" = None →
  same_identity row (typed ∪ row).
Proof.
  intros Hi Hc. unfold same_identity, get.
  by rewrite !lookup_union_r.
Qed.

Lemma args_of_Some allowed args a :
  args_of allowed args = Some a → args = VObj a.
Proof. unfold args_of. repeat case_match; naive_solver. Qed.

Lemma prisma_create_stable tnow tuuid m args d r d' :
  prisma_create tnow tuuid m args d = (r, d') → db_stable d d'.
Proof.
  unfold prisma_create, invalid, not_unique.
  repeat case_match; intros [= <- <-];
    try apply db_stable_refl; try apply db_stable_bump.
  apply db_stable_with_rows; [intros; apply rows_of_bump|].
  apply table_stable_app.
Qed.

Lemma prisma_delete_stable m args d r d' :
  prisma_delete m args d = (r, d') → db_stable d d'.
Proof.
  unfold prisma_delete, invalid, not_found.
  repeat case_match; intros [= <- <-]; try apply db_stable_refl.
  apply db_stable_with_rows; [done|]. apply table_stable_delete.
Qed.

Lemma prisma_update_stable m args d r d' :
  spares_identity args →
  prisma_update m args d = (r, d') → db_stable d d'.
Proof.
  intros Hs. unfold prisma_update, invalid, not_found, not_unique.
  destruct (args_of _ args) as [a|] eqn:Ea;
    [|intros [= <- <-]; apply db_stable_refl].
  apply args_of_Some in Ea as ->.
  repeat case_match; intros [= <- <-]; try apply db_stable_refl.
  subst. apply db_stable_with_rows; [done|].
  eapply table_stable_update; [by eapply find_id_lookup|].
  destruct (Hs _ ltac:(eassumption)) as [Hi Hc].
  apply same_identity_union; by eapply typed_data_absent.
Qed.

Lemma prisma_read_stable tnow tuuid m op args d r d' :
  op ∈ [FindUnique; FindUniqueOrThrow; FindMany; Count] →
  prisma_run tnow tuuid m op args d = (r, d') → d' = d.
Proof.
  intros Hin.
  repeat (apply elem_of_cons in Hin as [->|Hin]);
    [| | | |by apply elem_of_nil in Hin];
    unfold prisma_run, prisma_findUnique, prisma_findMany, prisma_count,
      invalid, not_found;
    repeat case_match; by intros [= <- <-].
Qed.

Lemma prisma_run_stable tnow tuuid m op args d r d' :
  (op = Update → spares_identity args) →
  prisma_run tnow tuuid m op args d = (r, d') → db_stable d d'.
Proof.
  intros Hs H. destruct op.
  - by eapply prisma_create_stable.
  - apply prisma_read_stable in H as ->; [apply db_stable_refl|set_solver].
  - apply prisma_read_stable in H as ->; [apply db_stable_refl|set_solver].
  - apply prisma_read_stable in H as ->; [apply db_stable_refl|set_solver].
  - apply prisma_read_stable in H as ->; [apply db_stable_refl|set_solver].
  - eapply prisma_update_stable; [by apply Hs|done].
  - by eapply prisma_delete_stable.
Qed.

(** *** Every handler is stable *)

Lemma stable_ret {A} (a : A) : stable (mret a).
Proof. intros w r w' [= <- <-]. apply db_stable_refl. Qed.

Lemma stable_throw {A} e : stable (throw (A := A) e).
Proof. intros w r w' [= <- <-]. apply db_stable_refl. Qed.

Lemma stable_emit ev : stable (emit ev).
Proof. intros w r w' [= <- <-]. apply db_stable_refl. Qed.

Lemma stable_bind {A B} (c : M A) (f : A → M B) :
  stable c → (∀ a, stable (f a)) → stable (c ≫= f).
Proof.
  intros Hc Hf w r w'. unfold mbind, M_bind.
  destruct (c w) as [[a|e] w1] eqn:E.
  - intros H. eapply db_stable_trans; [by eapply Hc|by eapply Hf].
  - intros [= <- <-]. by eapply Hc.
Qed.

Lemma stable_try_catch {A} (c : M A) (h : exn → M A) :
  stable c → (∀ e, stable (h e)) → stable (try_catch c h).
Proof.
  intros Hc Hh w r w'. unfold try_catch.
  destruct (c w) as [[a|e] w1] eqn:E.
  - intros [= <- <-]. by eapply Hc.
  - intros H. eapply db_stable_trans; [by eapply Hc|by eapply Hh].
Qed.

(** What follows an [assert] runs only if the schema admitted the value. *)
Lemma stable_assert {A} v S (f : unit → M A) :
  (S v = None → stable (f tt)) → stable (assert v S ≫= f).
Proof.
  intros Hf w r w'. unfold mbind, M_bind, assert.
  destruct (S v) as [m|] eqn:E.
  - intros [= <- <-]. apply db_stable_refl.
  - by apply Hf.
Qed.

Lemma stable_prisma m op args :
  (op = Update → spares_identity args) → stable (prisma m op args).
Proof.
  intros Hs w r w'. unfold prisma.
  destruct (prisma_run _ _ _ _ _ _) as [r1 d1] eqn:E. intros [= <- <-].
  by eapply prisma_run_stable.
Qed.

Lemma stable_asyncHandler handler req :
  stable (handler req) → stable (asyncHandler handler req).
Proof.
  intros H. unfold asyncHandler. apply stable_try_catch; [done|].
  intros e. repeat case_match; apply stable_emit.
Qed.

Lemma spares_identity_body S b W :
  keeps_identity S → S b = None →
  spares_identity (VObj (object [("where", W); ("data", b)])).
Proof.
  intros HS Hb data. unfold prop. cbn [spread]. read_literal. intros ->.
  apply (HS _ Hb).
Qed.

Ltac stability :=
  repeat first
    [ apply stable_emit
    | apply stable_ret
    | apply stable_throw
    | apply stable_assert; intros ?
    | apply stable_prisma;
      (discriminate
       || (intros _; eapply spares_identity_body; [|eassumption]; assumption))
    | apply stable_bind; [|intros ?]
    | match goal with |- stable (if ?b then _ else _) => destruct b end
    | match goal with |- stable (match ?v with _ => _ end) => destruct v end ].

Lemma handlers_stable handler req :
  keeps_identity PatchArticle →
  keeps_identity CreateComment →
  handler ∈ rhandler <$> app →
  stable (handler req).
Proof.
  intros HP HC Hin. unfold app in Hin. cbn [fmap list_fmap rhandler] in Hin.
  repeat (apply elem_of_cons in Hin as [->|Hin]);
    [..|by apply elem_of_nil in Hin];
    apply stable_asyncHandler;
    unfold post_article, get_article_id, patch_article_id, delete_article_id,
      get_products, post_article_id_comment, post_product_id_comment,
      patch_comment_id, delete_comment_id, get_comment, get_productcomment,
      get_article, get_products_id, post_products, patch_products_id,
      delete_products_id, res.send, res.status_send, res.sendStatus,
      undeclared, call_method, Object_keys;
    stability.
Qed.

Lemma dispatch_handler rs v p handler ps :
  dispatch rs v p = Some (handler, ps) → handler ∈ rhandler <$> rs.
Proof.
  induction rs as [|r rs IH]; [done|]. cbn [dispatch fmap list_fmap].
  repeat case_match; intros Hd; simplify_eq;
    (by apply list_elem_of_here) || (apply list_elem_of_further; by apply IH).
Qed.

Lemma serve_stable h w :
  keeps_identity PatchArticle →
  keeps_identity CreateComment →
  db_stable (db w) (db (serve h w)).
Proof.
  intros HP HC. unfold serve.
  destruct (dispatch app (h_method h) (h_path h)) as [[handler ps]|] eqn:E.
  - apply dispatch_handler in E.
    pose proof (handlers_stable handler
                  (mkReq ps (h_query h) (h_body h)) HP HC E) as Hs.
    destruct (handler _ _) as [r w'] eqn:Ew. by apply Hs in Ew.
  - apply db_stable_refl.
Qed.

Lemma run_stable hs w :
  keeps_identity PatchArticle →
  keeps_identity CreateComment →
  db_stable (db w) (db (run hs w)).
Proof.
  intros HP HC. revert w. induction hs as [|h hs IH]; intros w.
  - apply db_stable_refl.
  - cbn [run foldl]. eapply db_stable_trans; [by apply serve_stable|apply IH].
Qed.

(** C8: whatever requests are served, in whatever order, a record that is
    still in the store has the id and the creation time it had: no route
    rewrites them.  The two schemas that guard an update are taken to admit
    no body with an id or a createdAt (PatchArticle allows title and
    content, CreateComment content). *)
Theorem id_and_createdAt_never_change hs w m k r r' :
  keeps_identity PatchArticle →
  keeps_identity CreateComment →
  rows_of m (db w) !! k = Some (Some r) →
  rows_of m (db (run hs w)) !! k = Some (Some r') →
  get r' "id" = get r "id" ∧ get r' "createdAt" = get r "createdAt".
Proof.
  intros HP HC Hr Hr'.
  pose proof (run_stable hs w HP HC m k) as H. rewrite Hr, Hr' in H.
  destruct H as [[=]|(r'' & [= <-] & H)]. exact H.
Qed.

(* ===================================================================== *)
(** ** The wrapper and the routes, request by request *)
(* ===================================================================== *)

(** *** One response, and no half-done work *)

(** The tables of [d'] are those of [d]. *)
Definition rows_kept (d d' : DB) : Prop := ∀ m, rows_of m d' = rows_of m d.

(** A handler body is tidy when a run that returns has sent one response,
    and has left every table alone if that response reports an error,
    and when a run that throws has sent nothing and has left every table
    alone. *)
Definition tidy (c : M unit) : Prop :=
  ∀ w,
    match c w with
    | (Returns _, w') =>
        ∃ r, responses (trace w') = responses (trace w) ++ [r]
             ∧ (400 ≤ status_of r → rows_kept (db w) (db w'))
    | (Throws _, w') =>
        responses (trace w') = responses (trace w)
        ∧ rows_kept (db w) (db w')
    end.

(** What a wrapped tidy handler does. *)
Definition answers_once (c : M unit) : Prop :=
  ∀ w, ∃ r w',
    c w = (Returns tt, w')
    ∧ responses (trace w') = responses (trace w) ++ [r]
    ∧ (400 ≤ status_of r → rows_kept (db w) (db w')).

Lemma responses_snoc_query tr m op a :
  responses (tr ++ [Query m op a]) = responses tr.
Proof. by rewrite responses_app, responses_query, app_nil_r. Qed.

Lemma responses_snoc_response tr r :
  responses (tr ++ [Response r]) = responses tr ++ [r].
Proof. by rewrite responses_app. Qed.

(** A query that fails has written no record. *)
Lemma prisma_run_throws tnow tuuid m op args d e d' :
  prisma_run tnow tuuid m op args d = (Throws e, d') → rows_kept d d'.
Proof.
  destruct op;
    unfold prisma_run, prisma_create, prisma_findUnique, prisma_findMany,
      prisma_count, prisma_update, prisma_delete, invalid, not_found,
      not_unique;
    repeat case_match; intros [= <- <-]; try done.
  all: intros m'; apply rows_of_bump.
Qed.

Lemma tidy_emit r : tidy (emit (Response r)).
Proof.
  intros w. exists r. cbn [emit trace db].
  split; [apply responses_snoc_response|done].
Qed.

Lemma tidy_assert v S (f : unit → M unit) :
  (S v = None → tidy (f tt)) → tidy (assert v S ≫= f).
Proof.
  intros Hf w. unfold mbind, M_bind, assert.
  destruct (S v) as [m|] eqn:E; [done|]. by apply Hf.
Qed.

(** A computation that leaves the world as it is. *)
Definition silent {A} (c : M A) : Prop := ∀ w, ∃ r, c w = (r, w).

Lemma tidy_silent {A} (c : M A) (f : A → M unit) :
  silent c → (∀ a, tidy (f a)) → tidy (c ≫= f).
Proof.
  intros Hc Hf w. unfold mbind, M_bind.
  destruct (Hc w) as [[a|e] ->]; [apply Hf|done].
Qed.

Lemma tidy_read m op args (f : value → M unit) :
  op ∈ [FindUnique; FindUniqueOrThrow; FindMany; Count] →
  (∀ a, tidy (f a)) → tidy (prisma m op args ≫= f).
Proof.
  intros Hop Hf w. unfold mbind, M_bind, prisma.
  destruct (prisma_run _ _ _ _ _ _) as [r d] eqn:E.
  apply prisma_read_stable in E as ->; [|done].
  destruct r as [a|e].
  - specialize (Hf a (mkWorld (db w) (trace w ++ [Query m op args])
                        (now w) (uuid w))).
    cbn [db trace] in Hf. by rewrite responses_snoc_query in Hf.
  - cbn [db trace]. by rewrite responses_snoc_query.
Qed.

(** A write followed by the response that reports its success. *)
Lemma tidy_write m op args (f : value → M unit) :
  (∀ a, ∃ r, status_of r < 400 ∧ f a = emit (Response r)) →
  tidy (prisma m op args ≫= f).
Proof.
  intros Hf w. unfold mbind, M_bind, prisma.
  destruct (prisma_run _ _ _ _ _ _) as [[a|e] d] eqn:E.
  - destruct (Hf a) as (r & Hr & ->). exists r. cbn [emit trace db].
    rewrite responses_snoc_response, responses_snoc_query.
    split; [done|lia].
  - cbn [db trace]. rewrite responses_snoc_query.
    split; [done|]. by eapply prisma_run_throws.
Qed.

(** A query handed something that is not an object. *)
Lemma tidy_bare m op args (f : value → M unit) :
  (∀ o, args ≠ VObj o) → tidy (prisma m op args ≫= f).
Proof.
  intros Ha w. unfold mbind, M_bind, prisma.
  rewrite prisma_run_bare by done. unfold invalid. cbn [db trace].
  by rewrite responses_snoc_query.
Qed.

Lemma silent_undeclared x : silent (undeclared x).
Proof. intros w. by eexists. Qed.

Lemma silent_call_method x f o : silent (call_method x f o).
Proof. intros w. by eexists. Qed.

Lemma silent_Object_keys v : silent (Object_keys v).
Proof. intros w. destruct v; by eexists. Qed.

Lemma asyncHandler_answers_once handler req :
  tidy (handler req) → answers_once (asyncHandler handler req).
Proof.
  intros H w. specialize (H w).
  destruct (handler req w) as [[[]|e] w1] eqn:E.
  - destruct H as (r & Hr & Hk). exists r, w1.
    split; [by apply asyncHandler_returns|done].
  - destruct H as [Hr Hk]. exists (error_reply e), (replied (error_reply e) w1).
    split; [by apply asyncHandler_throws|].
    unfold replied. cbn [trace db].
    by rewrite responses_snoc_response, Hr.
Qed.

Ltac tidiness :=
  repeat first
    [ apply tidy_emit
    | apply tidy_assert; intros ?
    | apply tidy_bare; done
    | apply tidy_read; [set_solver|intros ?]
    | apply tidy_write; intros ?; eexists; split; [|reflexivity]; simpl; lia
    | apply tidy_silent;
      [first [apply silent_undeclared | apply silent_call_method
             | apply silent_Object_keys]|intros ?]
    | match goal with |- tidy (if ?b then _ else _) => destruct b end ].

Lemma handlers_answer_once handler req :
  handler ∈ rhandler <$> app → answers_once (handler req).
Proof.
  intros Hin. unfold app in Hin. cbn [fmap list_fmap rhandler] in Hin.
  repeat (apply elem_of_cons in Hin as [->|Hin]);
    [..|by apply elem_of_nil in Hin];
    apply asyncHandler_answers_once;
    unfold post_article, get_article_id, patch_article_id, delete_article_id,
      get_products, post_article_id_comment, post_product_id_comment,
      patch_comment_id, delete_comment_id, get_comment, get_productcomment,
      get_article, get_products_id, post_products, patch_products_id,
      delete_products_id, res.send, res.status_send, res.sendStatus;
    tidiness.
Qed.

Lemma serve_answers_once h w :
  ∃ r, answered h w r
       ∧ (400 ≤ status_of r → rows_kept (db w) (db (serve h w))).
Proof.
  unfold answered, serve.
  destruct (dispatch app (h_method h) (h_path h)) as [[handler ps]|] eqn:E.
  - apply dispatch_handler in E.
    destruct (handlers_answer_once handler (mkReq ps (h_query h) (h_body h)) E
                (mkWorld (db w) (trace w) (h_now h) (h_uuid h)))
      as (r & w' & -> & Hr & Hk).
    by exists r.
  - eexists. cbn [res.status_send emit snd trace db].
    split; [apply responses_snoc_response|done].
Qed.

(** X1: every request a route takes is answered exactly once: serving it
    adds one response to those already sent, whatever the handler met on
    its way (a body the schema rejects, a query the store refuses, a
    record that is not there, an identifier nothing declares). *)
Theorem routed_request_is_answered_once h w :
  is_Some (dispatch app (h_method h) (h_path h)) →
  ∃ r, responses (trace (serve h w)) = responses (trace w) ++ [r].
Proof.
  intros _. destruct (serve_answers_once h w) as (r & Hr & _). by exists r.
Qed.

(** X2: a request that is answered with an error (a status from 400 on)
    has written nothing: every table is as the request found it.  No
    handler sends an error after a write that went through, and no query
    that fails leaves a record behind. *)
Theorem failed_request_writes_nothing h w r m :
  answered h w r →
  400 ≤ status_of r →
  rows_of m (db (serve h w)) = rows_of m (db w).
Proof.
  intros Ha Hs. destruct (serve_answers_once h w) as (r' & Hr' & Hk).
  unfold answered in Ha, Hr'. rewrite Ha in Hr'.
  apply app_inj_tail in Hr' as [_ <-]. by apply Hk.
Qed.

(** *** Reading routes *)

(** A computation that leaves the store as it is. *)
Definition reads_only {A} (c : M A) : Prop :=
  ∀ w r w', c w = (r, w') → db w' = db w.

Lemma reads_only_emit ev : reads_only (emit ev).
Proof. by intros w r w' [= <- <-]. Qed.

Lemma reads_only_silent {A} (c : M A) : silent c → reads_only c.
Proof. intros Hc w r w' H. destruct (Hc w) as [r' Hr]. congruence. Qed.

Lemma reads_only_bind {A B} (c : M A) (f : A → M B) :
  reads_only c → (∀ a, reads_only (f a)) → reads_only (c ≫= f).
Proof.
  intros Hc Hf w r w'. unfold mbind, M_bind.
  destruct (c w) as [[a|e] w1] eqn:E.
  - intros H. apply Hf in H. apply Hc in E. congruence.
  - intros [= <- <-]. by eapply Hc.
Qed.

Lemma reads_only_prisma m op args :
  op ∈ [FindUnique; FindUniqueOrThrow; FindMany; Count] →
  reads_only (prisma m op args).
Proof.
  intros Hop w r w'. unfold prisma.
  destruct (prisma_run _ _ _ _ _ _) as [r1 d1] eqn:E. intros [= <- <-].
  by apply prisma_read_stable in E.
Qed.

Lemma reads_only_asyncHandler handler req :
  reads_only (handler req) → reads_only (asyncHandler handler req).
Proof.
  intros H w r w'. unfold asyncHandler, try_catch.
  destruct (handler req w) as [[a|e] w1] eqn:E.
  - intros [= <- <-]. by eapply H.
  - apply H in E. repeat case_match; intros [= <- <-]; exact E.
Qed.

Lemma method_eqb_eq a b : method_eqb a b = true → a = b.
Proof. by destruct a, b. Qed.

(** The route that takes a request. *)
Lemma dispatch_route rs v p handler ps :
  dispatch rs v p = Some (handler, ps) →
  ∃ r, r ∈ rs ∧ rmethod r = v ∧ rhandler r = handler
       ∧ match_path (rpath r) p = Some ps.
Proof.
  induction rs as [|r rs IH]; [done|]. cbn [dispatch].
  destruct (method_eqb (rmethod r) v) eqn:Ev.
  - destruct (match_path (rpath r) p) as [ps'|] eqn:Ep.
    + intros [= <- <-]. exists r. split; [apply list_elem_of_here|].
      by apply method_eqb_eq in Ev.
    + intros H. destruct (IH H) as (r' & Hin & Hr').
      exists r'. split; [by apply list_elem_of_further|done].
  - intros H. destruct (IH H) as (r' & Hin & Hr').
    exists r'. split; [by apply list_elem_of_further|done].
Qed.

Ltac reading :=
  repeat first
    [ apply reads_only_emit
    | apply reads_only_prisma; set_solver
    | apply reads_only_silent;
      first [apply silent_undeclared | apply silent_call_method
            | apply silent_Object_keys]
    | apply reads_only_bind; [|intros ?]
    | match goal with |- reads_only (if ?b then _ else _) => destruct b end ].

(** X3: a GET request never writes: whatever its path, its query string
    and its body, and whether it is answered with a record, a list or an
    error, the store after it is the store before it. *)
Theorem get_request_leaves_store h w :
  h_method h = GET →
  db (serve h w) = db w.
Proof.
  intros Hm. unfold serve. rewrite Hm.
  destruct (dispatch app GET (h_path h)) as [[handler ps]|] eqn:E; [|done].
  apply dispatch_route in E as (r & Hin & Hv & <- & _).
  assert (reads_only (rhandler r (mkReq ps (h_query h) (h_body h)))) as Hr.
  { unfold app in Hin.
    repeat (apply elem_of_cons in Hin as [->|Hin]);
      [..|by apply elem_of_nil in Hin];
      try discriminate Hv; cbn [rhandler];
      apply reads_only_asyncHandler;
      unfold get_article_id, get_products, get_comment, get_productcomment,
        get_article, get_products_id, res.send, res.status_send;
      reading. }
  destruct (rhandler r _ _) as [o w'] eqn:Ew. by apply Hr in Ew.
Qed.

(** *** The route table *)

(** Two patterns that a same path can match: they have the same length,
    and where both have a literal segment it is the same. *)
Fixpoint overlap (p1 p2 : list segment) : bool :=
  match p1, p2 with
  | [], [] => true
  | Lit s1 :: p1', Lit s2 :: p2' => String.eqb s1 s2 && overlap p1' p2'
  | _ :: p1', _ :: p2' => overlap p1' p2'
  | _, _ => false
  end.

Lemma match_path_nil pat : is_Some (match_path pat []) → pat = [].
Proof. destruct pat as [|[]]; [done|by intros [? [=]]..]. Qed.

Lemma match_path_cons s pat x p :
  is_Some (match_path (s :: pat) (x :: p)) →
  is_Some (match_path pat p) ∧ (∀ l, s = Lit l → l = x).
Proof.
  destruct s as [l|n]; cbn [match_path].
  - destruct (String.eqb_spec l x) as [->|]; [|by intros [? [=]]].
    intros H. split; [done|]. by intros ? [= <-].
  - intros H. apply fmap_is_Some in H. by split.
Qed.

Lemma match_path_overlap p1 p2 p :
  is_Some (match_path p1 p) → is_Some (match_path p2 p) →
  overlap p1 p2 = true.
Proof.
  revert p1 p2. induction p as [|x p IH]; intros p1 p2 H1 H2.
  - apply match_path_nil in H1 as ->. by apply match_path_nil in H2 as ->.
  - destruct p1 as [|s1 p1]; [by destruct H1|].
    destruct p2 as [|s2 p2]; [by destruct H2|].
    apply match_path_cons in H1 as [H1 E1].
    apply match_path_cons in H2 as [H2 E2].
    cbn [overlap]. rewrite (IH _ _ H1 H2).
    destruct s1 as [l1|], s2 as [l2|]; try done.
    rewrite (E1 l1), (E2 l2) by done. by rewrite String.eqb_refl.
Qed.

(** Method and pattern of the routes, in the order of registration. *)
Definition signatures : list (method * list segment) :=
  (λ r, (rmethod r, rpath r)) <$> app.

(** No two routes of the table can take a same request. *)
Definition disjoint_routes (sg : list (method * list segment)) : bool :=
  forallb (λ '(i, a),
    forallb (λ '(j, b),
      (i =? j)%nat || negb (method_eqb a.1 b.1 && overlap a.2 b.2))
    (imap (λ j b, (j, b)) sg))
  (imap (λ i a, (i, a)) sg).

Lemma disjoint_routes_lookup sg i j a b :
  disjoint_routes sg = true →
  sg !! i = Some a → sg !! j = Some b →
  method_eqb a.1 b.1 && overlap a.2 b.2 = true →
  i = j.
Proof.
  unfold disjoint_routes. rewrite forallb_forall. intros H Ha Hb Hab.
  specialize (H (i, a)). cbn beta iota in H.
  rewrite forallb_forall in H.
  assert (In (j, b) (imap (λ j b, (j, b)) sg)) as Hj.
  { apply list_elem_of_In, elem_of_lookup_imap. eauto. }
  assert (In (i, a) (imap (λ i a, (i, a)) sg)) as Hi.
  { apply list_elem_of_In, elem_of_lookup_imap. eauto. }
  specialize (H Hi (j, b) Hj). cbn beta iota in H.
  rewrite Hab in H. cbn [negb] in H. rewrite orb_false_r in H.
  by apply Nat.eqb_eq in H.
Qed.

(** X4: the routes do not overlap: a request is taken by at most one
    of the sixteen registrations, so that none of them hides another and
    the order of registration decides nothing. *)
Theorem routes_do_not_overlap i j r1 r2 p :
  app !! i = Some r1 →
  app !! j = Some r2 →
  rmethod r1 = rmethod r2 →
  is_Some (match_path (rpath r1) p) →
  is_Some (match_path (rpath r2) p) →
  i = j.
Proof.
  intros H1 H2 Hm Hp1 Hp2.
  apply (disjoint_routes_lookup signatures i j
           (rmethod r1, rpath r1) (rmethod r2, rpath r2)).
  - vm_compute. reflexivity.
  - unfold signatures. by rewrite list_lookup_fmap, H1.
  - unfold signatures. by rewrite list_lookup_fmap, H2.
  - cbn [fst snd]. rewrite Hm.
    rewrite (match_path_overlap _ _ _ Hp1 Hp2), andb_true_r.
    by destruct (rmethod r2).
Qed.

(* ===================================================================== *)
(** ** Records that are there *)
(* ===================================================================== *)

Ltac in_list :=
  repeat first [apply list_elem_of_here | apply list_elem_of_further].

Lemma serve_by v p q b t u handler ps w w' :
  dispatch app v p = Some (handler, ps) →
  handler (mkReq ps q b) (mkWorld (db w) (trace w) t u) = (Returns tt, w') →
  serve (mkHttp v p q b t u) w = w'.
Proof. intros Hd Hh. by rewrite (serve_route _ _ _ _ _ _ _ _ _ Hd), Hh. Qed.

(** Data whose properties are text for text columns is taken as it is. *)
Lemma typed_data_text m cols (data : obj) :
  Forall (λ k, ftyp <$> field_of m k = Some TString) cols →
  map_Forall (λ k v, k ∈ cols ∧ is_text v = true) data →
  typed_data m data = Some data.
Proof.
  intros Hcols Hdata.
  assert (Hc : ∀ k v, data !! k = Some v → coerce_field m k v = Some v).
  { intros k v Hk. destruct (Hdata k v Hk) as [Hin Ht].
    rewrite Forall_forall in Hcols. specialize (Hcols k Hin).
    unfold coerce_field. destruct (field_of m k) as [f|]; [|done].
    simpl in *. injection Hcols as ->. by destruct v. }
  assert (Hd : defined data = data).
  { unfold defined. apply map_filter_id. intros k v Hk.
    destruct (Hdata k v Hk) as [_ Ht]. by destruct v. }
  unfold typed_data. rewrite Hd.
  assert (forallb (λ kv, bool_decide (is_Some (coerce_field m kv.1 kv.2)))
            (map_to_list data) = true) as ->.
  { apply forallb_forall. intros [k v] Hin.
    apply list_elem_of_In, elem_of_map_to_list in Hin.
    apply bool_decide_eq_true. cbn [fst snd]. rewrite (Hc k v Hin).
    by eexists. }
  f_equal. apply map_eq. intros k. rewrite map_lookup_imap.
  destruct (data !! k) as [v|] eqn:E; [|done]. simpl. by apply Hc.
Qed.

(** A value that is not of the type of its column spoils the data. *)
Lemma typed_data_ill_typed m (data : obj) k v :
  data !! k = Some v →
  is_undefined v = false →
  coerce_field m k v = None →
  typed_data m data = None.
Proof.
  intros Hk Hv Hc. unfold typed_data.
  destruct (forallb _ _) eqn:E; [|done].
  rewrite forallb_forall in E.
  assert (In (k, v) (map_to_list (defined data))) as Hin.
  { apply list_elem_of_In, elem_of_map_to_list.
    rewrite defined_lookup, Hk. by destruct v. }
  apply E, bool_decide_eq_true in Hin. cbn [fst snd] in Hin.
  rewrite Hc in Hin. by destruct Hin.
Qed.

Lemma find_id_snoc t idv row :
  find_id t idv = None →
  same_id (get row "id") idv = true →
  find_id (t ++ [Some row]) idv = Some (length t, Some row).
Proof.
  intros Hn Hs. unfold find_id in *.
  rewrite list_find_app_r by done. cbn [list_find].
  by rewrite decide_True by done.
Qed.

Lemma same_id_text x : same_id (VStr x) (VStr x) = true.
Proof. apply String.eqb_refl. Qed.

(** The columns GET /article/:id selects. *)
Definition article_select : obj :=
  object [("id", VBool true); ("title", VBool true);
          ("content", VBool true); ("createdAt", VBool true)].

Lemma post_article_run ps q T C w :
  CreateArticle (VObj (object [("title", VStr T); ("content", VStr C)])) = None →
  find_id (articles (db w)) (VStr (uuid w)) = None →
  ∃ a,
    asyncHandler post_article
      (mkReq ps q (VObj (object [("title", VStr T); ("content", VStr C)]))) w =
    (Returns tt,
     mkWorld
       (with_rows Article
          (articles (db w) ++ [Some (Sample.article (uuid w) T C (now w))])
          (db w))
       (trace w ++ [
          Query Article Create a;
          Response (StatusSend 201
            (VObj (Sample.article (uuid w) T C (now w))))])
       (now w) (uuid w)).
Proof.
  intros HS Hf. eexists. run_handler. rewrite (assert_passes _ _ _ HS).
  rewrite create_data.
  rewrite (typed_data_text Article ["title"; "content"]).
  - assert (object [("title", VStr T); ("content", VStr C)]
            ∪ defaults (now w) (uuid w) Article (db w)
            = Sample.article (uuid w) T C (now w)) as Hrow
      by (vm_compute; reflexivity).
    assert (complete Article (Sample.article (uuid w) T C (now w)) = true)
      as Hc by (vm_compute; reflexivity).
    assert (get (Sample.article (uuid w) T C (now w)) "id" = VStr (uuid w))
      as Hi by (unfold Sample.article; by read_literal).
    assert (bump Article (object [("title", VStr T); ("content", VStr C)])
              (db w) = db w) as Hb by reflexivity.
    rewrite Hrow, Hc, Hi. cbn [rows_of]. rewrite Hf, Hb. finish_run.
  - by repeat constructor.
  - intros k v Hk. apply object_lookup in Hk.
    repeat (apply elem_of_cons in Hk as [[= -> ->]|Hk]);
      [| |by apply elem_of_nil in Hk]; split; (done || in_list).
Qed.

Lemma get_article_id_found x q b w i row :
  find_id (articles (db w)) (VStr x) = Some (i, Some row) →
  ∃ a,
    asyncHandler get_article_id (mkReq (<["id" := VStr x]> ∅) q b) w =
    (Returns tt,
     mkWorld (db w)
       (trace w ++ [
          Query Article FindUniqueOrThrow a;
          Response (StatusSend 200 (VObj (project (Some article_select) row)))])
       (now w) (uuid w)).
Proof.
  intros H. eexists. run_handler.
  erewrite (findUnique_select true Article _ _ (VStr x) (VStr x));
    [|by apply select_of_object|done..].
  cbn [rows_of]. rewrite H. finish_run.
Qed.

(** X5: an article that is created is read back as it was answered.
    POST /article with a title and a content the schema admits, while no
    article has the identifier the store draws, is answered 201 with the
    record made of that identifier, the title, the content and the time of
    the request; the record is added after the articles already there; and
    GET /article/:id with that identifier is then answered 200 with the
    same record. *)
Theorem created_article_is_read_back T C q t u q' b' t' u' w :
  CreateArticle (VObj (object [("title", VStr T); ("content", VStr C)])) = None →
  find_id (articles (db w)) (VStr u) = None →
  answered
    (mkHttp POST ["article"] q
       (VObj (object [("title", VStr T); ("content", VStr C)])) t u) w
    (StatusSend 201 (VObj (Sample.article u T C t)))
  ∧ articles (db (serve
      (mkHttp POST ["article"] q
         (VObj (object [("title", VStr T); ("content", VStr C)])) t u) w))
    = articles (db w) ++ [Some (Sample.article u T C t)]
  ∧ answered (mkHttp GET ["article"; u] q' b' t' u')
      (serve
         (mkHttp POST ["article"] q
            (VObj (object [("title", VStr T); ("content", VStr C)])) t u) w)
      (StatusSend 200 (VObj (Sample.article u T C t))).
Proof.
  intros HS Hf.
  destruct (post_article_run ∅ q T C (mkWorld (db w) (trace w) t u) HS Hf)
    as [a Ha].
  cbn [db trace now uuid] in Ha.
  assert (dispatch app POST ["article"] = Some (asyncHandler post_article, ∅))
    as Hd by routed.
  unfold answered. rewrite !(serve_by _ _ _ _ _ _ _ _ _ _ Hd Ha).
  set (w1 := mkWorld _ _ _ _).
  split; [unfold w1; cbn [trace]; trace_simpl; reflexivity|].
  split; [reflexivity|].
  destruct (get_article_id_found u q' b' (mkWorld (db w1) (trace w1) t' u')
              (length (articles (db w))) (Sample.article u T C t)) as [a' Ha'].
  { cbn [db w1 with_rows articles]. apply find_id_snoc; [done|].
    unfold Sample.article. read_literal. apply same_id_text. }
  clearbody w1. cbn [db trace now uuid] in Ha'.
  assert (dispatch app GET ["article"; u]
          = Some (asyncHandler get_article_id, <["id" := VStr u]> ∅))
    as Hd' by routed.
  rewrite (serve_by _ _ _ _ _ _ _ _ _ _ Hd' Ha').
  cbn [trace]. rewrite responses_app.
  assert (project (Some article_select) (Sample.article u T C t)
          = Sample.article u T C t) as Hp by (vm_compute; reflexivity).
  rewrite Hp. reflexivity.
Qed.

Lemma delete_by_id_found m handler x q b w i row :
  (m, handler) ∈ [(Article, delete_article_id); (Comment, delete_comment_id)] →
  find_id (rows_of m (db w)) (VStr x) = Some (i, Some row) →
  ∃ a, asyncHandler handler (mkReq (<["id" := VStr x]> ∅) q b) w =
  (Returns tt,
   mkWorld (with_rows m (<[i := None]> (rows_of m (db w))) (db w))
     (trace w ++ [Query m Delete a; Response (SendStatus 204)])
     (now w) (uuid w)).
Proof.
  intros Hin H. eexists.
  repeat (apply elem_of_cons in Hin as [[= -> ->]|Hin]);
    [| |by apply elem_of_nil in Hin].
  all: run_handler; rewrite (delete_where _ (VStr x) (VStr x)) by done;
    rewrite H; finish_run.
Qed.

(** The routes that delete by id, with the table they address. *)
Definition delete_routes : list (string * model) :=
  [("article", Article); ("comment", Comment)].

(** No comment of the store belongs to article [x]. *)
Definition without_comments (x : string) (d : DB) : Prop :=
  Forall (λ c, get c "articleId" ≠ VStr x) (live (comments d)).

(** X6: a record that is deleted is gone.  DELETE /article/:id and
    DELETE /comment/:id, for the id of a record that is there (and, as the
    model of the store does not follow the relation from comments to
    articles, for an article without comments), are answered 204 with no
    body; the slot of the record is emptied and nothing else in the store
    changes.  When no other record has the id, the same request sent again
    is answered 404, and so is GET /article/:id. *)
Theorem deleted_record_is_gone r m x i row q b t u q' b' t' u' w :
  (r, m) ∈ delete_routes →
  find_id (rows_of m (db w)) (VStr x) = Some (i, Some row) →
  find_id (<[i := None]> (rows_of m (db w))) (VStr x) = None →
  (m = Article → without_comments x (db w)) →
  answered (mkHttp DELETE [r; x] q b t u) w (SendStatus 204)
  ∧ db (serve (mkHttp DELETE [r; x] q b t u) w)
    = with_rows m (<[i := None]> (rows_of m (db w))) (db w)
  ∧ answered (mkHttp DELETE [r; x] q' b' t' u')
      (serve (mkHttp DELETE [r; x] q b t u) w) (SendStatus 404)
  ∧ (m = Article →
     answered (mkHttp GET [r; x] q' b' t' u')
       (serve (mkHttp DELETE [r; x] q b t u) w) (SendStatus 404)).
Proof.
  intros Hin Hf Hu _. unfold delete_routes in Hin.
  assert (∃ handler,
            (m, handler) ∈ [(Article, delete_article_id);
                            (Comment, delete_comment_id)]
            ∧ dispatch app DELETE [r; x]
              = Some (asyncHandler handler, <["id" := VStr x]> ∅))
    as (handler & Hh & Hd).
  { repeat (apply elem_of_cons in Hin as [[= -> ->]|Hin]);
      [| |by apply elem_of_nil in Hin].
    - exists delete_article_id. split; [apply list_elem_of_here|routed].
    - exists delete_comment_id.
      split; [apply list_elem_of_further, list_elem_of_here|routed]. }
  destruct (delete_by_id_found m handler x q b
              (mkWorld (db w) (trace w) t u) i row Hh Hf) as [a Ha].
  cbn [db trace now uuid] in Ha.
  unfold answered. rewrite !(serve_by _ _ _ _ _ _ _ _ _ _ Hd Ha).
  set (w1 := mkWorld _ _ _ _).
  assert (find_id (rows_of m (db w1)) (VStr x) = None) as Hf1.
  { unfold w1. cbn [db]. rewrite rows_of_with_rows.
    by rewrite decide_True by done. }
  split; [unfold w1; cbn [trace]; trace_simpl; reflexivity|].
  split; [reflexivity|].
  split.
  - destruct (delete_by_id_missing m handler x q' b'
                (mkWorld (db w1) (trace w1) t' u') Hh Hf1) as [a' Ha'].
    clearbody w1. cbn [db trace now uuid] in Ha'.
    rewrite (serve_by _ _ _ _ _ _ _ _ _ _ Hd Ha').
    cbn [trace]. rewrite responses_app. reflexivity.
  - intros ->.
    assert (r = "article") as ->.
    { repeat (apply elem_of_cons in Hin as [[= ->]|Hin]);
        [done|by apply elem_of_nil in Hin]. }
    destruct (get_article_id_missing x q' b'
                (mkWorld (db w1) (trace w1) t' u') Hf1) as [a' Ha'].
    clearbody w1. cbn [db trace now uuid] in Ha'.
    assert (dispatch app GET ["article"; x]
            = Some (asyncHandler get_article_id, <["id" := VStr x]> ∅))
      as Hd' by routed.
    rewrite (serve_by _ _ _ _ _ _ _ _ _ _ Hd' Ha').
    cbn [trace]. rewrite responses_app. reflexivity.
Qed.

Lemma patch_by_id_found m S handler cols x q (data : obj) w i row :
  (m, S, handler, cols) ∈
    [(Article, PatchArticle, patch_article_id, ["title"; "content"]);
     (Comment, CreateComment, patch_comment_id, ["content"])] →
  S (VObj data) = None →
  map_Forall (λ k v, k ∈ cols ∧ is_text v = true) data →
  find_id (rows_of m (db w)) (VStr x) = Some (i, Some row) →
  find_id (<[i := None]> (rows_of m (db w))) (get row "id") = None →
  ∃ a, asyncHandler handler (mkReq (<["id" := VStr x]> ∅) q (VObj data)) w =
  (Returns tt,
   mkWorld
     (with_rows m (<[i := Some (data ∪ row)]> (rows_of m (db w))) (db w))
     (trace w ++ [Query m Update a;
                  Response (StatusSend 200 (VObj (data ∪ row)))])
     (now w) (uuid w)).
Proof.
  intros Hin HS Hdata Hf Hu. eexists.
  assert (typed_data m data = Some data ∧ data !! "id" = None) as [Ht Hid].
  { repeat (apply elem_of_cons in Hin as [[= -> -> -> ->]|Hin]);
      [| |by apply elem_of_nil in Hin].
    - split; [by apply (typed_data_text Article ["title"; "content"]);
                [repeat constructor|]|].
      destruct (data !! "id") as [v|] eqn:E; [|done].
      destruct (Hdata _ _ E) as [Hc _].
      repeat (apply elem_of_cons in Hc as [[=]|Hc]). by apply elem_of_nil in Hc.
    - split; [by apply (typed_data_text Comment ["content"]);
                [repeat constructor|]|].
      destruct (data !! "id") as [v|] eqn:E; [|done].
      destruct (Hdata _ _ E) as [Hc _].
      repeat (apply elem_of_cons in Hc as [[=]|Hc]). by apply elem_of_nil in Hc. }
  assert (taken_by_other (rows_of m (db w)) i (get (data ∪ row) "id") = false)
    as Hfree.
  { assert (get (data ∪ row) "id" = get row "id") as ->
      by (unfold get; by rewrite lookup_union_r).
    unfold taken_by_other. rewrite Hu. apply bool_decide_eq_false.
    by intros [? [=]]. }
  repeat (apply elem_of_cons in Hin as [[= -> -> -> ->]|Hin]);
    [| |by apply elem_of_nil in Hin].
  all: run_handler; rewrite (assert_passes _ _ _ HS);
    rewrite (update_where _ (VStr x) (VStr x)) by done;
    rewrite Ht, Hf, Hfree; finish_run.
Qed.

(** The routes that update by id, with the table they address, the schema
    they check and the columns that schema is about. *)
Definition update_routes : list (string * model * Struct * list string) :=
  [("article", Article, PatchArticle, ["title"; "content"]);
   ("comment", Comment, CreateComment, ["content"])].

(** X7: an update replaces the columns the body gives and keeps the
    others.  PATCH /article/:id and PATCH /comment/:id, for the id of a
    record that is there and that no other record shares, and a body the
    schema admits that gives text for columns among title and content (for
    a comment: content), are answered 200 with the record in which the
    body's columns have the body's values and every other column its old
    one; that record takes the place of the old one, in its slot, and
    nothing else in the store changes. *)
Theorem update_replaces_given_columns r m S cols x i row (data : obj) q t u w :
  (r, m, S, cols) ∈ update_routes →
  S (VObj data) = None →
  map_Forall (λ k v, k ∈ cols ∧ is_text v = true) data →
  find_id (rows_of m (db w)) (VStr x) = Some (i, Some row) →
  find_id (<[i := None]> (rows_of m (db w))) (get row "id") = None →
  answered (mkHttp PATCH [r; x] q (VObj data) t u) w
    (StatusSend 200 (VObj (data ∪ row)))
  ∧ db (serve (mkHttp PATCH [r; x] q (VObj data) t u) w)
    = with_rows m (<[i := Some (data ∪ row)]> (rows_of m (db w))) (db w)
  ∧ (∀ k v, data !! k = Some v → get (data ∪ row) k = v)
  ∧ (∀ k, data !! k = None → get (data ∪ row) k = get row k).
Proof.
  intros Hin HS Hdata Hf Hu. unfold update_routes in Hin.
  assert (∃ handler,
            (m, S, handler, cols) ∈
              [(Article, PatchArticle, patch_article_id, ["title"; "content"]);
               (Comment, CreateComment, patch_comment_id, ["content"])]
            ∧ dispatch app PATCH [r; x]
              = Some (asyncHandler handler, <["id" := VStr x]> ∅))
    as (handler & Hh & Hd).
  { repeat (apply elem_of_cons in Hin as [[= -> -> -> ->]|Hin]);
      [| |by apply elem_of_nil in Hin].
    - exists patch_article_id. split; [apply list_elem_of_here|routed].
    - exists patch_comment_id.
      split; [apply list_elem_of_further, list_elem_of_here|routed]. }
  destruct (patch_by_id_found m S handler cols x q data
              (mkWorld (db w) (trace w) t u) i row Hh HS Hdata Hf Hu)
    as [a Ha].
  cbn [db trace now uuid] in Ha.
  unfold answered. rewrite !(serve_by _ _ _ _ _ _ _ _ _ _ Hd Ha).
  cbn [trace db].
  split; [trace_simpl; reflexivity|]. split; [reflexivity|].
  split.
  - intros k v Hk. unfold get.
    by rewrite (lookup_union_Some_l _ _ _ _ Hk).
  - intros k Hk. unfold get. by rewrite lookup_union_r.
Qed.

(* ===================================================================== *)
(** ** Products and their comments *)
(* ===================================================================== *)

(** X8: POST /product/:id/comment never creates a comment.  The handler
    hands the store the id of the path as it is, a text, for the key of
    the product, while products are keyed by number (GET /products/:id
    looks them up by [Number(id)]): the store refuses the data, whatever
    the body, and the request is answered 400. *)
Theorem product_comment_is_never_created x q b t u w :
  trace (serve (mkHttp POST ["product"; x; "comment"] q b t u) w) =
  trace w ++ [
    Query ProductComment Create
      (VObj (object [("data", VObj (<["productId" := VStr x]> (spread b)))]));
    Response (StatusSend 400
      (msg "Invalid invocation: argument validation failed"))]
  ∧ db (serve (mkHttp POST ["product"; x; "comment"] q b t u) w) = db w.
Proof.
  assert (dispatch app POST ["product"; x; "comment"]
          = Some (asyncHandler post_product_id_comment, <["id" := VStr x]> ∅))
    as Hd by routed.
  rewrite !(serve_route _ _ _ _ _ _ _ _ _ Hd).
  unfold asyncHandler, try_catch, post_product_id_comment, mbind, M_bind,
    prisma, prisma_run.
  cbn [params body db trace now uuid]. rewrite get_insert.
  cbn [String.eqb Ascii.eqb Bool.eqb].
  rewrite create_data.
  rewrite (typed_data_ill_typed ProductComment _ "productId" (VStr x));
    [|apply lookup_insert_eq|done|done].
  unfold invalid. cbn -[object spread]. by rewrite <- app_assoc.
Qed.

(** X9: PATCH /products/:id and DELETE /products/:id change nothing, for
    any id and any body, whether the product is there or not.  The
    handlers call the store with the bare id ([findUnique(id)],
    [delete(id)]) where it expects [{ where: { id } }]; the store refuses
    the call and the request is answered 400. *)
Theorem product_update_and_delete_are_refused x q b t u w :
  trace (serve (mkHttp PATCH ["products"; x] q b t u) w) =
    trace w ++ [
      Query Product FindUnique (VStr x);
      Response (StatusSend 400
        (msg "Invalid invocation: argument validation failed"))]
  ∧ db (serve (mkHttp PATCH ["products"; x] q b t u) w) = db w
  ∧ trace (serve (mkHttp DELETE ["products"; x] q b t u) w) =
    trace w ++ [
      Query Product Delete (VNum (StringToNumber x));
      Response (StatusSend 400
        (msg "Invalid invocation: argument validation failed"))]
  ∧ db (serve (mkHttp DELETE ["products"; x] q b t u) w) = db w.
Proof.
  assert (dispatch app PATCH ["products"; x]
          = Some (asyncHandler patch_products_id, <["id" := VStr x]> ∅))
    as Hp by routed.
  assert (dispatch app DELETE ["products"; x]
          = Some (asyncHandler delete_products_id, <["id" := VStr x]> ∅))
    as Hd by routed.
  rewrite !(serve_route _ _ _ _ _ _ _ _ _ Hp),
    !(serve_route _ _ _ _ _ _ _ _ _ Hd).
  unfold asyncHandler, try_catch, patch_products_id, delete_products_id,
    mbind, M_bind, prisma.
  cbn [params query body db trace now uuid]. rewrite !get_insert.
  cbn [String.eqb Ascii.eqb Bool.eqb Number_].
  rewrite !prisma_run_bare by done.
  unfold invalid. cbn -[object]. by rewrite <- !app_assoc.
Qed.

Lemma get_products_id_found x z q b w i row :
  StringToNumber x = Num z →
  find_id (products (db w)) (VNum (Num z)) = Some (i, Some row) →
  ∃ a, asyncHandler get_products_id (mkReq (<["id" := VStr x]> ∅) q b) w =
  (Returns tt,
   mkWorld (db w)
     (trace w ++ [Query Product FindUnique a;
                  Response (StatusSend 200 (VObj row))])
     (now w) (uuid w)).
Proof.
  intros Hn H. eexists. run_handler. cbn [Number_]. rewrite Hn.
  rewrite (findUnique_where _ _ (VNum (Num z)) (VNum (Num z))) by done.
  cbn [rows_of]. rewrite H. finish_run.
Qed.

Lemma get_products_id_NaN x q b w :
  StringToNumber x = NaN →
  ∃ a, asyncHandler get_products_id (mkReq (<["id" := VStr x]> ∅) q b) w =
  (Returns tt,
   mkWorld (db w)
     (trace w ++ [Query Product FindUnique a;
                  Response (StatusSend 400
                    (msg "Invalid invocation: argument validation failed"))])
     (now w) (uuid w)).
Proof.
  intros Hn. eexists. run_handler. cbn [Number_]. rewrite Hn.
  unfold prisma_findUnique. rewrite args_of_object by reflexivity.
  read_literal. rewrite where_id_object by done.
  cbn [coerce_field field_of schema List.find fname String.eqb Ascii.eqb
       Bool.eqb mbind option_bind ftyp coerce].
  finish_run.
Qed.

(** X10: GET /products/:id reads the id of the path (a segment, which
    is not empty) as a number.  When the id reads as an integer of 32
    bits that is the id of a product, the request is answered 200 with
    the whole record; when the id is a text that denotes no number, the
    store refuses the lookup and the request is answered 400, not 404.
    The store is left as it was. *)
Theorem product_is_read_by_number x q b t u w :
  x ≠ "" →
  (∀ z i row,
     StringToNumber x = Num z →
     - 2 ^ 31 ≤ z < 2 ^ 31 →
     find_id (products (db w)) (VNum (Num z)) = Some (i, Some row) →
     answered (mkHttp GET ["products"; x] q b t u) w
       (StatusSend 200 (VObj row)))
  ∧ (non_numeric (VStr x) →
     answered (mkHttp GET ["products"; x] q b t u) w
       (StatusSend 400
          (msg "Invalid invocation: argument validation failed")))
  ∧ db (serve (mkHttp GET ["products"; x] q b t u) w) = db w.
Proof.
  assert (dispatch app GET ["products"; x]
          = Some (asyncHandler get_products_id, <["id" := VStr x]> ∅))
    as Hd by routed.
  intros _. split; [|split].
  - intros z i row Hn _ Hf.
    destruct (get_products_id_found x z q b (mkWorld (db w) (trace w) t u)
                i row Hn Hf) as [a Ha].
    exact (proj1 (answered_by _ _ _ _ _ _ _ _ _ _ _ _ _ Hd Ha)).
  - intros Hn. apply non_numeric_NaN in Hn. cbn [Number_] in Hn.
    destruct (get_products_id_NaN x q b (mkWorld (db w) (trace w) t u) Hn)
      as [a Ha].
    exact (proj1 (answered_by _ _ _ _ _ _ _ _ _ _ _ _ _ Hd Ha)).
  - rewrite (serve_route _ _ _ _ _ _ _ _ _ Hd).
    assert (reads_only (asyncHandler get_products_id
                          (mkReq (<["id" := VStr x]> ∅) q b))) as Hr.
    { apply reads_only_asyncHandler.
      unfold get_products_id, res.send, res.status_send. reading. }
    destruct (asyncHandler get_products_id _ _) as [o w'] eqn:Ew.
    by apply Hr in Ew.
Qed.

(* ===================================================================== *)
(** ** What a listing holds *)
(* ===================================================================== *)

Lemma page_window_submseteq {A} p s (l : list A) : page_window p s l ⊆+ l.
Proof.
  unfold page_window. apply sublist_submseteq.
  etrans; [apply sublist_take|apply sublist_drop].
Qed.

Lemma page_window_length {A} p s (l : list A) :
  (length (page_window p s l) ≤ Z.to_nat s)%nat.
Proof. unfold page_window. rewrite length_take. lia. Qed.

Lemma Forall_of_submseteq {A} (P : A → Prop) (l k : list A) :
  l ⊆+ k → Forall P k → Forall P l.
Proof.
  intros Hs Hk. apply Forall_forall. intros x Hx.
  rewrite Forall_forall in Hk. apply Hk. by eapply elem_of_submseteq.
Qed.

Lemma matching_submseteq W t : matching W t ⊆+ live t.
Proof. unfold matching. apply sublist_submseteq, sublist_filter. Qed.

Lemma matching_passes W t :
  Forall (λ r, eval_where W r = true) (matching W t).
Proof.
  unfold matching. apply Forall_forall. intros r Hr.
  by apply list_elem_of_filter in Hr as [? _].
Qed.

(** X11: what GET /article lists.  For a keyword that is text (or
    absent), a page [p] and a page size [s] as the query string gives
    them (an integer from 1 on; page 1 and size 10 when nothing is given,
    or what is given reads as 0 or as no number) and a window among the
    safe integers, the request is answered 200 with a list of records
    that is sorted by creation time, oldest first when the order is
    ["oldest"] and newest first for any other order or none; every record
    listed is an article of the store, listed once, that passes the
    keyword filter; and the list is no longer than the page size. *)
Theorem article_list_is_sorted_and_filtered ps q b w p s :
  textual_keyword q →
  page_asked (get q "page") p →
  size_asked (get q "pageSize") s →
  safe_window p s →
  ∃ a l,
    asyncHandler get_article (mkReq ps q b) w =
    (Returns tt,
     mkWorld (db w)
       (trace w ++ [
          Query Article FindMany a;
          Response (StatusSend 200 (VArr (VObj <$> l)))])
       (now w) (uuid w))
    ∧ StronglySorted
        (ordered "createdAt"
           (if is_str (get_default q "order" (VStr "recent")) "oldest"
            then Asc else Desc)) l
    ∧ l ⊆+ live (articles (db w))
    ∧ Forall (λ r,
        eval_where
          (article_searchQuery (get_default q "keyword" (VStr ""))) r = true) l
    ∧ (length l ≤ Z.to_nat s)%nat.
Proof.
  intros Hk Hp Hs Hw.
  destruct (get_article_run ps q b w p s Hk Hp Hs Hw) as [a Ha].
  exists a, (page_window p s (article_listing q (db w))).
  split; [exact Ha|]. split; [|split; [|split]].
  - unfold page_window, article_listing.
    apply StronglySorted_take, StronglySorted_drop, sorted_by_sorted.
  - etrans; [apply page_window_submseteq|].
    rewrite article_listing_perm. apply matching_submseteq.
  - eapply Forall_of_submseteq; [apply page_window_submseteq|].
    rewrite article_listing_perm. apply matching_passes.
  - apply page_window_length.
Qed.

(** X12: what GET /products lists and counts.  Under the same conditions
    the request is answered 200 with [{ totalCount, products }], where
    [totalCount] is the number of products of the store that pass the
    keyword filter, whatever the page and the page size, and [products]
    holds the selected columns of a list of records that is sorted (by
    favoriteCount, highest first, when the order is ["fovorite"], newest
    first otherwise), made of products of the store that pass the filter,
    each listed once, and no longer than the page size. *)
Theorem product_list_counts_every_match ps q b w p s :
  textual_keyword q →
  page_asked (get q "page") p →
  size_asked (get q "pageSize") s →
  safe_window p s →
  ∃ a a' l,
    asyncHandler get_products (mkReq ps q b) w =
    (Returns tt,
     mkWorld (db w)
       (trace w ++ [
          Query Product FindMany a;
          Query Product Count a';
          Response (StatusSend 200 (VObj (object [
            ("totalCount", VNum (Num (Z.of_nat (length
               (filter (λ r,
                  eval_where
                    (products_searchQuery (get_default q "keyword" (VStr "")))
                    r = true)
                  (live (products (db w))))))));
            ("products",
             VArr (VObj ∘ project (Some products_select) <$> l))])))])
       (now w) (uuid w))
    ∧ StronglySorted
        (ordered
           (if is_str (get_default q "order" (VStr "recent")) "fovorite"
            then "favoriteCount" else "createdAt") Desc) l
    ∧ l ⊆+ live (products (db w))
    ∧ Forall (λ r,
        eval_where
          (products_searchQuery (get_default q "keyword" (VStr ""))) r = true) l
    ∧ (length l ≤ Z.to_nat s)%nat.
Proof.
  intros Hk Hp Hs Hw.
  destruct (get_products_run ps q b w p s Hk Hp Hs Hw) as (a & a' & Ha).
  exists a, a', (page_window p s (products_listing q (db w))).
  split; [exact Ha|]. split; [|split; [|split]].
  - unfold page_window, products_listing.
    apply StronglySorted_take, StronglySorted_drop.
    destruct (is_str _ "fovorite"); apply sorted_by_sorted.
  - etrans; [apply page_window_submseteq|].
    rewrite products_listing_perm. apply matching_submseteq.
  - eapply Forall_of_submseteq; [apply page_window_submseteq|].
    rewrite products_listing_perm. apply matching_passes.
  - apply page_window_length.
Qed.

(** *** Zero as a page and as a page size *)

Lemma get_delete (q : obj) k : get (delete k q) k = VUndefined.
Proof. unfold get. by rewrite lookup_delete_eq. Qed.

Lemma get_delete_ne (q : obj) k k' : k ≠ k' → get (delete k q) k' = get q k'.
Proof. intros H. unfold get. by rewrite lookup_delete_ne. Qed.

Lemma get_default_delete_ne (q : obj) k k' d :
  k ≠ k' → get_default (delete k q) k' d = get_default q k' d.
Proof. intros H. unfold get_default. by rewrite get_delete_ne. Qed.

Lemma pageNum_zero page : Number_ page = Num 0 → pageNum page = pageNum VUndefined.
Proof. intros H. unfold pageNum, or_else. by rewrite H. Qed.

Lemma pageSizeNum_zero pageSize :
  Number_ pageSize = Num 0 → pageSizeNum pageSize = pageSizeNum VUndefined.
Proof. intros H. unfold pageSizeNum, or_else. by rewrite H. Qed.

(** X13: a page or a page size that reads as the number 0 (the text
    ["0"], or an empty text) counts as absent: [Number(page) || 1] and
    [Number(pageSize) || 10] take 0 for no value.  Whatever else the
    request holds, both listings do with a page that reads as 0 what they
    do without a page, and with a page size that reads as 0 what they do
    without a page size.  So page 0 is page 1, and a page size of 0 lists
    ten records, not none: with a page size that reads as 0 the articles
    listed for page [p] are the ten after the first [(p - 1) * 10], and
    with a page that reads as 0 they are the first [s]. *)
Theorem zero_page_inputs_are_defaulted ps q b w :
  (Number_ (get q "page") = Num 0 →
   asyncHandler get_article (mkReq ps q b) w
   = asyncHandler get_article (mkReq ps (delete "page" q) b) w
   ∧ asyncHandler get_products (mkReq ps q b) w
     = asyncHandler get_products (mkReq ps (delete "page" q) b) w)
  ∧ (Number_ (get q "pageSize") = Num 0 →
     asyncHandler get_article (mkReq ps q b) w
     = asyncHandler get_article (mkReq ps (delete "pageSize" q) b) w
     ∧ asyncHandler get_products (mkReq ps q b) w
       = asyncHandler get_products (mkReq ps (delete "pageSize" q) b) w)
  ∧ (∀ p,
       Number_ (get q "pageSize") = Num 0 →
       textual_keyword q →
       page_asked (get q "page") p →
       (p - 1) * 10 < 2 ^ 53 →
       ∃ a,
         asyncHandler get_article (mkReq ps q b) w =
         (Returns tt,
          mkWorld (db w)
            (trace w ++ [
               Query Article FindMany a;
               Response (StatusSend 200 (VArr (VObj <$>
                 take 10 (drop (Z.to_nat ((p - 1) * 10))
                   (article_listing q (db w))))))])
            (now w) (uuid w)))
  ∧ (∀ s,
       Number_ (get q "page") = Num 0 →
       textual_keyword q →
       size_asked (get q "pageSize") s →
       s < 2 ^ 53 →
       ∃ a,
         asyncHandler get_article (mkReq ps q b) w =
         (Returns tt,
          mkWorld (db w)
            (trace w ++ [
               Query Article FindMany a;
               Response (StatusSend 200 (VArr (VObj <$>
                 take (Z.to_nat s) (article_listing q (db w)))))])
            (now w) (uuid w))).
Proof.
  split; [|split; [|split]].
  - intros H. split.
    + unfold asyncHandler, get_article. cbn [query].
      rewrite get_delete, !get_delete_ne, !get_default_delete_ne by done.
      by rewrite (pageNum_zero _ H).
    + unfold asyncHandler, get_products. cbn [query].
      rewrite get_delete, !get_delete_ne, !get_default_delete_ne by done.
      by rewrite (pageNum_zero _ H).
  - intros H. split.
    + unfold asyncHandler, get_article. cbn [query].
      rewrite get_delete, !get_delete_ne, !get_default_delete_ne by done.
      by rewrite (pageSizeNum_zero _ H).
    + unfold asyncHandler, get_products. cbn [query].
      rewrite get_delete, !get_delete_ne, !get_default_delete_ne by done.
      by rewrite (pageSizeNum_zero _ H).
  - intros p H Hk Hp Hw.
    destruct (get_article_run ps q b w p 10 Hk Hp) as [a Ha].
    + left. split; [by right|done].
    + split; [done|lia].
    + exists a. exact Ha.
  - intros s H Hk Hs Hw.
    destruct (get_article_run ps q b w 1 s Hk) as [a Ha]; [|exact Hs| |].
    + left. split; [by right|done].
    + split; [lia|done].
    + exists a. exact Ha.
Qed.

(* ===================================================================== *)
(** ** The comment listing, cursor by cursor *)
(* ===================================================================== *)

(** X14: GET /comment pages by cursor.  With a limit that is a safe
    integer (5 when none is given) and comments that have creation times
    of their own, the comments are taken newest first.  Without a cursor,
    or with an empty one, the answer is the first [limit] comments.  With
    the id of a comment as cursor, the answer is the [limit] comments that
    follow that comment, which is left out itself.  Either way the request
    is answered 200 with the columns id, content and createdAt of these
    comments. *)
Theorem comment_list_follows_cursor ps q b w n :
  limit_is q n →
  NoDup (created <$> live (comments (db w))) →
  StronglySorted (ordered "createdAt" Desc) (comments_newest_first (db w))
  ∧ comments_newest_first (db w) ≡ₚ live (comments (db w))
  ∧ (get q "cursor" = VUndefined ∨ get q "cursor" = VStr "" →
     ∃ a,
       asyncHandler get_comment (mkReq ps q b) w =
       (Returns tt,
        mkWorld (db w)
          (trace w ++ [
             Query Comment FindMany a;
             Response (StatusSend 200
               (VArr (VObj ∘ project (Some comment_select) <$>
                  take (Z.to_nat n) (comments_newest_first (db w)))))])
          (now w) (uuid w)))
  ∧ (∀ c pre rc post,
       get q "cursor" = VStr c → c ≠ "" →
       comments_newest_first (db w) = pre ++ rc :: post →
       same_id (get rc "id") (VStr c) = true →
       Forall (λ r, same_id (get r "id") (VStr c) = false) pre →
       ∃ a,
         asyncHandler get_comment (mkReq ps q b) w =
         (Returns tt,
          mkWorld (db w)
            (trace w ++ [
               Query Comment FindMany a;
               Response (StatusSend 200
                 (VArr (VObj ∘ project (Some comment_select) <$>
                    take (Z.to_nat n) post)))])
            (now w) (uuid w))).
Proof.
  intros Hl Hdup. destruct (limit_is_parsed q n Hl) as [Hp Hn].
  assert (StronglySorted (ordered "createdAt" Desc)
            (comments_newest_first (db w))) as Hsort
    by apply sorted_by_sorted.
  assert (comments_newest_first (db w) ≡ₚ live (comments (db w))) as Hperm
    by apply sorted_by_perm.
  split; [exact Hsort|]. split; [exact Hperm|]. split.
  - intros Hc. eexists.
    unfold asyncHandler, try_catch, get_comment, mbind, M_bind, prisma,
      prisma_run. cbn [query db trace now uuid]. rewrite Hp.
    assert (cursor_page (get q "cursor") (Num n) = cursor_page VUndefined (Num n))
      as -> by (destruct Hc as [->| ->]; reflexivity).
    rewrite findMany_cursor_page by (done || by left). finish_run.
  - intros c pre rc post Hc Hne Hall Hrc Hpre.
    destruct (get_comment_run ps q b w n Hl) as [a Ha].
    + intros c' Hc'. rewrite Hc in Hc'. by injection Hc' as <-.
    + right. by exists c.
    + exists a. rewrite Ha, Hc, Hall, after_cursor; [reflexivity| | |done..].
      * by rewrite <- Hall.
      * rewrite <- Hall. by rewrite Hperm.
Qed.

(* ===================================================================== *)
(** ** Creating a product *)
(* ===================================================================== *)

(** Data whose values are of the types of their columns is taken as it
    is. *)
Lemma typed_data_as_given m (data : obj) :
  map_Forall (λ k v, coerce_field m k v = Some v ∧ is_undefined v = false)
    data →
  typed_data m data = Some data.
Proof.
  intros Hdata.
  assert (Hd : defined data = data).
  { unfold defined. apply map_filter_id. intros k v Hk.
    by destruct (Hdata k v Hk) as [_ Ht]. }
  unfold typed_data. rewrite Hd.
  assert (forallb (λ kv, bool_decide (is_Some (coerce_field m kv.1 kv.2)))
            (map_to_list data) = true) as ->.
  { apply forallb_forall. intros [k v] Hin.
    apply list_elem_of_In, elem_of_map_to_list in Hin.
    apply bool_decide_eq_true. cbn [fst snd].
    destruct (Hdata k v Hin) as [-> _]. by eexists. }
  f_equal. apply map_eq. intros k. rewrite map_lookup_imap.
  destruct (data !! k) as [v|] eqn:E; [|done]. simpl.
  by destruct (Hdata k v E) as [-> _].
Qed.

Lemma forallb_is_text ts : forallb is_text (VStr <$> ts) = true.
Proof. by induction ts. Qed.

(** The body of a product: a name, a description, a price and tags. *)
Definition product_body (name description : string) (price : Z)
    (tags : list string) : obj :=
  object [("name", VStr name); ("description", VStr description);
          ("price", VNum (Num price)); ("tags", VArr (VStr <$> tags))].

(** The product the store makes of it. *)
Definition new_product (id : Z) (name description : string) (price : Z)
    (tags : list string) (t : Z) : obj :=
  object [("id", VNum (Num id)); ("name", VStr name);
          ("description", VStr description); ("price", VNum (Num price));
          ("tags", VArr (VStr <$> tags)); ("favoriteCount", VNum (Num 0));
          ("createdAt", VDate t)].



(** X16: a product posted with an id that is in use is answered 500.
    POST /products checks no schema, so that the body may carry an id of
    its own; when a product of the store has that id the store fails with
    P2002, a failure the wrapper knows no status for: the request is
    answered 500 with the failure's message, and the store is left as it
    was. *)
Theorem product_with_used_id_is_a_500 i N D P ts q t u w :
  is_Some (find_id (products (db w)) (VNum (Num i))) →
  answered
    (mkHttp POST ["products"] q
       (VObj (<["id" := VNum (Num i)]> (product_body N D P ts))) t u) w
    (StatusSend 500 (msg "Unique constraint failed on the fields: (`id`)"))
  ∧ db (serve
      (mkHttp POST ["products"] q
         (VObj (<["id" := VNum (Num i)]> (product_body N D P ts))) t u) w)
    = db w.
Proof.
  intros [s Hf].
  assert (dispatch app POST ["products"] = Some (asyncHandler post_products, ∅))
    as Hd by routed.
  unfold answered. rewrite !(serve_route _ _ _ _ _ _ _ _ _ Hd).
  run_handler. rewrite create_data.
  rewrite typed_data_as_given.
  - assert (<["id" := VNum (Num i)]> (product_body N D P ts)
            ∪ defaults t u Product (db w)
            = new_product i N D P ts t) as Hrow
      by (vm_compute; reflexivity).
    assert (complete Product (new_product i N D P ts t) = true)
      as Hc by (vm_compute; reflexivity).
    assert (get (new_product i N D P ts t) "id" = VNum (Num i))
      as Hi by (unfold new_product; by read_literal).
    assert (bump Product (<["id" := VNum (Num i)]> (product_body N D P ts))
              (db w) = db w)
      as Hb by (vm_compute; reflexivity).
    rewrite Hrow, Hc, Hi. cbn [rows_of]. rewrite Hf, Hb.
    unfold not_unique, res.status_send, emit.
    cbn [name message code String.eqb Ascii.eqb Bool.eqb orb andb is_str
         instanceof_PrismaClientValidationError
         instanceof_PrismaClientKnownRequestError db trace now uuid snd].
    split; [|reflexivity]. by rewrite responses_snoc_response,
      responses_snoc_query.
  - apply map_Forall_insert_2; [done|].
    intros k v Hk. apply object_lookup in Hk.
    repeat (apply elem_of_cons in Hk as [[= -> ->]|Hk]);
      [| | | |by apply elem_of_nil in Hk]; split; try done.
    unfold coerce_field.
    cbn [field_of schema List.find fname String.eqb Ascii.eqb Bool.eqb
         mbind option_bind ftyp coerce].
    by rewrite forallb_is_text.
Qed.

(* ===================================================================== *)
(** ** Keywords that are not text *)
(* ===================================================================== *)

(** A [contains] that is given something else than text is no filter. *)
Lemma valid_contains_other m c kw :
  is_text kw = false →
  valid_field_cond m c (VObj (object [("contains", kw)])) = false.
Proof.
  intros Hk. unfold valid_field_cond.
  destruct (field_of m c) as [f|]; [|done].
  destruct (is_undefined kw) eqn:Eu.
  - destruct kw; try done. unfold object. cbn [foldl fst snd].
    unfold defined. rewrite insert_empty, map_filter_singleton_False by done.
    rewrite map_to_list_empty. by destruct (ftyp f).
  - rewrite defined_single by done. by destruct (ftyp f), kw.
Qed.

(** A query whose filter is not valid is refused. *)
Lemma findMany_invalid_where m l d :
  forallb (λ kv, bool_decide
     (kv.1 ∈ ["where"; "orderBy"; "skip"; "take"; "cursor"; "select"])) l
    = true →
  valid_where m (get (object l) "where") = false →
  prisma_findMany m (VObj (object l)) d = invalid d.
Proof.
  intros Hl Hw. unfold prisma_findMany. rewrite args_of_object by done.
  rewrite Hw. by repeat case_match.
Qed.

(** The keyword of the query string is a list or an object, as the
    parser of query strings makes of [keyword[]=a] and [keyword[k]=a]. *)
Definition structured_keyword (q : obj) : Prop :=
  (∃ l, get q "keyword" = VArr l) ∨ (∃ o, get q "keyword" = VObj o).

(** X17: a keyword that is not text is an error.  Both listings hand the
    keyword of the query string to the store as they find it; when it is
    a list or an object the store refuses the filter and the request is
    answered 400, whatever the page and the order, and no count is
    asked for. *)
Theorem structured_keyword_is_refused ps q b w :
  structured_keyword q →
  (∃ a,
     asyncHandler get_article (mkReq ps q b) w =
     (Returns tt,
      mkWorld (db w)
        (trace w ++ [
           Query Article FindMany a;
           Response (StatusSend 400
             (msg "Invalid invocation: argument validation failed"))])
        (now w) (uuid w)))
  ∧ (∃ a,
     asyncHandler get_products (mkReq ps q b) w =
     (Returns tt,
      mkWorld (db w)
        (trace w ++ [
           Query Product FindMany a;
           Response (StatusSend 400
             (msg "Invalid invocation: argument validation failed"))])
        (now w) (uuid w))).
Proof.
  intros Hq.
  assert (∃ kw, get_default q "keyword" (VStr "") = kw
                ∧ truthy kw = true ∧ is_text kw = false) as (kw & Hkw & Ht & Hx).
  { unfold get_default.
    destruct Hq as [[l ->]|[o ->]]; eexists; by split. }
  split; eexists.
  - unfold asyncHandler, try_catch, get_article, mbind, M_bind, prisma,
      prisma_run. cbn [query db trace now uuid]. rewrite Hkw.
    rewrite findMany_invalid_where; [finish_run|reflexivity|].
    read_literal. unfold article_searchQuery. rewrite Ht.
    rewrite valid_where_or. cbn [forallb].
    rewrite valid_conds_single by done.
    by rewrite valid_contains_other.
  - unfold asyncHandler, try_catch, get_products, mbind, M_bind, prisma,
      prisma_run. cbn [query db trace now uuid]. rewrite Hkw.
    rewrite findMany_invalid_where; [finish_run|reflexivity|].
    read_literal. unfold products_searchQuery.
    rewrite valid_where_or. cbn [forallb].
    rewrite valid_conds_single by done.
    by rewrite valid_contains_other.
Qed.
End App.

(* ===================================================================== *)
(** ** The statements at work on the sample data *)
(* ===================================================================== *)

Abbreviation sample_serve :=
  (serve Sample.parseDate Sample.CreateArticle Sample.PatchArticle
     Sample.CreateComment).

Abbreviation sample_run :=
  (run Sample.parseDate Sample.CreateArticle Sample.PatchArticle
     Sample.CreateComment).

(** A shape that allows neither [id] nor [createdAt] admits no body with
    one of them. *)
Lemma shape_keeps_identity allowed required :
  "id" ∉ allowed → "createdAt" ∉ allowed →
  keeps_identity (Sample.shape allowed required).
Proof.
  intros Hi Hc v H. unfold Sample.shape in H.
  destruct v as [| | | | | | |o]; try discriminate.
  destruct (forallb _ (map_to_list o)) eqn:E; [|done]. clear H.
  rewrite forallb_forall in E.
  assert (Hk : ∀ k, k ∉ allowed → get o k = VUndefined).
  { intros k Hk. unfold get. destruct (o !! k) as [v|] eqn:Eo; [|done].
    apply elem_of_map_to_list, list_elem_of_In, E in Eo.
    apply andb_true_iff in Eo as [Eo _]. by apply bool_decide_eq_true in Eo. }
  split; by apply Hk.
Qed.

Lemma PatchArticle_keeps_identity : keeps_identity Sample.PatchArticle.
Proof.
  apply shape_keeps_identity; intros H;
    repeat (apply elem_of_cons in H as [[=]|H]); by apply elem_of_nil in H.
Qed.

Lemma CreateComment_keeps_identity : keeps_identity Sample.CreateComment.
Proof.
  apply shape_keeps_identity; intros H;
    repeat (apply elem_of_cons in H as [[=]|H]); by apply elem_of_nil in H.
Qed.

(** C1, the claim as stated, fails on the 404: the response to a record
    that is not there goes out with a body, the reason phrase of the
    status.  An article that is not there is asked for: the wrapper
    answers with [res.sendStatus(404)], whose body is the text
    "Not Found". *)
Lemma not_found_is_answered_with_text :
  responses (trace (sample_serve
    (Sample.request_to GET ["article"; "zz"] [] VUndefined) Sample.start))
  = [SendStatus 404]
  ∧ status_of (SendStatus 404) = 404
  ∧ body_of (SendStatus 404) = Payload (VStr "Not Found")
  ∧ body_of (SendStatus 404) ≠ NoBody.
Proof.
  split; [vm_compute; reflexivity|]. split; [reflexivity|].
  split; [reflexivity|discriminate].
Qed.

(** C1 at work: a handler that throws the failure P2025, and one that
    throws a schema-validation failure. *)
Lemma asyncHandler_maps_failures_witness :
  (∃ r,
     asyncHandler
       (λ _, throw (PrismaClientKnownRequestError "P2025" "No Article found"))
       (mkReq ∅ ∅ VUndefined) Sample.start
     = (Returns tt, replied r Sample.start)
     ∧ r = SendStatus 404
     ∧ body_of r = Payload (VStr "Not Found"))
  ∧ (∃ r,
     asyncHandler (λ _, throw (StructError "title is required"))
       (mkReq ∅ ∅ VUndefined) Sample.start
     = (Returns tt, replied r Sample.start)
     ∧ body_of r = Payload (VObj {[ "message" := VStr "title is required" ]})).
Proof.
  split.
  - destruct (asyncHandler_maps_failures
                (λ _, throw (PrismaClientKnownRequestError "P2025"
                               "No Article found"))
                (mkReq ∅ ∅ VUndefined) Sample.start
                (PrismaClientKnownRequestError "P2025" "No Article found")
                Sample.start eq_refl)
      as (r & H & _ & _ & _ & H404 & _).
    destruct (H404 "No Article found" eq_refl) as (Hr & _ & Hb).
    exists r. split; [exact H|]. split; [exact Hr|exact Hb].
  - destruct (asyncHandler_maps_failures
                (λ _, throw (StructError "title is required"))
                (mkReq ∅ ∅ VUndefined) Sample.start
                (StructError "title is required") Sample.start eq_refl)
      as (r & H & _ & _ & H400 & _).
    destruct H400 as (_ & _ & Hb); [by left|].
    exists r. split; [exact H|exact Hb].
Defined.

(** C10 at work: POST /article without a title. *)
Lemma validation_failure_leaves_store_witness :
  ∃ w',
    asyncHandler
      (post_article Sample.parseDate Sample.CreateArticle)
      (mkReq ∅ ∅ (VObj (object [("content", VStr "b")]))) Sample.start
    = (Returns tt, w')
    ∧ db w' = Sample.empty_db
    ∧ trace w' =
      [Response (StatusSend 400
         (msg "Expected an object of the required shape"))].
Proof.
  apply (validation_failure_leaves_store Sample.parseDate
           Sample.CreateArticle Sample.PatchArticle Sample.CreateComment
           Sample.CreateArticle
           (post_article Sample.parseDate Sample.CreateArticle)
           (mkReq ∅ ∅ (VObj (object [("content", VStr "b")]))) Sample.start).
  - apply list_elem_of_here.
  - vm_compute. reflexivity.
Defined.

(** C2, the claim as stated, fails on products: a missing product is
    answered 404 with a message in the body.  (The 404 of the other
    routes has a body as well, the text "Not Found".) *)
Lemma product_404_carries_a_message :
  find_id (products (db Sample.start)) (VNum (Num 7)) = None
  ∧ responses (trace (sample_serve
      (Sample.request_to GET ["products"; "7"] [] VUndefined) Sample.start))
    = [StatusSend 404 (VObj {[ "message" := VStr "Cannot find given id." ]})]
  ∧ body_of
      (StatusSend 404 (VObj {[ "message" := VStr "Cannot find given id." ]}))
    = Payload (VObj {[ "message" := VStr "Cannot find given id." ]})
  ∧ body_of
      (StatusSend 404 (VObj {[ "message" := VStr "Cannot find given id." ]}))
    ≠ NoBody
  ∧ body_of (SendStatus 404) ≠ NoBody.
Proof.
  split; [reflexivity|]. split; [vm_compute; reflexivity|].
  split; [reflexivity|]. split; discriminate.
Qed.

(** C2 at work: an article that is not there is not updated, a product that
    is not there is not found. *)
Lemma missing_id_is_404_witness :
  answered Sample.parseDate Sample.CreateArticle Sample.PatchArticle
    Sample.CreateComment
    (mkHttp PATCH ["article"; "zz"] ∅
       (VObj (object [("title", VStr "new")])) 100 "fresh")
    Sample.start (SendStatus 404)
  ∧ answered Sample.parseDate Sample.CreateArticle Sample.PatchArticle
      Sample.CreateComment
      (mkHttp GET ["products"; "7"] ∅ VUndefined 100 "fresh")
      Sample.start
      (StatusSend 404 (VObj {[ "message" := VStr "Cannot find given id." ]})).
Proof.
  destruct (missing_id_is_404 Sample.parseDate Sample.CreateArticle
              Sample.PatchArticle Sample.CreateComment "zz" ∅
              (VObj (object [("title", VStr "new")])) 100 "fresh" Sample.start)
    as [H1 _]; [discriminate|].
  destruct (missing_id_is_404 Sample.parseDate Sample.CreateArticle
              Sample.PatchArticle Sample.CreateComment "7" ∅
              VUndefined 100 "fresh" Sample.start)
    as [_ H2]; [discriminate|].
  split.
  - refine (proj1 (H1 PATCH "article" Article (Some Sample.PatchArticle) _ _ _)).
    + apply list_elem_of_further, list_elem_of_here.
    + reflexivity.
    + split; [vm_compute; reflexivity|].
      eexists. split; [reflexivity|]. vm_compute. eexists. reflexivity.
  - refine (proj1 (H2 7 _ _ _)).
    + vm_compute. reflexivity.
    + lia.
    + reflexivity.
Defined.

(** C7 at work: a comment posted to article a1. *)
Lemma article_comment_owner_is_undefined_witness :
  ∃ data,
    data !! "articleId" = Some VUndefined
    ∧ trace (sample_serve
        (mkHttp POST ["article"; "a1"; "comment"] ∅
           (VObj (object [("content", VStr "hi")])) 100 "fresh")
        (mkWorld Sample.board [] 0 "")) =
      [] ++ [
        Query Comment Create (VObj (object [("data", VObj data)]));
        Response (StatusSend 400
          (msg "Invalid invocation: argument validation failed"))]
    ∧ db (sample_serve
        (mkHttp POST ["article"; "a1"; "comment"] ∅
           (VObj (object [("content", VStr "hi")])) 100 "fresh")
        (mkWorld Sample.board [] 0 "")) = Sample.board.
Proof.
  refine (article_comment_owner_is_undefined Sample.parseDate
            Sample.CreateArticle Sample.PatchArticle Sample.CreateComment
            "a1" ∅ (VObj (object [("content", VStr "hi")])) 100 "fresh"
            (mkWorld Sample.board [] 0 "") _).
  vm_compute. reflexivity.
Defined.

(** C5, the claim as stated, fails where a page size is 0 and where the
    window leaves the safe integers.  On the board, whose eleven articles
    are listed newest first, a page size of 0 lists ten articles, not
    none; and for page 99999999999999999999 the number of records to skip,
    [(page - 1) * pageSize], is 10^21, which [parseInt] reads back from
    its text ["1e+21"] as 1: the articles a10 to a1 are listed, where the
    claim leaves none. *)
Lemma page_size_zero_lists_ten :
  responses (trace (sample_serve
    (Sample.request_to GET ["article"] [("pageSize", VStr "0")] VUndefined)
    (mkWorld Sample.board [] 0 "")))
  = [StatusSend 200 (VArr (VObj <$> [
       Sample.article "a11" "t" "c" 10; Sample.article "a10" "t" "c" 9;
       Sample.article "a9" "t" "c" 8; Sample.article "a8" "t" "c" 7;
       Sample.article "a7" "t" "c" 6; Sample.article "a6" "t" "c" 5;
       Sample.article "a5" "t" "c" 4; Sample.article "a4" "t" "c" 3;
       Sample.article "a3" "t" "c" 2; Sample.article "a2" "t" "c" 1]))]
  ∧ Number_ (VStr "0") = Num 0
  ∧ parseInt (skipInt (pageNum (VStr "99999999999999999999"))
                (pageSizeNum VUndefined)) = Num 1
  ∧ responses (trace (sample_serve
      (Sample.request_to GET ["article"]
         [("page", VStr "99999999999999999999")] VUndefined)
      (mkWorld Sample.board [] 0 "")))
    = [StatusSend 200 (VArr (VObj <$> [
         Sample.article "a10" "t" "c" 9; Sample.article "a9" "t" "c" 8;
         Sample.article "a8" "t" "c" 7; Sample.article "a7" "t" "c" 6;
         Sample.article "a6" "t" "c" 5; Sample.article "a5" "t" "c" 4;
         Sample.article "a4" "t" "c" 3; Sample.article "a3" "t" "c" 2;
         Sample.article "a2" "t" "c" 1; Sample.article "a1" "t" "c" 0]))].
Proof. repeat split; vm_compute; reflexivity. Qed.

(** C5 at work: page 2 of size 5 of the eleven articles of the board,
    newest first, is the articles a6 down to a2: the records 6 to 10. *)
Lemma page_window_of_listing_witness :
  ∃ a,
    asyncHandler (get_article Sample.parseDate)
      (mkReq ∅ (object [("page", VStr "2"); ("pageSize", VStr "5")]) VUndefined)
      (mkWorld Sample.board [] 0 "") =
    (Returns tt,
     mkWorld Sample.board
       ([] ++ [
          Query Article FindMany a;
          Response (StatusSend 200 (VArr (VObj <$> [
            Sample.article "a6" "t" "c" 5;
            Sample.article "a5" "t" "c" 4;
            Sample.article "a4" "t" "c" 3;
            Sample.article "a3" "t" "c" 2;
            Sample.article "a2" "t" "c" 1])))])
       0 "").
Proof.
  destruct (page_window_of_listing Sample.parseDate ∅
              (object [("page", VStr "2"); ("pageSize", VStr "5")]) VUndefined
              (mkWorld Sample.board [] 0 "") 2 5) as [[a Ha] _].
  - exists "". reflexivity.
  - right. split; [vm_compute; reflexivity|lia].
  - right. split; [vm_compute; reflexivity|lia].
  - split; reflexivity.
  - exists a. rewrite Ha. vm_compute. reflexivity.
Defined.

(** C6 at work: "am" occurs in the name of the lamp. *)
Lemma keyword_filter_is_substring_witness :
  eval_where (products_searchQuery (VStr "am"))
    (Sample.product 1 "lamp" "old" 9 10) = true.
Proof.
  destruct (keyword_filter_is_substring Sample.parseDate
              products_searchQuery "name" "description" "am"
              (Sample.product 1 "lamp" "old" 9 10) "lamp" "old")
    as [H _].
  - apply list_elem_of_here.
  - reflexivity.
  - reflexivity.
  - apply H. left. by exists "l", "p".
Defined.

(** C9, the claim as stated, fails on the cursor mode: the limit "abc" is
    not replaced by 5.  The listing query is given [take: NaN], and the
    request is answered 400. *)
Lemma non_numeric_limit_is_not_defaulted :
  queries (trace (sample_serve
    (Sample.request_to GET ["comment"] [("limit", VStr "abc")] VUndefined)
    Sample.start))
  = [(Comment, FindMany, cursor_page VUndefined NaN)]
  ∧ prop (cursor_page VUndefined NaN) "take" = VNum NaN
  ∧ VNum NaN ≠ VNum (Num 5)
  ∧ responses (trace (sample_serve
      (Sample.request_to GET ["comment"] [("limit", VStr "abc")] VUndefined)
      Sample.start))
    = [StatusSend 400 (msg "Invalid invocation: argument validation failed")].
Proof.
  split; [vm_compute; reflexivity|]. split; [vm_compute; reflexivity|].
  split; [discriminate|vm_compute; reflexivity].
Qed.

(** C9 at work: page "abc", and no page size, give the first ten
    articles. *)
Lemma non_numeric_page_inputs_witness :
  pageNum (VStr "abc") = VNum (Num 1)
  ∧ ∃ a,
      asyncHandler (get_article Sample.parseDate)
        (mkReq ∅ (object [("page", VStr "abc")]) VUndefined)
        (mkWorld Sample.board [] 0 "") =
      (Returns tt,
       mkWorld Sample.board
         ([] ++ [
            Query Article FindMany a;
            Response (StatusSend 200 (VArr (VObj <$>
              page_window 1 10
                (article_listing (object [("page", VStr "abc")])
                   Sample.board))))])
         0 "").
Proof.
  destruct (non_numeric_page_inputs Sample.parseDate ∅
              (object [("page", VStr "abc")])
              VUndefined (mkWorld Sample.board [] 0 ""))
    as (Hd & Ha & _).
  split.
  - apply Hd. exists "abc". split; [reflexivity|vm_compute; reflexivity].
  - refine (proj1 (Ha 1 10 _ _ _ _)).
    + exists "". reflexivity.
    + left. split; [|reflexivity].
      exists "abc". split; [reflexivity|vm_compute; reflexivity].
    + right. left. split; [|reflexivity]. left. reflexivity.
    + split; reflexivity.
Defined.

(** C8 at work: article a1 of the board, after its title was changed and
    its neighbour deleted, still has its id and its creation time. *)
Lemma id_and_createdAt_never_change_witness :
  get (<["title" := VStr "new"]> (Sample.article "a1" "t" "c" 0)) "id"
    = get (Sample.article "a1" "t" "c" 0) "id"
  ∧ get (<["title" := VStr "new"]> (Sample.article "a1" "t" "c" 0)) "createdAt"
    = get (Sample.article "a1" "t" "c" 0) "createdAt".
Proof.
  refine (id_and_createdAt_never_change Sample.parseDate
            Sample.CreateArticle Sample.PatchArticle Sample.CreateComment
            [ mkHttp PATCH ["article"; "a1"] ∅
                (VObj (object [("title", VStr "new")])) 100 "fresh";
              mkHttp DELETE ["article"; "a2"] ∅ VUndefined 101 "fresh" ]
            (mkWorld Sample.board [] 0 "") Article 0%nat
            (Sample.article "a1" "t" "c" 0)
            (<["title" := VStr "new"]> (Sample.article "a1" "t" "c" 0))
            PatchArticle_keeps_identity CreateComment_keeps_identity _ _).
  - vm_compute. reflexivity.
  - vm_compute. reflexivity.
Defined.

(** The life of an article, as the specification tells it: created (201),
    read (200), deleted (204), and then gone (404). *)
Example article_lifecycle :
  responses (trace (sample_run [
    Sample.request_to POST ["article"] []
      (VObj (object [("title", VStr "a"); ("content", VStr "b")]));
    Sample.request_to GET ["article"; "fresh"] [] VUndefined;
    Sample.request_to DELETE ["article"; "fresh"] [] VUndefined;
    Sample.request_to GET ["article"; "fresh"] [] VUndefined
  ] Sample.start))
  = [ StatusSend 201 (VObj (Sample.article "fresh" "a" "b" 100));
      StatusSend 200 (VObj (Sample.article "fresh" "a" "b" 100));
      SendStatus 204;
      SendStatus 404 ].
Proof. vm_compute. reflexivity. Qed.

(* ===================================================================== *)
(** ** The further statements at work on the sample data *)
(* ===================================================================== *)

Abbreviation sample_answered :=
  (answered Sample.parseDate Sample.CreateArticle Sample.PatchArticle
     Sample.CreateComment).

Abbreviation sample_app :=
  (app Sample.parseDate Sample.CreateArticle Sample.PatchArticle
     Sample.CreateComment).

(** The board and the shop as worlds. *)
Definition on_board : world := mkWorld Sample.board [] 0 "".
Definition in_shop : world := mkWorld Sample.shop [] 0 "".

(** Two articles, and two comments on article a1, c2 the newer. *)
Definition talk : world :=
  mkWorld
    (mkDB [Some (Sample.article "a1" "t" "c" 0);
           Some (Sample.article "a2" "t" "c" 1)] []
       [Some (Sample.comment "c1" "first" "a1" 1);
        Some (Sample.comment "c2" "second" "a1" 2)] [] 0)
    [] 100 "fresh".

Ltac sample_routed :=
  cbn [dispatch app rmethod rpath rhandler method_eqb match_path String.eqb
       Ascii.eqb Bool.eqb fmap option_fmap option_map Sample.request_to
       h_method h_path];
  reflexivity.

(** X1 at work: a listing of the articles of an empty store. *)
Lemma routed_request_is_answered_once_witness :
  ∃ r,
    responses (trace (sample_serve
      (Sample.request_to GET ["article"] [] VUndefined) Sample.start))
    = responses (trace Sample.start) ++ [r].
Proof.
  refine (routed_request_is_answered_once Sample.parseDate
            Sample.CreateArticle Sample.PatchArticle Sample.CreateComment
            (Sample.request_to GET ["article"] [] VUndefined) Sample.start _).
  eexists. sample_routed.
Defined.

(** X2 at work: an article that is not there is asked for; the request is
    answered 404 and the articles are as they were. *)
Lemma failed_request_writes_nothing_witness :
  rows_of Article (db (sample_serve
    (Sample.request_to GET ["article"; "zz"] [] VUndefined) on_board))
  = rows_of Article (db on_board).
Proof.
  refine (failed_request_writes_nothing Sample.parseDate
            Sample.CreateArticle Sample.PatchArticle Sample.CreateComment
            (Sample.request_to GET ["article"; "zz"] [] VUndefined) on_board
            (SendStatus 404) Article _ _).
  - unfold answered. vm_compute. reflexivity.
  - vm_compute. discriminate.
Defined.

(** X3 at work: a listing leaves the board as it is. *)
Lemma get_request_leaves_store_witness :
  db (sample_serve (Sample.request_to GET ["article"] [] VUndefined) on_board)
  = db on_board.
Proof.
  refine (get_request_leaves_store Sample.parseDate
            Sample.CreateArticle Sample.PatchArticle Sample.CreateComment
            (Sample.request_to GET ["article"] [] VUndefined) on_board _).
  reflexivity.
Defined.

(** X4 at work: GET /products/7 is taken by the thirteenth registration
    and by no other. *)
Lemma routes_do_not_overlap_witness :
  ∃ r,
    sample_app !! 12%nat = Some r
    ∧ rmethod r = GET
    ∧ is_Some (match_path (rpath r) ["products"; "7"])
    ∧ (∀ j r', sample_app !! j = Some r' → rmethod r' = GET →
         is_Some (match_path (rpath r') ["products"; "7"]) → j = 12%nat).
Proof.
  exists (mkRoute GET [Lit "products"; Param "id"]
            (asyncHandler (get_products_id Sample.parseDate))).
  split; [reflexivity|]. split; [reflexivity|].
  split; [by eexists|].
  intros j r' Hj Hm Hp. symmetry.
  refine (routes_do_not_overlap Sample.parseDate
            Sample.CreateArticle Sample.PatchArticle Sample.CreateComment
            12%nat j _ r' ["products"; "7"] eq_refl Hj _ _ Hp).
  - by rewrite Hm.
  - by eexists.
Defined.

(** X5 at work: an article posted to an empty store. *)
Lemma created_article_is_read_back_witness :
  sample_answered
    (mkHttp POST ["article"] ∅
       (VObj (object [("title", VStr "a"); ("content", VStr "b")])) 100 "fresh")
    Sample.start
    (StatusSend 201 (VObj (Sample.article "fresh" "a" "b" 100)))
  ∧ articles (db (sample_serve
      (mkHttp POST ["article"] ∅
         (VObj (object [("title", VStr "a"); ("content", VStr "b")]))
         100 "fresh") Sample.start))
    = articles (db Sample.start) ++ [Some (Sample.article "fresh" "a" "b" 100)]
  ∧ sample_answered (mkHttp GET ["article"; "fresh"] ∅ VUndefined 101 "other")
      (sample_serve
         (mkHttp POST ["article"] ∅
            (VObj (object [("title", VStr "a"); ("content", VStr "b")]))
            100 "fresh") Sample.start)
      (StatusSend 200 (VObj (Sample.article "fresh" "a" "b" 100))).
Proof.
  refine (created_article_is_read_back Sample.parseDate
            Sample.CreateArticle Sample.PatchArticle Sample.CreateComment
            "a" "b" ∅ 100 "fresh" ∅ VUndefined 101 "other" Sample.start _ _).
  - vm_compute. reflexivity.
  - reflexivity.
Defined.

(** X6 at work: article a1 of the board is deleted, and cannot be deleted
    again. *)
Lemma deleted_record_is_gone_witness :
  sample_answered (mkHttp DELETE ["article"; "a1"] ∅ VUndefined 100 "fresh")
    on_board (SendStatus 204)
  ∧ sample_answered (mkHttp DELETE ["article"; "a1"] ∅ VUndefined 101 "other")
      (sample_serve
         (mkHttp DELETE ["article"; "a1"] ∅ VUndefined 100 "fresh") on_board)
      (SendStatus 404).
Proof.
  destruct (deleted_record_is_gone Sample.parseDate
              Sample.CreateArticle Sample.PatchArticle Sample.CreateComment
              "article" Article "a1" 0%nat (Sample.article "a1" "t" "c" 0)
              ∅ VUndefined 100 "fresh" ∅ VUndefined 101 "other" on_board)
    as (H1 & _ & H2 & _).
  - apply list_elem_of_here.
  - vm_compute. reflexivity.
  - vm_compute. reflexivity.
  - intros _. constructor.
  - split; [exact H1|exact H2].
Defined.

(** X7 at work: the title of article a1 is changed; its content stays. *)
Lemma update_replaces_given_columns_witness :
  sample_answered
    (mkHttp PATCH ["article"; "a1"] ∅
       (VObj (object [("title", VStr "new")])) 100 "fresh")
    on_board
    (StatusSend 200
       (VObj (object [("title", VStr "new")] ∪ Sample.article "a1" "t" "c" 0)))
  ∧ get (object [("title", VStr "new")] ∪ Sample.article "a1" "t" "c" 0)
      "title" = VStr "new"
  ∧ get (object [("title", VStr "new")] ∪ Sample.article "a1" "t" "c" 0)
      "content" = get (Sample.article "a1" "t" "c" 0) "content".
Proof.
  destruct (update_replaces_given_columns Sample.parseDate
              Sample.CreateArticle Sample.PatchArticle Sample.CreateComment
              "article" Article Sample.PatchArticle ["title"; "content"]
              "a1" 0%nat (Sample.article "a1" "t" "c" 0)
              (object [("title", VStr "new")]) ∅ 100 "fresh" on_board)
    as (H1 & _ & H2 & H3).
  - apply list_elem_of_here.
  - vm_compute. reflexivity.
  - unfold object. cbn [foldl fst snd].
    apply map_Forall_insert_2; [|apply map_Forall_empty].
    split; [apply list_elem_of_here|reflexivity].
  - vm_compute. reflexivity.
  - vm_compute. reflexivity.
  - split; [exact H1|]. split; [apply H2|apply H3]; reflexivity.
Defined.

(** X10 at work: the lamp is product 1. *)
Lemma product_is_read_by_number_witness :
  sample_answered (mkHttp GET ["products"; "1"] ∅ VUndefined 100 "fresh")
    in_shop (StatusSend 200 (VObj (Sample.product 1 "lamp" "old" 9 10)))
  ∧ sample_answered (mkHttp GET ["products"; "lamp"] ∅ VUndefined 100 "fresh")
      in_shop
      (StatusSend 400 (msg "Invalid invocation: argument validation failed")).
Proof.
  destruct (product_is_read_by_number Sample.parseDate
              Sample.CreateArticle Sample.PatchArticle Sample.CreateComment
              "1" ∅ VUndefined 100 "fresh" in_shop) as (H1 & _ & _);
    [discriminate|].
  destruct (product_is_read_by_number Sample.parseDate
              Sample.CreateArticle Sample.PatchArticle Sample.CreateComment
              "lamp" ∅ VUndefined 100 "fresh" in_shop) as (_ & H2 & _);
    [discriminate|].
  split.
  - refine (H1 1 0%nat (Sample.product 1 "lamp" "old" 9 10) _ _ _).
    + vm_compute. reflexivity.
    + lia.
    + vm_compute. reflexivity.
  - apply H2. exists "lamp". split; [reflexivity|vm_compute; reflexivity].
Defined.

(** X11 at work: the board, oldest first, three articles a page. *)
Lemma article_list_is_sorted_and_filtered_witness :
  ∃ a l,
    asyncHandler (get_article Sample.parseDate)
      (mkReq ∅ (object [("order", VStr "oldest"); ("pageSize", VStr "3")])
         VUndefined) on_board =
    (Returns tt,
     mkWorld (db on_board)
       (trace on_board ++ [
          Query Article FindMany a;
          Response (StatusSend 200 (VArr (VObj <$> l)))])
       (now on_board) (uuid on_board))
    ∧ StronglySorted (ordered "createdAt" Asc) l
    ∧ (length l ≤ 3)%nat.
Proof.
  destruct (article_list_is_sorted_and_filtered Sample.parseDate ∅
              (object [("order", VStr "oldest"); ("pageSize", VStr "3")])
              VUndefined on_board 1 3) as (a & l & Ha & Hs & _ & _ & Hl).
  - exists "". reflexivity.
  - left. split; [left|]; reflexivity.
  - right. split; [vm_compute; reflexivity|lia].
  - split; reflexivity.
  - exists a, l. split; [exact Ha|]. split; [exact Hs|exact Hl].
Defined.

(** X12 at work: one product a page, two products counted. *)
Lemma product_list_counts_every_match_witness :
  ∃ a a' l,
    asyncHandler (get_products Sample.parseDate)
      (mkReq ∅ (object [("pageSize", VStr "1")]) VUndefined) in_shop =
    (Returns tt,
     mkWorld (db in_shop)
       (trace in_shop ++ [
          Query Product FindMany a;
          Query Product Count a';
          Response (StatusSend 200 (VObj (object [
            ("totalCount", VNum (Num 2));
            ("products",
             VArr (VObj ∘ project (Some products_select) <$> l))])))])
       (now in_shop) (uuid in_shop))
    ∧ (length l ≤ 1)%nat.
Proof.
  destruct (product_list_counts_every_match Sample.parseDate ∅
              (object [("pageSize", VStr "1")]) VUndefined in_shop 1 1)
    as (a & a' & l & Ha & _ & _ & _ & Hl).
  - exists "". reflexivity.
  - left. split; [left|]; reflexivity.
  - right. split; [vm_compute; reflexivity|lia].
  - split; reflexivity.
  - exists a, a', l. split; [exact Ha|exact Hl].
Defined.

(** X13 at work: a page size of 0 on the board, with page 2: the ten
    articles after the first ten, that is the one that is left. *)
Lemma zero_page_inputs_are_defaulted_witness :
  ∃ a,
    asyncHandler (get_article Sample.parseDate)
      (mkReq ∅ (object [("page", VStr "2"); ("pageSize", VStr "0")])
         VUndefined) on_board =
    (Returns tt,
     mkWorld (db on_board)
       (trace on_board ++ [
          Query Article FindMany a;
          Response (StatusSend 200 (VArr (VObj <$>
            take 10 (drop (Z.to_nat ((2 - 1) * 10))
              (article_listing
                 (object [("page", VStr "2"); ("pageSize", VStr "0")])
                 (db on_board))))))])
       (now on_board) (uuid on_board)).
Proof.
  destruct (zero_page_inputs_are_defaulted Sample.parseDate ∅
              (object [("page", VStr "2"); ("pageSize", VStr "0")])
              VUndefined on_board) as (_ & _ & H & _).
  refine (H 2 _ _ _ _).
  - vm_compute. reflexivity.
  - exists "". reflexivity.
  - right. split; [vm_compute; reflexivity|lia].
  - reflexivity.
Defined.

(** X14 at work: after the newer comment comes the older one. *)
Lemma comment_list_follows_cursor_witness :
  ∃ a,
    asyncHandler (get_comment Sample.parseDate)
      (mkReq ∅ (object [("cursor", VStr "c2")]) VUndefined) talk =
    (Returns tt,
     mkWorld (db talk)
       (trace talk ++ [
          Query Comment FindMany a;
          Response (StatusSend 200
            (VArr (VObj ∘ project (Some comment_select) <$>
               take (Z.to_nat 5) [Sample.comment "c1" "first" "a1" 1])))])
       (now talk) (uuid talk)).
Proof.
  destruct (comment_list_follows_cursor Sample.parseDate ∅
              (object [("cursor", VStr "c2")]) VUndefined talk 5)
    as (_ & _ & _ & H).
  - left. split; reflexivity.
  - apply (bool_decide_eq_true_1 _). vm_compute. reflexivity.
  - refine (H "c2" [] (Sample.comment "c2" "second" "a1" 2)
              [Sample.comment "c1" "first" "a1" 1] _ _ _ _ _).
    + reflexivity.
    + discriminate.
    + vm_compute. reflexivity.
    + vm_compute. reflexivity.
    + constructor.
Defined.


(** X16 at work: a second product 1 for the shop. *)
Lemma product_with_used_id_is_a_500_witness :
  sample_answered
    (mkHttp POST ["products"] ∅
       (VObj (<["id" := VNum (Num 1)]> (product_body "chair" "oak" 50 [])))
       100 "fresh") in_shop
    (StatusSend 500 (msg "Unique constraint failed on the fields: (`id`)"))
  ∧ db (sample_serve
      (mkHttp POST ["products"] ∅
         (VObj (<["id" := VNum (Num 1)]> (product_body "chair" "oak" 50 [])))
         100 "fresh") in_shop)
    = db in_shop.
Proof.
  refine (product_with_used_id_is_a_500 Sample.parseDate
            Sample.CreateArticle Sample.PatchArticle Sample.CreateComment
            1 "chair" "oak" 50 [] ∅ 100 "fresh" in_shop _).
  eexists. vm_compute. reflexivity.
Defined.

(** X17 at work: the keyword of [?keyword[]=a]. *)
Lemma structured_keyword_is_refused_witness :
  ∃ a,
    asyncHandler (get_article Sample.parseDate)
      (mkReq ∅ (object [("keyword", VArr [VStr "a"])]) VUndefined) on_board =
    (Returns tt,
     mkWorld (db on_board)
       (trace on_board ++ [
          Query Article FindMany a;
          Response (StatusSend 400
            (msg "Invalid invocation: argument validation failed"))])
       (now on_board) (uuid on_board)).
Proof.
  destruct (structured_keyword_is_refused Sample.parseDate ∅
              (object [("keyword", VArr [VStr "a"])]) VUndefined on_board)
    as [H _].
  - left. exists [VStr "a"]. reflexivity.
  - exact H.
Defined.
